(** * CollegePortal: the chat pipeline of the backend

    A shallow embedding of the retrieval-and-response pipeline of the
    college portal backend:

    - [languageUtils.ts]  language detection, greetings, canned messages;
    - [ragUtils.ts]       the document store, the keyword scorer, the composer
                          and [processRAGQuery];
    - [chatController.ts] [processChatMessage] and [clearChatHistory];
    - the validators of the chat routes.

    Conventions of the model.

    - A JavaScript string is the list of its UTF-16 code units ([jsstring]).
      String constants are written as they stand in the source and decoded
      from UTF-8 by [js].
    - JavaScript numbers are modelled by exact rationals ([Q]); the program
      computes with IEEE doubles.
    - Wall-clock fields ([responseTime], [timestamp], [lastUpdated],
      [createdAt]) are left out of the records.
    - The external collaborators (the [franc] detector, the Hugging Face
      client, the persistence engine, the session id generator) are the
      fields of an environment [Env]; a call that can throw returns an
      [Outcome]. *)

From Stdlib Require Import NArith ZArith QArith Qminmax List String Ascii Bool
  Lia Lqa Sorted Permutation.
Import ListNotations.

Set Implicit Arguments.

(** ** JavaScript strings *)

Module Js.

Definition jsstring := list N.

Local Open Scope N_scope.

(** UTF-8 bytes to UTF-16 code units (a code point beyond the basic plane
    gives a surrogate pair). *)
Fixpoint utf16_of_utf8 (bs : list N) : jsstring :=
  match bs with
  | [] => []
  | b0 :: r0 =>
    if b0 <? 128 then b0 :: utf16_of_utf8 r0
    else if b0 <? 224 then
      match r0 with
      | b1 :: r1 => ((b0 - 192) * 64 + (b1 - 128)) :: utf16_of_utf8 r1
      | [] => []
      end
    else if b0 <? 240 then
      match r0 with
      | b1 :: b2 :: r2 =>
          ((b0 - 224) * 4096 + (b1 - 128) * 64 + (b2 - 128)) :: utf16_of_utf8 r2
      | _ => []
      end
    else
      match r0 with
      | b1 :: b2 :: b3 :: r3 =>
          let cp := (b0 - 240) * 262144 + (b1 - 128) * 4096
                    + (b2 - 128) * 64 + (b3 - 128) in
          let v := cp - 65536 in
          (55296 + v / 1024) :: (56320 + v mod 1024) :: utf16_of_utf8 r3
      | _ => []
      end
  end.

Definition js (s : string) : jsstring :=
  utf16_of_utf8 (map N_of_ascii (list_ascii_of_string s)).

Definition eqb (s t : jsstring) : bool :=
  if list_eq_dec N.eq_dec s t then true else false.

(** [WhiteSpace] and [LineTerminator] of ECMAScript: what [trim] strips and
    what [\s] matches. *)
Definition isWhiteSpace (c : N) : bool :=
  ((9 <=? c) && (c <=? 13)) || (c =? 32) || (c =? 160) || (c =? 5760)
  || ((8192 <=? c) && (c <=? 8202)) || (c =? 8232) || (c =? 8233)
  || (c =? 8239) || (c =? 8287) || (c =? 12288) || (c =? 65279).

Fixpoint trimStart (s : jsstring) : jsstring :=
  match s with
  | c :: s' => if isWhiteSpace c then trimStart s' else s
  | [] => []
  end.

Definition trimEnd (s : jsstring) : jsstring := rev (trimStart (rev s)).

Definition trim (s : jsstring) : jsstring := trimEnd (trimStart s).

(** Lower-casing of one code unit.  Exact on Basic Latin and Latin-1 and on
    every script without case (Devanagari among them); the case pairs of
    other scripts are not modelled. *)
Definition lowerUnit (c : N) : N :=
  if (65 <=? c) && (c <=? 90) then c + 32
  else if (192 <=? c) && (c <=? 222) && negb (c =? 215) then c + 32
  else c.

Definition toLowerCase (s : jsstring) : jsstring := map lowerUnit s.

(** [Canonicalize] of a regular expression with the [i] flag and without
    the [u] flag: the upper-case form of the code unit, on the same ranges
    as [lowerUnit] (the upper-case forms of U+00B5 and U+00FF lie outside
    Latin-1 and are kept apart from every character of the patterns below
    just the same). *)
Definition canonicalize (c : N) : N :=
  if (97 <=? c) && (c <=? 122) then c - 32
  else if (224 <=? c) && (c <=? 254) && negb (c =? 247) then c - 32
  else c.

(** [s.startsWith(p)], and a literal pattern anchored at the start under
    the [i] flag. *)
Fixpoint startsWith (s p : jsstring) : bool :=
  match p, s with
  | [], _ => true
  | c :: p', d :: s' => (c =? d) && startsWith s' p'
  | _ :: _, [] => false
  end.

Fixpoint startsWithIgnoreCase (s p : jsstring) : bool :=
  match p, s with
  | [], _ => true
  | c :: p', d :: s' =>
      (canonicalize c =? canonicalize d) && startsWithIgnoreCase s' p'
  | _ :: _, [] => false
  end.

(** [s.includes(sub)] *)
Fixpoint includes (s sub : jsstring) : bool :=
  startsWith s sub ||
  match s with
  | [] => false
  | _ :: s' => includes s' sub
  end.

(** [s.split(/\s+/)]: the pieces between maximal runs of white space; a
    leading or trailing run leaves an empty piece, and the empty string
    splits into one empty piece.  [cur] is the piece being read, reversed;
    [inRun] tells that the previous code unit was white space. *)
Fixpoint splitGo (s cur : jsstring) (inRun : bool) : list jsstring :=
  match s with
  | [] => [rev cur]
  | c :: s' =>
      if isWhiteSpace c then
        if inRun then splitGo s' [] true else rev cur :: splitGo s' [] true
      else splitGo s' (c :: cur) false
  end.

Definition splitWhiteSpace (s : jsstring) : list jsstring := splitGo s [] false.

(** [parts.join(sep)] *)
Fixpoint join (sep : jsstring) (parts : list jsstring) : jsstring :=
  match parts with
  | [] => []
  | [p] => p
  | p :: rest => p ++ sep ++ join sep rest
  end.

(** [a || b] on strings: [undefined] and the empty string are falsy. *)
Definition orElse (a : option jsstring) (b : jsstring) : jsstring :=
  match a with
  | Some (c :: s) => c :: s
  | _ => b
  end.

(** [array.sort(compare)]: the sort of ECMAScript is stable, so for a
    consistent comparator its result is the one of a stable insertion
    sort.  [cmp a b] is the sign of the number the comparator returns. *)
Section Sort.
Variable A : Type.
Variable cmp : A -> A -> comparison.

Fixpoint insert (x : A) (l : list A) : list A :=
  match l with
  | [] => [x]
  | y :: l' =>
      match cmp x y with
      | Gt => y :: insert x l'
      | _ => x :: l
      end
  end.

Fixpoint sort (l : list A) : list A :=
  match l with
  | [] => []
  | x :: l' => insert x (sort l')
  end.

End Sort.

(** [array.slice(from, to)] *)
Definition slice (A : Type) (from to : nat) (l : list A) : list A :=
  firstn (to - from) (skipn from l).

End Js.

Import Js.

(** The result of a call that can throw. *)
Inductive Outcome (A : Type) : Type :=
| Returned (a : A)
| Thrown.
Arguments Thrown {A}.

(** ** types/index.ts *)

Inductive SupportedLanguage : Set := ENGLISH | HINDI | RAJASTHANI.

Definition langEqb (a b : SupportedLanguage) : bool :=
  match a, b with
  | ENGLISH, ENGLISH | HINDI, HINDI | RAJASTHANI, RAJASTHANI => true
  | _, _ => false
  end.

(** The string value of an enumeration member. *)
Definition langCode (l : SupportedLanguage) : jsstring :=
  match l with
  | ENGLISH => js "en"
  | HINDI => js "hi"
  | RAJASTHANI => js "raj"
  end.

Record Metadata := {
  source : jsstring;
  language : SupportedLanguage;
  category : jsstring
}.

Record IDocumentChunk := {
  id : jsstring;
  content : jsstring;
  metadata : Metadata
}.

Record Candidate := {
  candLanguage : SupportedLanguage;
  candConfidence : Q
}.

Record ILanguageDetectionResult := {
  detLanguage : SupportedLanguage;
  detConfidence : Q;
  alternatives : option (list Candidate)
}.

Record IRAGResult := {
  answer : jsstring;
  context : list jsstring;
  confidence : Q;
  sources : list jsstring;
  ragLanguage : SupportedLanguage
}.

Record IChatMessage := {
  userId : jsstring;
  message : jsstring;
  response : jsstring;
  msgLanguage : SupportedLanguage;
  msgConfidence : Q;
  isFromRAG : bool;
  msgContext : list jsstring;
  sessionId : jsstring
}.

(** An object literal keyed by the members of [SupportedLanguage], in the
    order of its keys. *)
Definition Dict (V : Type) := list (SupportedLanguage * V).

Fixpoint get (V : Type) (d : Dict V) (l : SupportedLanguage) : option V :=
  match d with
  | [] => None
  | (k, v) :: d' => if langEqb k l then Some v else get d' l
  end.

Fixpoint update (V : Type) (d : Dict V) (l : SupportedLanguage) (f : V -> V)
  : Dict V :=
  match d with
  | [] => []
  | (k, v) :: d' =>
      if langEqb k l then (k, f v) :: d' else (k, v) :: update d' l f
  end.

(** ** utils/languageUtils.ts *)

(** One entry of [languagePatterns]; [script] is the character class of the
    entry's regular expression. *)
Record Pattern := {
  keywords : list jsstring;
  script : N -> bool
}.

(** [[\u0900-\u097F]] *)
Definition devanagari (c : N) : bool := ((2304 <=? c) && (c <=? 2431))%N.

(** [[a-zA-Z]] *)
Definition latin (c : N) : bool :=
  (((97 <=? c) && (c <=? 122)) || ((65 <=? c) && (c <=? 90)))%N.

Definition hindiKeywords : list jsstring :=
  map js ["मैं"; "आप"; "क्या"; "कैसे"; "कहाँ"; "कब"; "क्यों"; "है";
          "हैं"; "था"; "थे"; "होगा"; "होंगे"; "नमस्ते"; "धन्यवाद";
          "कृपया"; "हाँ"; "नहीं"; "अच्छा"; "बुरा"; "छात्र"; "शिक्षक";
          "कॉलेज"]%string.

Definition rajasthaniKeywords : list jsstring :=
  map js ["हूँ"; "थारो"; "थारी"; "क्यूं"; "कित्ते"; "राम"; "राम";
          "धन्यो"; "म्हारो"; "म्हारी"; "राजस्थान"; "मारवाड़";
          "जैसलमेर"; "जोधपुर"; "उदयपुर"; "भाषा"; "बोली"]%string.

Definition englishKeywords : list jsstring :=
  map js ["hello"; "hi"; "thank"; "please"; "yes"; "no"; "good";
          "bad"; "student"; "teacher"; "college"; "what"; "where";
          "when"; "why"; "how"; "who"; "which"; "can"; "will";
          "would"; "should"]%string.

Definition languagePatterns : Dict Pattern :=
  [ (HINDI, {| keywords := hindiKeywords; script := devanagari |});
    (RAJASTHANI, {| keywords := rajasthaniKeywords; script := devanagari |});
    (ENGLISH, {| keywords := englishKeywords; script := latin |}) ].

Definition ltb (a b : Q) : bool := negb (Qle_bool b a).

(** [(text.match(pattern.script) || []).length] *)
Definition scriptMatches (pattern : Pattern) (text : jsstring) : Z :=
  Z.of_nat (List.length (filter (script pattern) text)).

(** [pattern.keywords.filter(keyword =>
      cleanText.includes(keyword.toLowerCase())).length] *)
Definition keywordMatches (pattern : Pattern) (cleanText : jsstring) : Z :=
  Z.of_nat (List.length (filter (fun keyword => includes cleanText (toLowerCase keyword))
                           (keywords pattern))).

Definition emptyScores : Dict Q :=
  [ (ENGLISH, 0%Q); (HINDI, 0%Q); (RAJASTHANI, 0%Q) ].

(** The [catch] block of [detectLanguage]: script and keyword scores
    only, the best entry taken by [reduce]. *)
Definition detectWithoutHint (text cleanText : jsstring)
  : ILanguageDetectionResult :=
  let scores :=
    fold_left
      (fun (scores : Dict Q) (entry : SupportedLanguage * Pattern) =>
         let (lang, pattern) := entry in
         update scores lang
           (fun v => v + (inject_Z (scriptMatches pattern text) * 0.3
                          + inject_Z (keywordMatches pattern cleanText) * 0.7))%Q)
      languagePatterns emptyScores in
  let bestMatch :=
    fold_left
      (fun (a b : SupportedLanguage * Q) => if ltb (snd b) (snd a) then a else b)
      (tl scores) (hd (ENGLISH, 0%Q) scores) in
  {| detLanguage := fst bestMatch;
     detConfidence := Qmin (snd bestMatch / 10) 1;
     alternatives := None |}.

(** The scores of the [try] block, after the bonus of the hint, the script
    pass and the keyword pass. *)
Definition hintedScores (detectedCode text cleanText : jsstring) : Dict Q :=
  let francBonus : Dict Q :=
    [ (ENGLISH, if eqb detectedCode (js "eng") then 0.4 else 0);
      (HINDI, if eqb detectedCode (js "hin") then 0.4 else 0);
      (RAJASTHANI, 0) ]%Q in
  let bonus l := match get francBonus l with Some v => v | None => 0%Q end in
  let scores : Dict Q :=
    [ (ENGLISH, bonus ENGLISH); (HINDI, bonus HINDI); (RAJASTHANI, 0%Q) ] in
  let scores :=
    fold_left
      (fun (scores : Dict Q) (entry : SupportedLanguage * Pattern) =>
         let (lang, pattern) := entry in
         update scores lang
           (fun v => v + inject_Z (scriptMatches pattern text) * 0.3)%Q)
      languagePatterns scores in
  fold_left
    (fun (scores : Dict Q) (entry : SupportedLanguage * Pattern) =>
       let (lang, pattern) := entry in
       update scores lang
         (fun v => v + inject_Z (keywordMatches pattern cleanText) * 0.7)%Q)
    languagePatterns scores.

(** [Object.entries(scores).sort(([, a], [, b]) => b - a).map(...)] *)
Definition sortedScores (scores : Dict Q) : list Candidate :=
  map (fun entry : SupportedLanguage * Q =>
         {| candLanguage := fst entry;
            candConfidence := Qmin (snd entry / 10) 1 |})
      (sort (fun x y : SupportedLanguage * Q => (snd y - snd x ?= 0)%Q) scores).

(** [sortedScores.slice(1, 3).filter(result => result.confidence > 0.1)] *)
Definition runnersUp (sorted : list Candidate) : list Candidate :=
  filter (fun result => ltb 0.1 (candConfidence result)) (slice 1 3 sorted).

(** [alternatives.length > 0 ? alternatives : undefined] *)
Definition orUndefined (alts : list Candidate) : option (list Candidate) :=
  match alts with
  | [] => None
  | _ :: _ => Some alts
  end.

(** [detectLanguage]; [franc] is the external detector.  An empty
    [sortedScores] would make the [try] block throw on [primaryResult] and so
    run the [catch] block. *)
Definition detectLanguage (franc : jsstring -> Outcome jsstring)
  (text : jsstring) : ILanguageDetectionResult :=
  if (List.length (trim text) =? 0)%nat then
    {| detLanguage := ENGLISH; detConfidence := 0.5; alternatives := None |}
  else
    let cleanText := trim (toLowerCase text) in
    match franc text with
    | Returned detectedCode =>
        let sorted := sortedScores (hintedScores detectedCode text cleanText) in
        match sorted with
        | primaryResult :: _ =>
            let alts := runnersUp sorted in
            if ltb (candConfidence primaryResult) 0.2 then
              {| detLanguage := ENGLISH;
                 detConfidence := 0.5;
                 alternatives := orUndefined alts |}
            else
              {| detLanguage := candLanguage primaryResult;
                 detConfidence := candConfidence primaryResult;
                 alternatives := orUndefined alts |}
        | [] => detectWithoutHint text cleanText
        end
    | Thrown => detectWithoutHint text cleanText
    end.

Definition greetings : Dict jsstring :=
  [ (ENGLISH, js "Hello! I'm your college assistant. How can I help you today?");
    (HINDI, js "नमस्ते! मैं आपका कॉलेज सहायक हूँ। आज मैं आपकी कैसे सहायता कर सकता हूँ?");
    (RAJASTHANI, js "राम राम! हूँ थारो कॉलेज सहायक। आज म्हे थारी कैसी मदद करणी है?") ].

Definition getGreeting (language : SupportedLanguage) : jsstring :=
  orElse (get greetings language)
         (orElse (get greetings ENGLISH) []).

(** The keys of one entry of [errorMessages]. *)
Inductive ErrorType : Set := general | noContext | technical.

Definition ErrorEntry := ErrorType -> jsstring.

Definition errorMessages : Dict ErrorEntry :=
  [ (ENGLISH, fun errorType =>
       match errorType with
       | general => js "I'm sorry, I couldn't understand your question. Could you please rephrase it?"
       | noContext => js "I don't have enough information to answer that question."
       | technical => js "I'm experiencing some technical difficulties. Please try again later."
       end);
    (HINDI, fun errorType =>
       match errorType with
       | general => js "मुझे खुशी है कि आपने पूछा, लेकिन मैं आपका प्रश्न समझ नहीं सका। कृपया इसे दोबारा पूछें।"
       | noContext => js "मेरे पास इस प्रश्न का उत्तर देने के लिए पर्याप्त जानकारी नहीं है।"
       | technical => js "मुझे कुछ तकनीकी समस्याएं आ रही हैं। कृपया बाद में फिर कोशिश करें।"
       end);
    (RAJASTHANI, fun errorType =>
       match errorType with
       | general => js "म्हे खुशी है कि थमने पूछ्यो, पण म्हे थारो सवाल समझ कोनी आयो। कृपया दोबारा पूछो।"
       | noContext => js "म्हारे कैं इस सवाल को जवाब देवण खातर काफी जाणकारी कोनी है।"
       | technical => js "म्हे कुछ तकनीकी दिक्कत आवै रही है। कृपया बाद में फिर कोशिश करो।"
       end) ].

(** [errorMessages[language]?.[errorType] ||
     errorMessages[ENGLISH]?.general || "..."] *)
Definition getErrorMessage (language : SupportedLanguage) (errorType : ErrorType)
  : jsstring :=
  orElse (option_map (fun entry : ErrorEntry => entry errorType)
                     (get errorMessages language))
    (orElse (option_map (fun entry : ErrorEntry => entry general)
                        (get errorMessages ENGLISH))
            (js "I'm sorry, something went wrong.")).

(** ** utils/ragUtils.ts *)

(** The initial content of the [collegeDocuments] array; [addDocument]
    appends to it, so the functions below take the array as an argument. *)
Definition collegeDocuments : list IDocumentChunk :=
[
  {| id := js "admission-en";
     content := js "College admission process requires completion of application form, submission of academic transcripts, and entrance exam scores. The admission committee reviews applications based on merit and availability of seats.";
     metadata := {| source := js "admission-guidelines";
                    language := ENGLISH;
                    category := js "admission" |} |};
  {| id := js "fees-en";
     content := js "Annual tuition fees are $5000 for undergraduate programs and $7000 for graduate programs. Payment can be made in installments. Scholarships are available for meritorious students.";
     metadata := {| source := js "fee-structure";
                    language := ENGLISH;
                    category := js "fees" |} |};
  {| id := js "library-en";
     content := js "The college library is open from 8 AM to 10 PM on weekdays and 9 AM to 6 PM on weekends. Students can borrow up to 5 books at a time. Digital resources are available 24/7.";
     metadata := {| source := js "library-rules";
                    language := ENGLISH;
                    category := js "facilities" |} |};
  {| id := js "admission-hi";
     content := js "कॉलेज में प्रवेश के लिए आवेदन पत्र भरना, शैक्षणिक प्रमाण पत्र जमा करना और प्रवेश परीक्षा के अंक आवश्यक हैं। प्रवेश समिति योग्यता और सीटों की उपलब्धता के आधार पर आवेदनों की समीक्षा करती है।";
     metadata := {| source := js "admission-guidelines-hindi";
                    language := HINDI;
                    category := js "admission" |} |};
  {| id := js "fees-hi";
     content := js "स्नातक कार्यक्रमों के लिए वार्षिक शिक्षा शुल्क ₹50,000 और स्नातकोत्तर कार्यक्रमों के लिए ₹70,000 है। भुगतान किश्तों में किया जा सकता है। मेधावी छात्रों के लिए छात्रवृत्ति उपलब्ध है।";
     metadata := {| source := js "fee-structure-hindi";
                    language := HINDI;
                    category := js "fees" |} |};
  {| id := js "library-raj";
     content := js "कॉलेज री लाइब्रेरी सोमवार सूं शुक्रवार सवेरे 8 बजे सूं रात 10 बजे तक अर शनिवार-रविवार सवेरे 9 बजे सूं शाम 6 बजे तक खुली रैवै है। छात्र एक बारी मैं 5 किताबां ले सकै हैं।";
     metadata := {| source := js "library-rules-rajasthani";
                    language := RAJASTHANI;
                    category := js "facilities" |} |}
].

Definition docLanguage (doc : IDocumentChunk) : SupportedLanguage :=
  language (metadata doc).

(** The [reduce] over [queryWords] of [searchDocuments]: one point for each
    word that the lower-cased content includes. *)
Definition wordScore (queryWords : list jsstring) (doc : IDocumentChunk) : Z :=
  let contentWords := toLowerCase (content doc) in
  fold_left (fun (acc : Z) (word : jsstring) =>
               (acc + (if includes contentWords word then 1 else 0))%Z)
            queryWords 0%Z.

Record Scored := {
  doc : IDocumentChunk;
  score : Z
}.

(** [searchDocuments]; nothing in its [try] block throws, so its [catch]
    block is not part of the model. *)
Definition searchDocuments (documents : list IDocumentChunk)
  (query : jsstring) (language : SupportedLanguage) : list IDocumentChunk :=
  let languageSpecificDocs :=
    filter (fun doc => langEqb (docLanguage doc) language) documents in
  let searchDocs :=
    if (0 <? List.length languageSpecificDocs)%nat
    then languageSpecificDocs
    else filter (fun doc => langEqb (docLanguage doc) ENGLISH) documents in
  let queryWords := splitWhiteSpace (toLowerCase query) in
  let scoredDocs :=
    map (fun doc => {| doc := doc; score := wordScore queryWords doc |})
        searchDocs in
  map doc
    (slice 0 3
       (sort (fun a b => (score b - score a ?= 0)%Z)
             (filter (fun item => (0 <? score item)%Z) scoredDocs))).

(** An absent key reads as [undefined]; as the last operand of [||] the
    model renders it as the empty string. *)
Definition valueOf (v : option jsstring) : jsstring :=
  match v with
  | Some s => s
  | None => []
  end.

Definition generateFallbackResponse (query : jsstring) (context : list jsstring)
  (language : SupportedLanguage) : jsstring :=
  match context with
  | [] => getErrorMessage language noContext
  | contextSummary :: _ =>
      let responses : Dict jsstring :=
        [ (ENGLISH, js "Based on the information I have: " ++ contextSummary);
          (HINDI, js "उपलब्ध जानकारी के आधार पर: " ++ contextSummary);
          (RAJASTHANI, js "उपलब्ध जाणकारी के आधार पर: " ++ contextSummary) ] in
      orElse (get responses language) (valueOf (get responses ENGLISH))
  end.

(** [generateContextualResponse]; [textGeneration] is the call of the
    Hugging Face client on the prompt, giving [generated_text] or
    throwing.  Outside that call nothing in the outer [try] block throws, so
    the outer [catch] block is not part of the model. *)
Definition generateContextualResponse
  (textGeneration : jsstring -> Outcome (option jsstring))
  (query : jsstring) (context : list jsstring) (language : SupportedLanguage)
  : jsstring :=
  let contextText := join [10; 10]%N context in
  let prompt :=
    js "Context: " ++ contextText ++ [10; 10]%N ++ js "Question: " ++ query
    ++ [10; 10]%N ++ js "Answer:" in
  match textGeneration prompt with
  | Returned generated_text =>
      orElse generated_text (generateFallbackResponse query context language)
  | Thrown => generateFallbackResponse query context language
  end.

(** The external collaborators of one request. *)
Record Env := {
  franc : jsstring -> Outcome jsstring;
  textGeneration : jsstring -> Outcome (option jsstring);
  (** whether [chatMessage.save()] resolves (the schema of the model and the
      state of the connection decide) *)
  saveResolves : IChatMessage -> bool;
  (** whether [ChatMessage.deleteMany] resolves *)
  deleteManyResolves : bool;
  (** the decimal digits of [Date.now()] *)
  dateNow : jsstring;
  (** [Math.random().toString(36).substr(2, 9)] *)
  randomSuffix : jsstring
}.

Definition bindOutcome (A B : Type) (c : Outcome A) (k : A -> Outcome B)
  : Outcome B :=
  match c with
  | Returned a => k a
  | Thrown => Thrown
  end.

Notation "x <- c ;; k" := (bindOutcome c (fun x => k))
  (at level 61, c at next level, right associativity).

(** ** routes/chatRoutes.ts and controllers/chatController.ts: the types *)

(** [req.body] and [req.user?._id?.toString()] of [POST /api/chat/message].
    The validator of [language] ([isIn(Object.values(SupportedLanguage))])
    is carried by the type of [bodyLanguage]. *)
Record ChatRequest := {
  bodyMessage : jsstring;
  bodyLanguage : option SupportedLanguage;
  bodySessionId : option jsstring;
  reqUser : option jsstring
}.

(** [isLength({ min, max })], counted in code units. *)
Definition isLength (min max : nat) (s : jsstring) : bool :=
  ((min <=? List.length s) && (List.length s <=? max))%nat.

(** [validateChatMessage]: whether [validationResult(req)] is empty. *)
Definition validateChatMessage (req : ChatRequest) : bool :=
  isLength 1 1000 (trim (bodyMessage req))
  && match bodySessionId req with
     | Some s => isLength 10 50 s
     | None => true
     end.

Record AppError := {
  errMessage : jsstring;
  statusCode : Z
}.

(** What a handler does with the request: [res.status(s).json(body)] or
    [next(error)]. *)
Inductive Reply (B : Type) : Type :=
| Json (status : Z) (body : B)
| Next (error : AppError).
Arguments Next {B}.

Record ChatResponse := {
  success : bool;
  resResponse : jsstring;
  resLanguage : SupportedLanguage;
  resConfidence : Q;
  resSessionId : jsstring;
  resSources : option (list jsstring)
}.

(** [processRAGQuery] over its two awaited calls.  The concrete callees
    swallow their own exceptions and always return; taking them as
    parameters lets the [catch] block of [processRAGQuery] be exercised. *)
Section Pipeline.

Variable env : Env.
Variable searchStep :
  jsstring -> SupportedLanguage -> Outcome (list IDocumentChunk).
Variable generateStep :
  jsstring -> list jsstring -> SupportedLanguage -> Outcome jsstring.

(** The [try] block of [processRAGQuery]. *)
Definition ragAttempt (query : jsstring) (userLanguage : option SupportedLanguage)
  : Outcome IRAGResult :=
  let detectedLanguage :=
    match userLanguage with
    | Some l => l
    | None => detLanguage (detectLanguage (franc env) query)
    end in
  relevantDocs <- searchStep query detectedLanguage ;;
  if (List.length relevantDocs =? 0)%nat then
    Returned {| answer := getErrorMessage detectedLanguage noContext;
                context := [];
                confidence := 0.1;
                sources := [];
                ragLanguage := detectedLanguage |}
  else
    let context := map content relevantDocs in
    let sources := map (fun doc => source (metadata doc)) relevantDocs in
    answer <- generateStep query context detectedLanguage ;;
    let confidence :=
      Qmin (0.3 + inject_Z (Z.of_nat (List.length relevantDocs)) * 0.2) 0.9 in
    Returned {| answer := answer;
                context := context;
                confidence := confidence;
                sources := sources;
                ragLanguage := detectedLanguage |}.

Definition processRAGQueryWith (query : jsstring)
  (userLanguage : option SupportedLanguage) : IRAGResult :=
  match ragAttempt query userLanguage with
  | Returned result => result
  | Thrown =>
      let fallbackLanguage :=
        match userLanguage with
        | Some l => l
        | None => ENGLISH
        end in
      {| answer := getErrorMessage fallbackLanguage technical;
         context := [];
         confidence := 0.1;
         sources := [];
         ragLanguage := fallbackLanguage |}
  end.

(** *** controllers/chatController.ts *)

Definition generateSessionId : jsstring :=
  js "session_" ++ dateNow env ++ js "_" ++ randomSuffix env.

(** The alternatives of the pattern of [isGreeting], as the source file
    holds them. *)
Definition greetingTokens : list jsstring :=
  map js ["hi"; "hello"; "hey"; "namaste"; "‡§∞‡§æ‡§Æ ‡§∞‡§æ‡§Æ"; "‡§®‡§Æ‡§∏‡•ç‡§§‡•á"]%string.

(** [/^(...)/i.test(s)] *)
Definition isGreeting (s : jsstring) : bool :=
  existsb (startsWithIgnoreCase s) greetingTokens.

(** [processChatMessage]; [db] is the collection of the [ChatMessage] model,
    and the message is the one the [trim] sanitizer of the route left in
    [req.body]. *)
Definition processChatMessageWith (db : list IChatMessage) (req : ChatRequest)
  : list IChatMessage * Reply ChatResponse :=
  if negb (validateChatMessage req) then
    (db, Next {| errMessage := js "Validation failed"; statusCode := 400 |})
  else
    let message := trim (bodyMessage req) in
    let language := bodyLanguage req in
    let userId := orElse (reqUser req) (js "anonymous") in
    let detectedLanguage :=
      match language with
      | Some l => l
      | None => detLanguage (detectLanguage (franc env) message)
      end in
    if isGreeting (trim message) then
      let greeting := getGreeting detectedLanguage in
      let chatMessage :=
        {| userId := userId;
           message := trim message;
           response := greeting;
           msgLanguage := detectedLanguage;
           msgConfidence := 0.9;
           isFromRAG := false;
           msgContext := [];
           sessionId := orElse (bodySessionId req) generateSessionId |} in
      if saveResolves env chatMessage then
        (db ++ [chatMessage],
         Json 200 {| success := true;
                     resResponse := greeting;
                     resLanguage := detectedLanguage;
                     resConfidence := 0.9;
                     resSessionId := sessionId chatMessage;
                     resSources := None |})
      else
        (db, Next {| errMessage := js "Failed to process chat message";
                     statusCode := 500 |})
    else
      let ragResult := processRAGQueryWith message (Some detectedLanguage) in
      let chatMessage :=
        {| userId := userId;
           message := trim message;
           response := answer ragResult;
           msgLanguage := ragLanguage ragResult;
           msgConfidence := confidence ragResult;
           isFromRAG := true;
           msgContext := context ragResult;
           sessionId := orElse (bodySessionId req) generateSessionId |} in
      if saveResolves env chatMessage then
        (db ++ [chatMessage],
         Json 200 {| success := true;
                     resResponse := answer ragResult;
                     resLanguage := ragLanguage ragResult;
                     resConfidence := confidence ragResult;
                     resSessionId := sessionId chatMessage;
                     resSources := Some (sources ragResult) |})
      else
        (db, Next {| errMessage := js "Failed to process chat message";
                     statusCode := 500 |}).

End Pipeline.

(** [processRAGQuery] and [processChatMessage] with the callees of the
    source; [documents] is the [collegeDocuments] array at the time of the
    request. *)
Definition processRAGQuery (env : Env) (documents : list IDocumentChunk)
  : jsstring -> option SupportedLanguage -> IRAGResult :=
  processRAGQueryWith env
    (fun query language => Returned (searchDocuments documents query language))
    (fun query context language =>
       Returned (generateContextualResponse (textGeneration env)
                   query context language)).

Definition processChatMessage (env : Env) (documents : list IDocumentChunk)
  : list IChatMessage -> ChatRequest -> list IChatMessage * Reply ChatResponse :=
  processChatMessageWith env
    (fun query language => Returned (searchDocuments documents query language))
    (fun query context language =>
       Returned (generateContextualResponse (textGeneration env)
                   query context language)).

Record ClearResponse := {
  clrSuccess : bool;
  clrMessage : jsstring;
  deletedCount : nat
}.

(** The filter object of [deleteMany]: [{ userId }], with [sessionId] when
    it was added. *)
Record DeleteQuery := {
  qUserId : jsstring;
  qSessionId : option jsstring
}.

Definition matchesQuery (q : DeleteQuery) (m : IChatMessage) : bool :=
  eqb (userId m) (qUserId q)
  && match qSessionId q with
     | Some s => eqb (sessionId m) s
     | None => true
     end.

(** [ChatMessage.deleteMany(query)]: the collection without the documents
    that match, and their number. *)
Definition deleteMany (q : DeleteQuery) (db : list IChatMessage)
  : list IChatMessage * nat :=
  (filter (fun m => negb (matchesQuery q m)) db,
   List.length (filter (matchesQuery q) db)).

(** [if (sessionId)]: [undefined] and the empty string are falsy. *)
Definition truthy (v : option jsstring) : bool :=
  match v with
  | Some (_ :: _) => true
  | _ => false
  end.

(** [clearChatHistory]; [userId] is [req.user._id.toString()] and
    [sessionId] the field of [req.body]. *)
Definition clearChatHistory (env : Env) (db : list IChatMessage)
  (userId : jsstring) (sessionId : option jsstring)
  : list IChatMessage * Reply ClearResponse :=
  let deleteQuery :=
    if truthy sessionId
    then {| qUserId := userId; qSessionId := sessionId |}
    else {| qUserId := userId; qSessionId := None |} in
  if deleteManyResolves env then
    let (db', count) := deleteMany deleteQuery db in
    (db',
     Json 200 {| clrSuccess := true;
                 clrMessage :=
                   if truthy sessionId
                   then js "Session history cleared successfully"
                   else js "Chat history cleared successfully";
                 deletedCount := count |})
  else
    (db, Next {| errMessage := js "Failed to clear chat history";
                 statusCode := 500 |}).

(** ** Definitions of the statements *)

Unset Implicit Arguments.

(** The token-overlap score in the words of the specification: the number
    of lower-case white-space-delimited tokens of the query that occur as
    substrings of the lower-cased content of the chunk. *)
Definition tokenOverlap (query : jsstring) (chunk : IDocumentChunk) : nat :=
  List.length
    (filter (fun token => includes (toLowerCase (content chunk)) token)
            (splitWhiteSpace (toLowerCase query))).

(** Whether the store holds a chunk of the language. *)
Definition hasLanguage (documents : list IDocumentChunk)
  (language : SupportedLanguage) : bool :=
  existsb (fun doc => langEqb (docLanguage doc) language) documents.

(** The prefix of the template answer, by language. *)
Definition templatePrefix (language : SupportedLanguage) : jsstring :=
  match language with
  | ENGLISH => js "Based on the information I have: "
  | HINDI => js "उपलब्ध जानकारी के आधार पर: "
  | RAJASTHANI => js "उपलब्ध जाणकारी के आधार पर: "
  end.

(** The canned [insufficient information] answer, by language. *)
Definition insufficientInformation (language : SupportedLanguage) : jsstring :=
  match language with
  | ENGLISH => js "I don't have enough information to answer that question."
  | HINDI => js "मेरे पास इस प्रश्न का उत्तर देने के लिए पर्याप्त जानकारी नहीं है।"
  | RAJASTHANI => js "म्हारे कैं इस सवाल को जवाब देवण खातर काफी जाणकारी कोनी है।"
  end.

(** The canned [technical difficulties] answer, by language. *)
Definition technicalDifficulty (language : SupportedLanguage) : jsstring :=
  match language with
  | ENGLISH => js "I'm experiencing some technical difficulties. Please try again later."
  | HINDI => js "मुझे कुछ तकनीकी समस्याएं आ रही हैं। कृपया बाद में फिर कोशिश करें।"
  | RAJASTHANI => js "म्हे कुछ तकनीकी दिक्कत आवै रही है। कृपया बाद में फिर कोशिश करो।"
  end.

(** The canned greeting, by language. *)
Definition cannedGreeting (language : SupportedLanguage) : jsstring :=
  match language with
  | ENGLISH => js "Hello! I'm your college assistant. How can I help you today?"
  | HINDI => js "नमस्ते! मैं आपका कॉलेज सहायक हूँ। आज मैं आपकी कैसे सहायता कर सकता हूँ?"
  | RAJASTHANI => js "राम राम! हूँ थारो कॉलेज सहायक। आज म्हे थारी कैसी मदद करणी है?"
  end.

(** A sample environment: the detector answers [code], the generative call
    fails, the persistence engine accepts every operation. *)
Definition sampleEnv (code : Outcome jsstring) : Env :=
  {| franc := fun _ => code;
     textGeneration := fun _ => Thrown;
     saveResolves := fun _ => true;
     deleteManyResolves := true;
     dateNow := js "1700000000000";
     randomSuffix := js "k3j9x0q1z" |}.

(** The same with a persistence engine that rejects every operation. *)
Definition offlineEnv : Env :=
  {| franc := fun _ => Thrown;
     textGeneration := fun _ => Thrown;
     saveResolves := fun _ => false;
     deleteManyResolves := false;
     dateNow := js "1700000000000";
     randomSuffix := js "k3j9x0q1z" |}.

Definition sampleRequest (text : string) (language : option SupportedLanguage)
  : ChatRequest :=
  {| bodyMessage := js text;
     bodyLanguage := language;
     bodySessionId := None;
     reqUser := None |}.

(** The language a request is answered in: the one it names, else the
    detected one. *)
Definition resolvedLanguage (env : Env) (req : ChatRequest) : SupportedLanguage :=
  match bodyLanguage req with
  | Some l => l
  | None => detLanguage (detectLanguage (franc env) (trim (bodyMessage req)))
  end.

(** The exchange that a turn persists and the body it answers with, given the
    fields that differ between the paths of the pipeline. *)
Definition exchangeOf (env : Env) (req : ChatRequest) (text : jsstring)
  (language : SupportedLanguage) (conf : Q) (fromRAG : bool)
  (snippets : list jsstring) : IChatMessage :=
  {| userId := orElse (reqUser req) (js "anonymous");
     message := trim (bodyMessage req);
     response := text;
     msgLanguage := language;
     msgConfidence := conf;
     isFromRAG := fromRAG;
     msgContext := snippets;
     sessionId := orElse (bodySessionId req) (generateSessionId env) |}.

Definition replyOf (env : Env) (req : ChatRequest) (text : jsstring)
  (language : SupportedLanguage) (conf : Q) (labels : option (list jsstring))
  : Reply ChatResponse :=
  Json 200 {| success := true;
              resResponse := text;
              resLanguage := language;
              resConfidence := conf;
              resSessionId := orElse (bodySessionId req) (generateSessionId env);
              resSources := labels |}.

Definition processingFailed : Reply ChatResponse :=
  Next {| errMessage := js "Failed to process chat message"; statusCode := 500 |}.


(** A retrieval step that throws, and a composition step that throws. *)
Definition failingSearch (query : jsstring) (language : SupportedLanguage)
  : Outcome (list IDocumentChunk) := Thrown.

Definition failingGenerate (query : jsstring) (snippets : list jsstring)
  (language : SupportedLanguage) : Outcome jsstring := Thrown.



(** An exchange is in the scope of a clearing when it belongs to the user
    and, if a session is named, to that session. *)
Definition inScope (user : jsstring) (session : option jsstring)
  (m : IChatMessage) : Prop :=
  userId m = user
  /\ match session with
     | Some s => sessionId m = s
     | None => True
     end.

Definition inScopeb (user : jsstring) (session : option jsstring)
  (m : IChatMessage) : bool :=
  eqb (userId m) user
  && match session with
     | Some s => eqb (sessionId m) s
     | None => true
     end.

(** The exchanges in the scope, and the collection without them. *)
Definition exchangesOf (user : jsstring) (session : option jsstring)
  (db : list IChatMessage) : list IChatMessage :=
  filter (inScopeb user session) db.

Definition exchangesOutside (user : jsstring) (session : option jsstring)
  (db : list IChatMessage) : list IChatMessage :=
  filter (fun m => negb (inScopeb user session m)) db.

Definition sampleExchange (user session : string) : IChatMessage :=
  {| userId := js user;
     message := js "library hours";
     response := js "ok";
     msgLanguage := ENGLISH;
     msgConfidence := 0.5;
     isFromRAG := true;
     msgContext := [];
     sessionId := js session |}.

(** The entry of [languagePatterns] of a language, and its keywords. *)
Definition patternOf (language : SupportedLanguage) : Pattern :=
  match language with
  | HINDI => {| keywords := hindiKeywords; script := devanagari |}
  | RAJASTHANI => {| keywords := rajasthaniKeywords; script := devanagari |}
  | ENGLISH => {| keywords := englishKeywords; script := latin |}
  end.

Definition keywordsOf (language : SupportedLanguage) : list jsstring :=
  keywords (patternOf language).

(** A message made of words only: the words with one space between them. *)
Definition messageOf (words : list jsstring) : jsstring := join [32%N] words.

(** The candidates of the [try] block of [detectLanguage], best first. *)
Definition candidates (code text : jsstring) : list Candidate :=
  sortedScores (hintedScores code text (trim (toLowerCase text))).

(** The value of a score entry, and the comparator of [sortedScores]. *)
Definition byScore (x y : SupportedLanguage * Q) : comparison :=
  (snd y - snd x ?= 0)%Q.

(** What the finite checks on the keyword tables compute. *)
Definition plainUnit (language : SupportedLanguage) (c : N) : bool :=
  script (patternOf language) c && (lowerUnit c =? c)%N && negb (isWhiteSpace c)
  && negb (c =? 32)%N.

Definition plainKeywords (language : SupportedLanguage) : bool :=
  forallb (fun k => forallb (plainUnit language) k && (2 <=? List.length k)%nat)
          (keywordsOf language).

Definition foreignKeywords (language other : SupportedLanguage) : list jsstring :=
  filter (fun k => existsb (fun w => includes w (toLowerCase k))
                           (keywordsOf language))
         (keywordsOf other).

Definition singleWordCheck (language : SupportedLanguage) : bool :=
  forallb (fun w =>
    forallb (fun k1 =>
      forallb (fun k2 =>
        eqb k1 k2 || negb (includes w k1) || negb (includes w k2)
        || (3 <=? List.length w)%nat)
        (keywordsOf language))
      (keywordsOf language))
    (keywordsOf language).

(** The score of a language: the bonus, 0.3 for each code unit of its
    script in the text, 0.7 for each of its keywords in the cleaned text. *)
Definition scoreOf (bonus : Q) (language : SupportedLanguage)
  (text cleanText : jsstring) : Q :=
  (bonus + inject_Z (scriptMatches (patternOf language) text) * 0.3
   + inject_Z (keywordMatches (patternOf language) cleanText) * 0.7)%Q.

(** The bonus that the hint gives to a language. *)
Definition bonusOf (code : jsstring) (language : SupportedLanguage) : Q :=
  match language with
  | ENGLISH => if eqb code (js "eng") then 0.4 else 0
  | HINDI => if eqb code (js "hin") then 0.4 else 0
  | RAJASTHANI => 0
  end.

(** The entries of a score object, in the order of its keys. *)
Definition scoresBy (v : SupportedLanguage -> Q) : Dict Q :=
  [ (ENGLISH, v ENGLISH); (HINDI, v HINDI); (RAJASTHANI, v RAJASTHANI) ].

(** The callback of the [reduce] of [detectWithoutHint]. *)
Definition better (a b : SupportedLanguage * Q) : SupportedLanguage * Q :=
  if ltb (snd b) (snd a) then a else b.

(** The score of a language in the [catch] block of [detectLanguage]. *)
Definition plainScore (language : SupportedLanguage) (text cleanText : jsstring)
  : Q :=
  (0 + (inject_Z (scriptMatches (patternOf language) text) * 0.3
        + inject_Z (keywordMatches (patternOf language) cleanText) * 0.7))%Q.

(** An exception escapes the retrieval step, or the retrieval finds some
    chunks and an exception escapes the composition step. *)
Definition escapes
  (searchStep : jsstring -> SupportedLanguage -> Outcome (list IDocumentChunk))
  (generateStep : jsstring -> list jsstring -> SupportedLanguage -> Outcome jsstring)
  (query : jsstring) (language : SupportedLanguage) : Prop :=
  searchStep query language = Thrown
  \/ exists docs,
       searchStep query language = Returned docs
       /\ docs <> []
       /\ generateStep query (map content docs) language = Thrown.


Definition libraryHours : ChatRequest :=
  sampleRequest "library hours" (Some ENGLISH).

Definition namaste : ChatRequest := sampleRequest "नमस्ते" None.


Definition hello : ChatRequest := sampleRequest "hello" None.

(** A detector that answers the same code for every text. *)
Definition answering (code : string) (text : jsstring) : Outcome jsstring :=
  Returned (js code).

(** ** The rest of the chat backend *)

(** *** utils/ragUtils.ts: the store *)

(** The argument of [addDocument]: a chunk without its [id]. *)
Record NewDocument := {
  newContent : jsstring;
  newMetadata : Metadata
}.

(** [addDocument]: the array with the new chunk pushed, and the id. *)
Definition addDocument (env : Env) (documents : list IDocumentChunk)
  (document : NewDocument) : list IDocumentChunk * jsstring :=
  let id := js "doc-" ++ dateNow env ++ js "-" ++ randomSuffix env in
  let newDoc :=
    {| id := id;
       content := newContent document;
       metadata := newMetadata document |} in
  (documents ++ [newDoc], id).

(** The property names that every object inherits from
    [Object.prototype]: reading one of them on a fresh object does not
    give [undefined]. *)
Definition inheritedNames : list jsstring :=
  map js ["constructor"; "__defineGetter__"; "__defineSetter__";
          "hasOwnProperty"; "__lookupGetter__"; "__lookupSetter__";
          "isPrototypeOf"; "propertyIsEnumerable"; "toString"; "valueOf";
          "__proto__"; "toLocaleString"]%string.

Definition isInherited (key : jsstring) : bool :=
  existsb (eqb key) inheritedNames.

(** An object used as a table of counters, as the list of its own
    properties in the order of their creation (the enumeration puts the
    keys that are array indices first; the model is read by key). *)
Definition Counters := list (jsstring * nat).

Fixpoint counterOf (acc : Counters) (key : jsstring) : option nat :=
  match acc with
  | [] => None
  | (k, n) :: acc' => if eqb k key then Some n else counterOf acc' key
  end.

(** [acc[key] = (acc[key] || 0) + 1] for a key that is not inherited. *)
Fixpoint increment (acc : Counters) (key : jsstring) : Counters :=
  match acc with
  | [] => [(key, 1%nat)]
  | (k, n) :: acc' =>
      if eqb k key then (k, S n) :: acc' else (k, n) :: increment acc' key
  end.

(** The [reduce] of [byCategory].  With a category that is an inherited
    name the counter read is not [undefined] and what is stored is not a
    number: the model gives [None] for that table. *)
Definition countCategories (documents : list IDocumentChunk) : option Counters :=
  fold_left
    (fun (acc : option Counters) (doc : IDocumentChunk) =>
       match acc with
       | Some table =>
           if isInherited (category (metadata doc)) then None
           else Some (increment table (category (metadata doc)))
       | None => None
       end)
    documents (Some []).

Record DocumentStats := {
  totalDocuments : nat;
  byLanguage : Dict nat;
  byCategory : option Counters
}.

Definition getDocumentStats (documents : list IDocumentChunk) : DocumentStats :=
  {| totalDocuments := List.length documents;
     byLanguage :=
       [ (ENGLISH,
          List.length (filter (fun doc => langEqb (docLanguage doc) ENGLISH)
                              documents));
         (HINDI,
          List.length (filter (fun doc => langEqb (docLanguage doc) HINDI)
                              documents));
         (RAJASTHANI,
          List.length (filter (fun doc => langEqb (docLanguage doc) RAJASTHANI)
                              documents)) ];
     byCategory := countCategories documents |}.

(** *** utils/languageUtils.ts: the success messages *)

(** One entry of [successMessages], by its keys. *)
Definition SuccessEntry := list (jsstring * jsstring).

Fixpoint ownProperty (entry : SuccessEntry) (key : jsstring) : option jsstring :=
  match entry with
  | [] => None
  | (k, v) :: entry' => if eqb k key then Some v else ownProperty entry' key
  end.

Definition successMessages : Dict SuccessEntry :=
  [ (ENGLISH,
     [ (js "helpful", js "I'm glad I could help! Is there anything else you'd like to know?");
       (js "complete", js "Great! I've provided the information you requested.");
       (js "more", js "Would you like more details about this topic?") ]);
    (HINDI,
     [ (js "helpful", js "मुझे खुशी है कि मैं आपकी सहायता कर सका! क्या आप कुछ और जानना चाहेंगे?");
       (js "complete", js "बहुत बढ़िया! मैंने आपको वह जानकारी दी है जिसकी आपने मांग की थी।");
       (js "more", js "क्या आप इस विषय के बारे में और विस्तार से जानना चाहेंगे?") ]);
    (RAJASTHANI,
     [ (js "helpful", js "म्हे खुशी है कि म्हे थारी मदद कर सक्यो! के थमे कुछ और जाणणो चावो?");
       (js "complete", js "बहुत बढ़िया! म्हैं थमने वा जाणकारी दी है जिसकी थमने मांग की थी।");
       (js "more", js "के थमे इस विषय के बारे में और जाणणो चावो?") ]) ].

(** [getSuccessMessage].  For a [messageType] that is an inherited name
    the first operand of [||] is a function, which is what is returned:
    the model gives [None] there. *)
Definition getSuccessMessage (language : SupportedLanguage)
  (messageType : jsstring) : option jsstring :=
  if isInherited messageType then None
  else
    Some
      (orElse
         (match get successMessages language with
          | Some entry => ownProperty entry messageType
          | None => None
          end)
         (orElse
            (match get successMessages ENGLISH with
             | Some entry => ownProperty entry (js "helpful")
             | None => None
             end)
            (js "Thank you for using our service!"))).

(** *** middleware/errorMiddleware.ts *)

(** An error as [errorHandler] inspects it: whether it is an instance of
    [AppError] (and then its [statusCode]), its [name], [message], [code]
    and [stack]. *)
Record JsError := {
  appStatusCode : option Z;
  errorName : jsstring;
  errorMessage : jsstring;
  errorCode : option Z;
  errorStack : option jsstring
}.

Record IErrorResponse := {
  resSuccess : bool;
  resMessage : jsstring;
  resStatusCode : Z;
  resError : option jsstring;
  resStack : option jsstring
}.

(** [true || x] on the cases of [errorHandler]. *)
Definition isCode (code : option Z) (n : Z) : bool :=
  match code with
  | Some c => (c =? n)%Z
  | None => false
  end.

(** [errorHandler]: the status it sets and the body it sends;
    [development] is [process.env.NODE_ENV === 'development']. *)
Definition errorHandler (development : bool) (error : JsError)
  : Z * IErrorResponse :=
  let (statusCode, message) :=
    match appStatusCode error with
    | Some status => (status, errorMessage error)
    | None =>
        if eqb (errorName error) (js "ValidationError")
        then (400%Z, js "Validation Error")
        else if eqb (errorName error) (js "CastError")
        then (400%Z, js "Invalid ID format")
        else if eqb (errorName error) (js "MongoServerError")
                && isCode (errorCode error) 11000
        then (400%Z, js "Duplicate field value entered")
        else if eqb (errorName error) (js "JsonWebTokenError")
        then (401%Z, js "Invalid token")
        else if eqb (errorName error) (js "TokenExpiredError")
        then (401%Z, js "Token expired")
        else
          match errorMessage error with
          | _ :: _ => (500%Z, errorMessage error)
          | [] => (500%Z, js "Internal Server Error")
          end
    end in
  (statusCode,
   {| resSuccess := false;
      resMessage := message;
      resStatusCode := statusCode;
      resError := if development then Some (errorMessage error) else None;
      resStack := if development then errorStack error else None |}).

(** An [AppError] made by a handler, as the error that reaches
    [errorHandler]. *)
Definition thrownAppError (e : AppError) (stack : option jsstring) : JsError :=
  {| appStatusCode := Some (statusCode e);
     errorName := js "Error";
     errorMessage := errMessage e;
     errorCode := None;
     errorStack := stack |}.

(** The status of the HTTP response of a handler: the one it sets, or the
    one [errorHandler] sets for the error it forwards. *)
Definition httpStatus (B : Type) (development : bool) (reply : Reply B) : Z :=
  match reply with
  | Json status _ => status
  | Next e => fst (errorHandler development (thrownAppError e None))
  end.
Arguments httpStatus {B}.

(** *** middleware/authMiddleware.ts *)

Inductive UserRole : Set := STUDENT | TEACHER | ADMIN.

Definition roleEqb (a b : UserRole) : bool :=
  match a, b with
  | STUDENT, STUDENT | TEACHER, TEACHER | ADMIN, ADMIN => true
  | _, _ => false
  end.

(** What the middleware reads of a user document. *)
Record User := {
  userKey : jsstring;
  role : UserRole;
  isActive : bool
}.

(** [jwt.verify(token, secret)]: the [id] of the payload, or an error with
    what [instanceof] says of it for the two classes of the library. *)
Inductive VerifyOutcome : Type :=
| Verified (id : jsstring)
| VerifyThrows (isJsonWebTokenError isTokenExpiredError : bool).

Record AuthEnv := {
  (** [process.env.JWT_SECRET] *)
  jwtSecret : option jsstring;
  verify : jsstring -> jsstring -> VerifyOutcome;
  (** [User.findById(id).select('-password')] *)
  findById : jsstring -> Outcome (option User)
}.

(** What a middleware passes to [next]: nothing, an [AppError], or an
    error it caught and passes as it is. *)
Inductive Verdict : Type :=
| Continue (user : option User)
| Refuse (error : AppError)
| Rethrow.

(** [s.split(' ')] and the like: the pieces between the occurrences of one
    code unit. *)
Fixpoint splitOnGo (sep : N) (s cur : jsstring) : list jsstring :=
  match s with
  | [] => [rev cur]
  | c :: s' =>
      if (c =? sep)%N then rev cur :: splitOnGo sep s' []
      else splitOnGo sep s' (c :: cur)
  end.

Definition splitOn (sep : N) (s : jsstring) : list jsstring :=
  splitOnGo sep s [].

(** The token that both middlewares take from the [authorization] header;
    [None] stands for [undefined]. *)
Definition bearerToken (authorization : option jsstring) : option jsstring :=
  match authorization with
  | Some header =>
      if truthy (Some header) && startsWith header (js "Bearer")
      then nth_error (splitOn 32 header) 1
      else None
  | None => None
  end.

Definition authenticate (auth : AuthEnv) (authorization : option jsstring)
  : Verdict :=
  let token := bearerToken authorization in
  match token with
  | Some (t0 :: t) =>
      match jwtSecret auth with
      | Some (s0 :: s) =>
          match verify auth (t0 :: t) (s0 :: s) with
          | Verified id =>
              match findById auth id with
              | Returned (Some user) =>
                  if negb (isActive user)
                  then Refuse {| errMessage := js "Account is deactivated";
                                 statusCode := 401 |}
                  else Continue (Some user)
              | Returned None =>
                  Refuse {| errMessage := js "User not found"; statusCode := 401 |}
              | Thrown => Rethrow
              end
          | VerifyThrows isJsonWebTokenError isTokenExpiredError =>
              if isJsonWebTokenError
              then Refuse {| errMessage := js "Invalid token"; statusCode := 401 |}
              else if isTokenExpiredError
              then Refuse {| errMessage := js "Token expired"; statusCode := 401 |}
              else Rethrow
          end
      | _ =>
          Refuse {| errMessage := js "Server configuration error";
                    statusCode := 500 |}
      end
  | _ =>
      Refuse {| errMessage := js "Access denied. No token provided.";
                statusCode := 401 |}
  end.

(** [authorize(...roles)] on the user that [authenticate] left in the
    request. *)
Definition authorize (roles : list UserRole) (user : option User) : Verdict :=
  match user with
  | None =>
      Refuse {| errMessage := js "Access denied. User not authenticated.";
                statusCode := 401 |}
  | Some u =>
      if negb (existsb (roleEqb (role u)) roles)
      then Refuse {| errMessage := js "Access denied. Insufficient permissions.";
                     statusCode := 403 |}
      else Continue (Some u)
  end.

(** [optionalAuth]; nothing outside its inner [try] block throws. *)
Definition optionalAuth (auth : AuthEnv) (authorization : option jsstring)
  : Verdict :=
  let token := bearerToken authorization in
  match token with
  | Some (t0 :: t) =>
      match jwtSecret auth with
      | Some (s0 :: s) =>
          match verify auth (t0 :: t) (s0 :: s) with
          | Verified id =>
              match findById auth id with
              | Returned (Some user) =>
                  if isActive user then Continue (Some user) else Continue None
              | Returned None => Continue None
              | Thrown => Continue None
              end
          | VerifyThrows _ _ => Continue None
          end
      | _ => Continue None
      end
  | _ => Continue None
  end.

(** *** routes/chatRoutes.ts *)

(** What a route answers: the reply of its handler, or what a middleware
    before the handler passed to [next]. *)
Inductive RouteReply (B : Type) : Type :=
| Handled (reply : Reply B)
| Stopped (verdict : Verdict).
Arguments Handled {B}.
Arguments Stopped {B}.

(** [router.post('/message', optionalAuth, validateChatMessage,
    processChatMessage)]; the body of the request carries the message, the
    language and the session id, and [req.user] comes from the header. *)
Definition postMessage (auth : AuthEnv) (env : Env)
  (documents : list IDocumentChunk) (db : list IChatMessage)
  (authorization : option jsstring) (body : ChatRequest)
  : list IChatMessage * RouteReply ChatResponse :=
  match optionalAuth auth authorization with
  | Continue user =>
      let req :=
        {| bodyMessage := bodyMessage body;
           bodyLanguage := bodyLanguage body;
           bodySessionId := bodySessionId body;
           reqUser := option_map userKey user |} in
      let (db', reply) := processChatMessage env documents db req in
      (db', Handled reply)
  | verdict => (db, Stopped verdict)
  end.

(** [router.delete('/history', authenticate, validateClearHistory,
    clearChatHistory)] *)
Definition deleteHistory (auth : AuthEnv) (env : Env) (db : list IChatMessage)
  (authorization : option jsstring) (sessionId : option jsstring)
  : list IChatMessage * RouteReply ClearResponse :=
  match authenticate auth authorization with
  | Continue (Some user) =>
      let (db', reply) := clearChatHistory env db (userKey user) sessionId in
      (db', Handled reply)
  | verdict => (db, Stopped verdict)
  end.

(** The two middlewares before [getChatAnalytics]:
    [authenticate, authorize(UserRole.ADMIN)]. *)
Definition analyticsGuard (auth : AuthEnv) (authorization : option jsstring)
  : Verdict :=
  match authenticate auth authorization with
  | Continue user => authorize [ADMIN] user
  | verdict => verdict
  end.

(** *** controllers/chatController.ts: the history *)

(** [req.query] of [GET /api/chat/history], for a [page] and a [limit]
    that are absent or integers from 1 on, which is what the validators of
    the route ask for; the handler does not read their verdict, and the
    model does not cover other values. *)
Record HistoryQuery := {
  queryPage : option positive;
  queryLimit : option positive;
  querySessionId : option jsstring
}.

Record Pagination := {
  currentPage : nat;
  totalPages : nat;
  totalItems : nat;
  itemsPerPage : nat;
  hasNext : bool;
  hasPrev : bool
}.

Record HistoryResponse := {
  histSuccess : bool;
  histMessage : jsstring;
  histData : list IChatMessage;
  pagination : Pagination
}.

(** [Math.ceil(a / b)] for a positive [b]. *)
Definition ceilDiv (a b : nat) : nat := ((a + b - 1) / b)%nat.

(** [getChatHistory].  [newestFirst] is the order in which the engine
    returns documents for [sort({ createdAt: -1 })], and [queriesResolve]
    tells whether [find] and [countDocuments] resolve. *)
Definition getChatHistory
  (newestFirst : list IChatMessage -> list IChatMessage)
  (queriesResolve : bool) (db : list IChatMessage) (userId : jsstring)
  (q : HistoryQuery) : Reply HistoryResponse :=
  let page := match queryPage q with Some p => Pos.to_nat p | None => 1%nat end in
  let limit := match queryLimit q with Some l => Pos.to_nat l | None => 50%nat end in
  let query :=
    if truthy (querySessionId q)
    then {| qUserId := userId; qSessionId := querySessionId q |}
    else {| qUserId := userId; qSessionId := None |} in
  if queriesResolve then
    let messages :=
      firstn limit
        (skipn ((page - 1) * limit)
           (newestFirst (filter (matchesQuery query) db))) in
    let totalMessages := List.length (filter (matchesQuery query) db) in
    let totalPages := ceilDiv totalMessages limit in
    Json 200
      {| histSuccess := true;
         histMessage := js "Chat history retrieved successfully";
         histData := rev messages;
         pagination :=
           {| currentPage := page;
              totalPages := totalPages;
              totalItems := totalMessages;
              itemsPerPage := limit;
              hasNext := (page <? totalPages)%nat;
              hasPrev := (1 <? page)%nat |} |}
  else
    Next {| errMessage := js "Failed to fetch chat history"; statusCode := 500 |}.

(** ** Definitions of the further statements *)

(** The language whose chunks a search scores: the requested one, or
    ENGLISH when the store has no chunk of it. *)
Definition searchLanguage (documents : list IDocumentChunk)
  (language : SupportedLanguage) : SupportedLanguage :=
  if hasLanguage documents language then language else ENGLISH.

(** The chunks a search scores, and those among them with a token of the
    query, both in the order of the store. *)
Definition candidateChunks (documents : list IDocumentChunk)
  (language : SupportedLanguage) : list IDocumentChunk :=
  filter (fun d => langEqb (docLanguage d) (searchLanguage documents language))
         documents.

Definition matchingChunks (documents : list IDocumentChunk) (query : jsstring)
  (language : SupportedLanguage) : list IDocumentChunk :=
  filter (fun d => (0 <? tokenOverlap query d)%nat)
         (candidateChunks documents language).

(** The comparator of [searchDocuments]. *)
Definition byItemScore (a b : Scored) : comparison :=
  (score b - score a ?= 0)%Z.

(** The chunk that [addDocument] pushes. *)
Definition addedChunk (env : Env) (document : NewDocument) : IDocumentChunk :=
  {| id := js "doc-" ++ dateNow env ++ js "-" ++ randomSuffix env;
     content := newContent document;
     metadata := newMetadata document |}.

(** The number of chunks of a category, and the sum of a table of
    counters. *)
Definition chunksOfCategory (documents : list IDocumentChunk) (c : jsstring)
  : nat :=
  List.length (filter (fun d => eqb (category (metadata d)) c) documents).

Definition sumOfCounters (table : Counters) : nat :=
  fold_right (fun entry total => (snd entry + total)%nat) 0%nat table.

Definition sampleDocument : NewDocument :=
  {| newContent := js "The hostel has 200 rooms for students.";
     newMetadata := {| source := js "hostel-rules";
                       language := ENGLISH;
                       category := js "facilities" |} |}.

(** The value of a counter that may be absent. *)
Definition countOr0 (n : option nat) : nat :=
  match n with
  | Some k => k
  | None => 0%nat
  end.


(** The language that [processRAGQuery] works in. *)
Definition ragResolved (env : Env) (query : jsstring)
  (userLanguage : option SupportedLanguage) : SupportedLanguage :=
  match userLanguage with
  | Some l => l
  | None => detLanguage (detectLanguage (franc env) query)
  end.

(** The template answer for a context list, empty or not. *)
Definition templateAnswer (snippets : list jsstring) (language : SupportedLanguage)
  : jsstring :=
  match snippets with
  | [] => insufficientInformation language
  | first :: _ => templatePrefix language ++ first
  end.

(** A generative call that gives no text: it throws, or its
    [generated_text] is [undefined] or empty. *)
Definition givesNoText (outcome : Outcome (option jsstring)) : Prop :=
  match outcome with
  | Thrown => True
  | Returned text => truthy text = false
  end.

(** A generative call that always answers the same text. *)
Definition generating (text : string) (prompt : jsstring)
  : Outcome (option jsstring) := Returned (Some (js text)).

Definition generatingEnv (text : string) : Env :=
  {| franc := fun _ => Returned (js "eng");
     textGeneration := generating text;
     saveResolves := fun _ => true;
     deleteManyResolves := true;
     dateNow := js "1700000000000";
     randomSuffix := js "k3j9x0q1z" |}.

Definition validationFailed : Reply ChatResponse :=
  Next {| errMessage := js "Validation failed"; statusCode := 400 |}.

(** A request of a signed-in user in a session. *)
Definition sessionRequest (text user session : string) : ChatRequest :=
  {| bodyMessage := js text;
     bodyLanguage := Some ENGLISH;
     bodySessionId := Some (js session);
     reqUser := Some (js user) |}.

(** The scores of the two paths of [detectLanguage] on a text: with the
    bonus of the hint, and in the [catch] block. *)
Definition hintScore (code text : jsstring) (language : SupportedLanguage) : Q :=
  scoreOf (bonusOf code language) language text (trim (toLowerCase text)).

Definition catchScore (text : jsstring) (language : SupportedLanguage) : Q :=
  plainScore language text (trim (toLowerCase text)).

(** The message types that every entry of [successMessages] has. *)
Definition knownSuccessTypes : list jsstring :=
  map js ["helpful"; "complete"; "more"]%string.

(** No space among the code units of a string. *)
Definition noSpace (s : jsstring) : bool :=
  forallb (fun c => negb (c =? 32)%N) s.

(** The user id under which [POST /api/chat/message] stores an exchange:
    the key of the user that [authenticate] would accept, or else
    [anonymous]. *)
Definition storedUser (auth : AuthEnv) (authorization : option jsstring)
  : jsstring :=
  match authenticate auth authorization with
  | Continue (Some user) => orElse (Some (userKey user)) (js "anonymous")
  | _ => js "anonymous"
  end.

(** The exchanges of other users than one. *)
Definition exchangesOfOthers (user : jsstring) (db : list IChatMessage)
  : list IChatMessage :=
  filter (fun m => negb (eqb (userId m) user)) db.

(** A sample directory of users and tokens. *)
Definition sampleStudent : User :=
  {| userKey := js "u-student"; role := STUDENT; isActive := true |}.

Definition sampleAdmin : User :=
  {| userKey := js "u-admin"; role := ADMIN; isActive := true |}.

Definition sampleAuth : AuthEnv :=
  {| jwtSecret := Some (js "s3cret");
     verify := fun token _ =>
       if eqb token (js "t-student") then Verified (js "u-student")
       else if eqb token (js "t-admin") then Verified (js "u-admin")
       else VerifyThrows true false;
     findById := fun id =>
       Returned (if eqb id (js "u-student") then Some sampleStudent
                 else if eqb id (js "u-admin") then Some sampleAdmin
                 else None) |}.

(** The session that a query of the history or of a clearing selects:
    [undefined] and the empty string select none. *)
Definition selectedSession (session : option jsstring) : option jsstring :=
  if truthy session then session else None.

(** The page of the history that a query with a page, a limit and a
    session shows. *)
Definition historyQuery (page limit : nat) (session : option jsstring)
  : HistoryQuery :=
  {| queryPage := Some (Pos.of_nat page);
     queryLimit := Some (Pos.of_nat limit);
     querySessionId := session |}.

Definition pageOf (newestFirst : list IChatMessage -> list IChatMessage)
  (db : list IChatMessage) (userId : jsstring) (session : option jsstring)
  (limit page : nat) : list IChatMessage :=
  match getChatHistory newestFirst true db userId
          (historyQuery page limit session) with
  | Json _ body => histData body
  | Next _ => []
  end.

(** The page and the limit that a query asks for, with the defaults of
    the handler. *)
Definition pageAsked (q : HistoryQuery) : nat :=
  match queryPage q with Some p => Pos.to_nat p | None => 1%nat end.

Definition limitAsked (q : HistoryQuery) : nat :=
  match queryLimit q with Some l => Pos.to_nat l | None => 50%nat end.

(** ** The stable sort *)

Section SortFacts.
Variable A : Type.
Variable cmp : A -> A -> comparison.

Lemma insert_perm (x : A) (l : list A) : Permutation (x :: l) (insert cmp x l).
Proof.
  induction l as [|y l IH]; simpl.
  - apply Permutation_refl.
  - destruct (cmp x y).
    + apply Permutation_refl.
    + apply Permutation_refl.
    + eapply Permutation_trans; [apply perm_swap|].
      apply perm_skip. exact IH.
Qed.

Lemma sort_perm (l : list A) : Permutation l (sort cmp l).
Proof.
  induction l as [|x l IH]; simpl.
  - apply perm_nil.
  - eapply Permutation_trans; [apply perm_skip; exact IH|apply insert_perm].
Qed.

Lemma sort_Forall (P : A -> Prop) (l : list A) :
  Forall P l -> Forall P (sort cmp l).
Proof.
  intros H. rewrite Forall_forall in *. intros x Hx.
  apply H. eapply Permutation_in; [apply Permutation_sym, sort_perm|exact Hx].
Qed.

(** A relation that the comparator decides: [R x y] when [x] may stand
    before [y]. *)
Variable R : A -> A -> Prop.
Hypothesis R_trans : forall x y z, R x y -> R y z -> R x z.
Hypothesis cmp_before : forall x y, cmp x y <> Gt -> R x y.
Hypothesis cmp_after : forall x y, cmp x y = Gt -> R y x.

Lemma insert_sorted (x : A) (l : list A) :
  StronglySorted R l -> StronglySorted R (insert cmp x l).
Proof.
  induction 1 as [|y l Hs IH Hy]; simpl.
  - constructor; constructor.
  - destruct (cmp x y) eqn:E.
    + assert (Rxy : R x y) by (apply cmp_before; congruence).
      constructor; [constructor; assumption|].
      constructor; [exact Rxy|].
      eapply Forall_impl; [|exact Hy]. intros z Hz. eapply R_trans; eassumption.
    + assert (Rxy : R x y) by (apply cmp_before; congruence).
      constructor; [constructor; assumption|].
      constructor; [exact Rxy|].
      eapply Forall_impl; [|exact Hy]. intros z Hz. eapply R_trans; eassumption.
    + constructor; [exact IH|].
      rewrite Forall_forall. intros z Hz.
      apply (Permutation_in _ (Permutation_sym (insert_perm x l))) in Hz.
      destruct Hz as [<-|Hz].
      * apply cmp_after. exact E.
      * rewrite Forall_forall in Hy. apply Hy. exact Hz.
Qed.

Lemma sort_sorted (l : list A) : StronglySorted R (sort cmp l).
Proof.
  induction l as [|x l IH]; simpl.
  - constructor.
  - apply insert_sorted. exact IH.
Qed.

End SortFacts.


Lemma firstn_Forall (A : Type) (P : A -> Prop) (n : nat) (l : list A) :
  Forall P l -> Forall P (firstn n l).
Proof.
  intros H. revert n. induction H as [|x l Hx Hl IH]; intros [|n]; simpl;
    constructor; auto.
Qed.

Lemma map_sorted (A B : Type) (R : A -> A -> Prop) (R' : B -> B -> Prop)
  (P : A -> Prop) (f : A -> B) (l : list A) :
  (forall a b, P a -> P b -> R a b -> R' (f a) (f b)) ->
  Forall P l -> StronglySorted R l -> StronglySorted R' (map f l).
Proof.
  intros Hf HP Hs. induction Hs as [|x l Hs IH Hx]; simpl.
  - constructor.
  - inversion HP as [|? ? Px Pl]; subst. constructor; [apply IH; exact Pl|].
    rewrite Forall_forall in *. intros y Hy.
    apply in_map_iff in Hy. destruct Hy as [a [<- Ha]].
    apply Hf; auto.
Qed.

(** ** The retrieval scorer *)

Lemma wordScore_count (queryWords : list jsstring) (doc : IDocumentChunk) :
  wordScore queryWords doc =
  Z.of_nat (List.length
              (filter (fun word => includes (toLowerCase (content doc)) word)
                      queryWords)).
Proof.
  unfold wordScore.
  set (c := toLowerCase (content doc)).
  assert (G : forall ws acc,
             fold_left (fun (acc : Z) (word : jsstring) =>
                          (acc + (if includes c word then 1 else 0))%Z) ws acc
             = (acc + Z.of_nat (List.length (filter (fun w => includes c w) ws)))%Z).
  { induction ws as [|w ws IH]; intros acc; simpl.
    - lia.
    - rewrite IH. destruct (includes c w); simpl List.length; lia. }
  rewrite G. lia.
Qed.

Lemma wordScore_tokenOverlap (query : jsstring) (doc : IDocumentChunk) :
  wordScore (splitWhiteSpace (toLowerCase query)) doc
  = Z.of_nat (tokenOverlap query doc).
Proof. apply wordScore_count. Qed.

Lemma filter_nonempty_existsb (A : Type) (p : A -> bool) (l : list A) :
  (0 <? List.length (filter p l))%nat = existsb p l.
Proof.
  induction l as [|x l IH]; simpl; [reflexivity|].
  destruct (p x); simpl; [reflexivity|exact IH].
Qed.

(** The candidates that [searchDocuments] scores. *)
Lemma searchDocuments_candidates (documents : list IDocumentChunk)
  (query : jsstring) (language : SupportedLanguage) (P : IDocumentChunk -> Prop) :
  (forall d, In d documents ->
             docLanguage d = (if hasLanguage documents language
                              then language else ENGLISH) -> P d) ->
  Forall P (searchDocuments documents query language).
Proof.
  intros HP. unfold searchDocuments, slice.
  rewrite filter_nonempty_existsb. fold (hasLanguage documents language).
  set (target := if hasLanguage documents language then language else ENGLISH) in *.
  set (searchDocs := if hasLanguage documents language then _ else _).
  assert (Hc : Forall P searchDocs).
  { rewrite Forall_forall. intros d Hd. subst searchDocs target.
    destruct (hasLanguage documents language);
      apply filter_In in Hd; destruct Hd as [Hin Hl]; apply HP; auto;
      destruct (docLanguage d), language; simpl in Hl; congruence. }
  simpl skipn. rewrite Forall_forall. intros d Hd.
  apply in_map_iff in Hd. destruct Hd as [item [<- Hitem]].
  assert (Hall : Forall (fun it => P (doc it))
                   (firstn (3 - 0)
                      (sort (fun a b => (score b - score a ?= 0)%Z)
                         (filter (fun item => (0 <? score item)%Z)
                            (map (fun doc0 =>
                                    {| doc := doc0;
                                       score := wordScore
                                         (splitWhiteSpace (toLowerCase query)) doc0 |})
                                 searchDocs))))).
  { apply firstn_Forall, sort_Forall.
    rewrite Forall_forall. intros it Hit. apply filter_In in Hit.
    destruct Hit as [Hit _]. apply in_map_iff in Hit.
    destruct Hit as [d0 [<- Hd0]]. simpl.
    rewrite Forall_forall in Hc. apply Hc. exact Hd0. }
  rewrite Forall_forall in Hall. apply Hall. exact Hitem.
Qed.

(** C4.  [searchDocuments] returns at most three chunks, and every one of
    them has the requested language when the store holds a chunk of that
    language, and the language ENGLISH when it holds none. *)
Theorem search_at_most_three_in_language (documents : list IDocumentChunk)
  (query : jsstring) (language : SupportedLanguage) :
  (List.length (searchDocuments documents query language) <= 3)%nat
  /\ Forall (fun chunk =>
               docLanguage chunk = if hasLanguage documents language
                                   then language else ENGLISH)
            (searchDocuments documents query language).
Proof.
  split.
  - unfold searchDocuments, slice. rewrite length_map. apply firstn_le_length.
  - apply searchDocuments_candidates. intros d _ H. exact H.
Qed.


(** ** The response composer *)

Lemma orElse_app (p s b : jsstring) :
  p <> [] -> orElse (Some (p ++ s)) b = p ++ s.
Proof.
  destruct p as [|c p]; [congruence|reflexivity].
Qed.

(** C8.  On a context list that is not empty the template answer is the
    prefix of the language followed by the first element of the list, and
    nothing else of the list. *)
Theorem fallback_prefix_and_first_snippet (query first : jsstring)
  (rest : list jsstring) (language : SupportedLanguage) :
  generateFallbackResponse query (first :: rest) language
  = templatePrefix language ++ first.
Proof.
  unfold generateFallbackResponse, templatePrefix.
  destruct language; cbn [get langEqb]; apply orElse_app;
    vm_compute; discriminate.
Qed.

(** ** Strings *)

Lemma trimStart_idem (s : jsstring) : trimStart (trimStart s) = trimStart s.
Proof.
  induction s as [|c s IH]; simpl; [reflexivity|].
  destruct (isWhiteSpace c) eqn:E; [exact IH|].
  simpl. rewrite E. reflexivity.
Qed.

Lemma trimStart_snoc (s : jsstring) (c : N) :
  isWhiteSpace c = false -> trimStart (s ++ [c]) = trimStart s ++ [c].
Proof.
  intros Hc. induction s as [|d s IH]; simpl.
  - rewrite Hc. reflexivity.
  - destruct (isWhiteSpace d); [exact IH|reflexivity].
Qed.

Lemma trimEnd_cons (c : N) (s : jsstring) :
  isWhiteSpace c = false -> trimEnd (c :: s) = c :: trimEnd s.
Proof.
  intros Hc. unfold trimEnd. simpl rev.
  rewrite trimStart_snoc by exact Hc. rewrite rev_app_distr. reflexivity.
Qed.

Lemma trimEnd_snoc (s : jsstring) (c : N) :
  isWhiteSpace c = false -> trimEnd (s ++ [c]) = s ++ [c].
Proof.
  intros Hc. unfold trimEnd. rewrite rev_app_distr. simpl.
  rewrite Hc. simpl. rewrite rev_involutive. reflexivity.
Qed.

Lemma trimStart_head (s : jsstring) :
  trimStart s = [] \/
  exists c s', trimStart s = c :: s' /\ isWhiteSpace c = false.
Proof.
  induction s as [|c s IH]; simpl; [now left|].
  destruct (isWhiteSpace c) eqn:E; [exact IH|].
  right. exists c, s. split; [reflexivity|exact E].
Qed.

Lemma trim_idem (s : jsstring) : trim (trim s) = trim s.
Proof.
  unfold trim.
  destruct (trimStart_head s) as [H|[c [s' [H Hc]]]]; rewrite H.
  - reflexivity.
  - rewrite (trimEnd_cons c s' Hc). simpl. rewrite Hc.
    rewrite <- (trimEnd_cons c s' Hc).
    unfold trimEnd. rewrite rev_involutive, trimStart_idem. reflexivity.
Qed.



Lemma forallb_Forall (A : Type) (p : A -> bool) (P : A -> Prop) (l : list A) :
  (forall a, p a = true -> P a) -> forallb p l = true -> Forall P l.
Proof.
  intros Hp H. rewrite forallb_forall in H. rewrite Forall_forall.
  intros a Ha. apply Hp, H, Ha.
Qed.





(** ** Canned texts *)

Lemma getGreeting_canned (language : SupportedLanguage) :
  getGreeting language = cannedGreeting language.
Proof. destruct language; vm_compute; reflexivity. Qed.

Lemma getErrorMessage_noContext (language : SupportedLanguage) :
  getErrorMessage language noContext = insufficientInformation language.
Proof. destruct language; vm_compute; reflexivity. Qed.

Lemma getErrorMessage_technical (language : SupportedLanguage) :
  getErrorMessage language technical = technicalDifficulty language.
Proof. destruct language; vm_compute; reflexivity. Qed.

(** ** The chat pipeline *)

Section Turn.
Variable env : Env.
Variable searchStep :
  jsstring -> SupportedLanguage -> Outcome (list IDocumentChunk).
Variable generateStep :
  jsstring -> list jsstring -> SupportedLanguage -> Outcome jsstring.
Variable db : list IChatMessage.
Variable req : ChatRequest.
Hypothesis valid : validateChatMessage req = true.

Let lang := resolvedLanguage env req.
Let text := trim (bodyMessage req).

(** The greeting path of a valid request. *)
Lemma turn_greeting :
  isGreeting text = true ->
  processChatMessageWith env searchStep generateStep db req
  = if saveResolves env (exchangeOf env req (cannedGreeting lang) lang 0.9 false [])
    then (db ++ [exchangeOf env req (cannedGreeting lang) lang 0.9 false []],
          replyOf env req (cannedGreeting lang) lang 0.9 None)
    else (db, processingFailed).
Proof.
  intros Hg. unfold processChatMessageWith. rewrite valid. simpl negb. cbv iota.
  rewrite !trim_idem. fold text. rewrite Hg.
  fold (resolvedLanguage env req). fold lang.
  rewrite getGreeting_canned. reflexivity.
Qed.

(** The retrieval path of a valid request. *)
Lemma turn_retrieval :
  isGreeting text = false ->
  processChatMessageWith env searchStep generateStep db req
  = let r := processRAGQueryWith env searchStep generateStep text (Some lang) in
    let e := exchangeOf env req (answer r) (ragLanguage r) (confidence r) true
                        (context r) in
    if saveResolves env e
    then (db ++ [e],
          replyOf env req (answer r) (ragLanguage r) (confidence r)
                  (Some (sources r)))
    else (db, processingFailed).
Proof.
  intros Hg. unfold processChatMessageWith. rewrite valid. simpl negb. cbv iota.
  rewrite !trim_idem. fold text. rewrite Hg.
  fold (resolvedLanguage env req). fold lang. reflexivity.
Qed.

End Turn.





Lemma ragAttempt_escapes (env : Env)
  (searchStep : jsstring -> SupportedLanguage -> Outcome (list IDocumentChunk))
  (generateStep : jsstring -> list jsstring -> SupportedLanguage -> Outcome jsstring)
  (query : jsstring) (language : SupportedLanguage) :
  escapes searchStep generateStep query language ->
  ragAttempt env searchStep generateStep query (Some language) = Thrown.
Proof.
  unfold escapes, ragAttempt. intros [H|[docs [H [Hne Hg]]]]; rewrite H.
  - reflexivity.
  - cbn [bindOutcome]. destruct docs as [|d docs]; [congruence|].
    cbn [List.length Nat.eqb]. rewrite Hg. reflexivity.
Qed.

(** With the callees of the source the [try] block of [processRAGQuery]
    always returns. *)
Lemma ragAttempt_returns (env : Env) (documents : list IDocumentChunk)
  (query : jsstring) (userLanguage : option SupportedLanguage) :
  exists result,
    ragAttempt env
      (fun q l => Returned (searchDocuments documents q l))
      (fun q c l => Returned (generateContextualResponse (textGeneration env) q c l))
      query userLanguage
    = Returned result.
Proof.
  unfold ragAttempt. cbn [bindOutcome].
  destruct (List.length _ =? 0)%nat; eexists; reflexivity.
Qed.

(** A valid turn ends in one of two ways: the exchange is saved and
    answered, or the save rejects and the error 500 is forwarded with the
    collection as it was. *)
Lemma turn_outcomes (env : Env) (documents : list IDocumentChunk)
  (db : list IChatMessage) (req : ChatRequest) :
  validateChatMessage req = true ->
  exists exchange body,
    processChatMessage env documents db req
    = if saveResolves env exchange
      then (db ++ [exchange], Json 200 body)
      else (db, processingFailed).
Proof.
  intros Hv. unfold processChatMessage.
  destruct (isGreeting (trim (bodyMessage req))) eqn:Hg.
  - rewrite (turn_greeting env _ _ db req Hv Hg). eexists. eexists. reflexivity.
  - rewrite (turn_retrieval env _ _ db req Hv Hg). eexists. eexists. reflexivity.
Qed.

(** C2, as amended.  In a valid turn that is not a greeting, when an
    exception escapes the retrieval step or the composition step, the turn
    answers with the [technical difficulties] text of the resolved language,
    confidence 0.1 and an empty context; that exchange is persisted and
    returned when the save resolves, and when the save rejects the caller
    gets the error 500 and nothing is persisted. *)
Theorem escaped_exception_answer (env : Env)
  (searchStep : jsstring -> SupportedLanguage -> Outcome (list IDocumentChunk))
  (generateStep : jsstring -> list jsstring -> SupportedLanguage -> Outcome jsstring)
  (db : list IChatMessage) (req : ChatRequest) :
  let language := resolvedLanguage env req in
  let exchange :=
    exchangeOf env req (technicalDifficulty language) language 0.1 true [] in
  validateChatMessage req = true ->
  isGreeting (trim (bodyMessage req)) = false ->
  escapes searchStep generateStep (trim (bodyMessage req)) language ->
  processChatMessageWith env searchStep generateStep db req
  = if saveResolves env exchange
    then (db ++ [exchange],
          replyOf env req (technicalDifficulty language) language 0.1 (Some []))
    else (db, processingFailed).
Proof.
  intros language exchange Hv Hg Ht.
  rewrite (turn_retrieval env searchStep generateStep db req Hv Hg).
  fold language. unfold processRAGQueryWith.
  rewrite (ragAttempt_escapes env searchStep generateStep _ _ Ht).
  cbn [answer ragLanguage confidence context sources].
  rewrite getErrorMessage_technical. reflexivity.
Qed.

Lemma escaped_exception_answer_witness :
  escapes failingSearch failingGenerate
    (trim (bodyMessage libraryHours)) ENGLISH
  /\ processChatMessageWith (sampleEnv Thrown) failingSearch failingGenerate
       [] libraryHours
     = ([exchangeOf (sampleEnv Thrown) libraryHours
           (technicalDifficulty ENGLISH) ENGLISH 0.1 true []],
        replyOf (sampleEnv Thrown) libraryHours
          (technicalDifficulty ENGLISH) ENGLISH 0.1 (Some [])).
Proof.
  assert (H : escapes failingSearch failingGenerate
                (trim (bodyMessage libraryHours)) ENGLISH) by (left; reflexivity).
  split; [exact H|].
  apply (escaped_exception_answer (sampleEnv Thrown) failingSearch
           failingGenerate [] libraryHours);
    [vm_compute; reflexivity|vm_compute; reflexivity|exact H].
Defined.

(** C2 as stated fails.  The generative call of this valid turn throws
    inside the composition step: the answer is the template answer with
    confidence 0.5, not the [technical difficulties] text with 0.1; and when
    the save rejects, the turn ends in the error 500 with nothing
    persisted. *)
Lemma rejected_save_reaches_the_caller :
  validateChatMessage libraryHours = true
  /\ (exists db' body,
        processChatMessage (sampleEnv Thrown) collegeDocuments [] libraryHours
        = (db', Json 200 body)
        /\ resResponse body <> technicalDifficulty ENGLISH
        /\ (resConfidence body == 0.5)%Q)
  /\ processChatMessage offlineEnv collegeDocuments [] libraryHours
     = ([], processingFailed).
Proof.
  split; [vm_compute; reflexivity|]. split.
  - eexists. eexists. split; [vm_compute; reflexivity|].
    split; [vm_compute; discriminate|vm_compute; reflexivity].
  - vm_compute. reflexivity.
Qed.

(** C3, at the failing input.  The Devanagari greeting does not match the
    pattern of [isGreeting], whose alternatives beyond Basic Latin are stored
    wrongly decoded: the turn runs the retrieval, finds nothing and answers
    with the [insufficient information] text, confidence 0.1 and
    [isFromRAG] set. *)
Theorem devanagari_greeting_runs_retrieval :
  validateChatMessage namaste = true
  /\ isGreeting (trim (bodyMessage namaste)) = false
  /\ processChatMessage (sampleEnv (Returned (js "hin"))) collegeDocuments []
       namaste
     = ([exchangeOf (sampleEnv (Returned (js "hin"))) namaste
           (insufficientInformation HINDI) HINDI 0.1 true []],
        replyOf (sampleEnv (Returned (js "hin"))) namaste
          (insufficientInformation HINDI) HINDI 0.1 (Some [])).
Proof.
  split; [|split]; vm_compute; reflexivity.
Qed.

Example devanagari_greetings_unmatched :
  isGreeting (js "नमस्ते") = false
  /\ isGreeting (js "राम राम") = false
  /\ isGreeting (js "Namaste!") = true.
Proof. split; [|split]; vm_compute; reflexivity. Qed.



Example heyday_is_a_greeting :
  isGreeting (js "heyday") = true
  /\ fst (processChatMessage (sampleEnv Thrown) collegeDocuments []
            (sampleRequest "heyday" (Some ENGLISH)))
     = [exchangeOf (sampleEnv Thrown) (sampleRequest "heyday" (Some ENGLISH))
          (cannedGreeting ENGLISH) ENGLISH 0.9 false []].
Proof.
  split; vm_compute; reflexivity.
Qed.

(** ** Clearing the history *)

Lemma eqb_eq (s t : jsstring) : eqb s t = true <-> s = t.
Proof.
  unfold eqb. destruct (list_eq_dec N.eq_dec s t); split; congruence.
Qed.

Lemma matchesQuery_inScope (user : jsstring) (session : option jsstring)
  (m : IChatMessage) :
  matchesQuery {| qUserId := user; qSessionId := session |} m = true
  <-> inScope user session m.
Proof.
  unfold matchesQuery, inScope. cbn [qUserId qSessionId].
  rewrite andb_true_iff, eqb_eq.
  destruct session as [s|]; [rewrite eqb_eq|]; tauto.
Qed.




(** ** Lists and substrings *)

Lemma filter_length_le (A : Type) (p q : A -> bool) (l : list A) :
  (forall x, In x l -> p x = true -> q x = true) ->
  (List.length (filter p l) <= List.length (filter q l))%nat.
Proof.
  induction l as [|x l IH]; intros H; simpl; [lia|].
  assert (IH' := IH (fun y Hy => H y (or_intror Hy))).
  destruct (p x) eqn:Px.
  - rewrite (H x (or_introl eq_refl) Px). simpl. lia.
  - destruct (q x); simpl; lia.
Qed.

Lemma filter_all (A : Type) (p : A -> bool) (l : list A) :
  (forall x, In x l -> p x = true) -> filter p l = l.
Proof.
  induction l as [|x l IH]; intros H; simpl; [reflexivity|].
  rewrite (H x (or_introl eq_refl)), IH; [reflexivity|].
  intros y Hy. apply H. now right.
Qed.

Lemma one_in_filter (A : Type) (p : A -> bool) (l : list A) (a : A) :
  In a l -> p a = true -> (1 <= List.length (filter p l))%nat.
Proof.
  intros Ha Pa. assert (H : In a (filter p l)) by (apply filter_In; now split).
  destruct (filter p l); [contradiction|simpl; lia].
Qed.

Lemma two_in_filter (A : Type) (p : A -> bool) (l : list A) (a b : A) :
  In a l -> In b l -> a <> b -> p a = true -> p b = true ->
  (2 <= List.length (filter p l))%nat.
Proof.
  intros Ha Hb Hab Pa Pb. induction l as [|x l IH]; [contradiction|].
  simpl. destruct Ha as [->|Ha], Hb as [->|Hb].
  - congruence.
  - rewrite Pa. simpl. pose proof (one_in_filter A p l b Hb Pb). lia.
  - rewrite Pb. simpl. pose proof (one_in_filter A p l a Ha Pa). lia.
  - specialize (IH Ha Hb). destruct (p x); simpl; lia.
Qed.

Lemma startsWith_app_sep (a b k : jsstring) (c : N) :
  ~ In c k -> startsWith (a ++ c :: b) k = true -> startsWith a k = true.
Proof.
  revert k. induction a as [|x a IH]; intros [|d k] Hc H; try reflexivity.
  - simpl in H. apply andb_true_iff in H. destruct H as [H _].
    apply N.eqb_eq in H. subst d. exfalso. apply Hc. now left.
  - simpl in *. apply andb_true_iff in H. destruct H as [H1 H2].
    rewrite H1. simpl. apply IH; [|exact H2].
    intros Hin. apply Hc. now right.
Qed.

Lemma includes_cons (x : N) (s k : jsstring) :
  includes s k = true -> includes (x :: s) k = true.
Proof.
  intros H. simpl. destruct k; [reflexivity|].
  rewrite H. apply orb_true_r.
Qed.

Lemma includes_app_sep (a b k : jsstring) (c : N) :
  k <> [] -> ~ In c k -> includes (a ++ c :: b) k = true ->
  includes a k = true \/ includes b k = true.
Proof.
  intros Hk Hc. induction a as [|x a IH]; intros H.
  - right. simpl app in H. simpl in H. destruct k as [|d k]; [congruence|].
    apply orb_true_iff in H. destruct H as [H|H]; [|exact H].
    apply andb_true_iff in H. destruct H as [H _].
    apply N.eqb_eq in H. subst d. exfalso. apply Hc. now left.
  - change (includes ((x :: a) ++ c :: b) k)
      with (startsWith ((x :: a) ++ c :: b) k || includes (a ++ c :: b) k) in H.
    apply orb_true_iff in H. destruct H as [H|H].
    + left. apply (startsWith_app_sep _ _ _ _ Hc) in H.
      change (includes (x :: a) k) with (startsWith (x :: a) k || includes a k).
      rewrite H. reflexivity.
    + destruct (IH H) as [H'|H']; [left|right; exact H'].
      apply includes_cons. exact H'.
Qed.

Lemma includes_messageOf (words : list jsstring) (k : jsstring) :
  k <> [] -> ~ In 32%N k -> includes (messageOf words) k = true ->
  exists w, In w words /\ includes w k = true.
Proof.
  intros Hk Hc. unfold messageOf.
  induction words as [|w words IH]; intros H.
  - destruct k; [congruence|discriminate].
  - destruct words as [|w2 words].
    + exists w. split; [now left|exact H].
    + change (join [32%N] (w :: w2 :: words))
        with (w ++ 32%N :: join [32%N] (w2 :: words)) in H.
      apply (includes_app_sep _ _ _ _ Hk Hc) in H. destruct H as [H|H].
      * exists w. split; [now left|exact H].
      * destruct (IH H) as [w' [Hin Hw']]. exists w'. split; [now right|exact Hw'].
Qed.

Lemma messageOf_In (words : list jsstring) (c : N) :
  In c (messageOf words) -> c = 32%N \/ exists w, In w words /\ In c w.
Proof.
  unfold messageOf. induction words as [|w words IH]; intros H; [contradiction|].
  destruct words as [|w2 words].
  - right. exists w. split; [now left|exact H].
  - change (join [32%N] (w :: w2 :: words))
      with (w ++ 32%N :: join [32%N] (w2 :: words)) in H.
    apply in_app_or in H. destruct H as [H|[H|H]].
    + right. exists w. split; [now left|exact H].
    + left. congruence.
    + destruct (IH H) as [->|[w' [Hin Hc]]]; [now left|].
      right. exists w'. split; [now right|exact Hc].
Qed.

Lemma messageOf_last (words : list jsstring) (P : N -> Prop) :
  words <> [] ->
  Forall (fun w => w <> [] /\ Forall P w) words ->
  exists s c, messageOf words = s ++ [c] /\ P c.
Proof.
  unfold messageOf. induction words as [|w words IH]; intros Hne Hw; [congruence|].
  inversion Hw as [|? ? [Hwne HwP] Hrest]; subst.
  destruct words as [|w2 words].
  - destruct (exists_last Hwne) as [s [c ->]].
    exists s, c. split; [reflexivity|].
    rewrite Forall_forall in HwP. apply HwP. apply in_or_app. right. now left.
  - destruct (IH ltac:(discriminate) Hrest) as [s [c [E Pc]]].
    exists (w ++ 32%N :: s), c. split; [|exact Pc].
    change (join [32%N] (w :: w2 :: words))
      with (w ++ 32%N :: join [32%N] (w2 :: words)).
    rewrite E, <- app_assoc. reflexivity.
Qed.

Lemma messageOf_filter_first (p : N -> bool) (w : jsstring)
  (words : list jsstring) :
  (List.length (filter p w)
   <= List.length (filter p (messageOf (w :: words))))%nat.
Proof.
  unfold messageOf. destruct words as [|w2 words]; [simpl; lia|].
  change (join [32%N] (w :: w2 :: words))
    with (w ++ 32%N :: join [32%N] (w2 :: words)).
  rewrite filter_app, length_app. lia.
Qed.

(** ** The keyword tables *)

Lemma plainKeywords_ok (language : SupportedLanguage) :
  plainKeywords language = true.
Proof. destruct language; vm_compute; reflexivity. Qed.

Lemma singleWordCheck_ok (language : SupportedLanguage) :
  singleWordCheck language = true.
Proof. destruct language; vm_compute; reflexivity. Qed.

Lemma foreignKeywords_bound (language other : SupportedLanguage) :
  language <> other -> (List.length (foreignKeywords language other) <= 1)%nat.
Proof.
  destruct language, other; intros H; try congruence; vm_compute;
    repeat constructor.
Qed.

Lemma plainUnit_spec (language : SupportedLanguage) (c : N) :
  plainUnit language c = true ->
  script (patternOf language) c = true /\ lowerUnit c = c
  /\ isWhiteSpace c = false /\ c <> 32%N.
Proof.
  unfold plainUnit. rewrite !andb_true_iff, !negb_true_iff, N.eqb_eq, N.eqb_neq.
  tauto.
Qed.

Lemma keyword_plain (language : SupportedLanguage) (k : jsstring) :
  In k (keywordsOf language) ->
  Forall (fun c => plainUnit language c = true) k /\ (2 <= List.length k)%nat.
Proof.
  intros Hk. pose proof (plainKeywords_ok language) as H.
  unfold plainKeywords in H. rewrite forallb_forall in H.
  specialize (H k Hk). apply andb_true_iff in H. destruct H as [H1 H2].
  split.
  - rewrite Forall_forall. rewrite forallb_forall in H1. exact H1.
  - apply Nat.leb_le. exact H2.
Qed.

Lemma keyword_lower (language : SupportedLanguage) (k : jsstring) :
  In k (keywordsOf language) -> toLowerCase k = k.
Proof.
  intros Hk. destruct (keyword_plain language k Hk) as [H _].
  clear Hk. unfold toLowerCase.
  induction H as [|c k Hc _ IH]; simpl; [reflexivity|].
  apply plainUnit_spec in Hc. destruct Hc as [_ [-> _]]. rewrite IH. reflexivity.
Qed.

Lemma keyword_no_space (language : SupportedLanguage) (k : jsstring) :
  In k (keywordsOf language) -> k <> [] /\ ~ In 32%N k.
Proof.
  intros Hk. destruct (keyword_plain language k Hk) as [H Hlen]. split.
  - destruct k; [simpl in Hlen; lia|discriminate].
  - intros Hin. rewrite Forall_forall in H. apply H in Hin.
    apply plainUnit_spec in Hin. tauto.
Qed.

Lemma script_space (language : SupportedLanguage) :
  script (patternOf language) 32%N = false.
Proof. destruct language; reflexivity. Qed.

(** ** Messages made of keywords *)

Section KeywordMessage.
Variable language : SupportedLanguage.
Variable words : list jsstring.
Hypothesis words_keywords : Forall (fun w => In w (keywordsOf language)) words.

Let text := messageOf words.

Lemma message_units (c : N) :
  In c text -> c = 32%N \/ plainUnit language c = true.
Proof.
  intros H. apply messageOf_In in H. destruct H as [H|[w [Hw Hc]]]; [now left|].
  right. rewrite Forall_forall in words_keywords.
  destruct (keyword_plain language w (words_keywords w Hw)) as [Hp _].
  rewrite Forall_forall in Hp. apply Hp. exact Hc.
Qed.

Lemma message_lower : toLowerCase text = text.
Proof.
  unfold toLowerCase. rewrite <- (map_id text) at 2.
  apply map_ext_in. intros c Hc.
  destruct (message_units c Hc) as [->|H]; [reflexivity|].
  apply plainUnit_spec in H. tauto.
Qed.

Lemma message_trim : words <> [] -> trim text = text /\ text <> [].
Proof.
  intros Hne.
  assert (Hw : Forall (fun w => w <> []
                               /\ Forall (fun c => isWhiteSpace c = false) w) words).
  { rewrite Forall_forall in *. intros w Hin.
    destruct (keyword_plain language w (words_keywords w Hin)) as [Hp Hlen].
    split; [destruct w; [simpl in Hlen; lia|discriminate]|].
    rewrite Forall_forall in *. intros c Hc.
    apply Hp, plainUnit_spec in Hc. tauto. }
  destruct (messageOf_last words _ Hne Hw) as [s [c [E Hc]]].
  fold text in E.
  assert (Hhead : exists d s', text = d :: s' /\ isWhiteSpace d = false).
  { destruct words as [|w ws]; [congruence|].
    inversion Hw as [|? ? [Hwne Hwc] _]; subst.
    destruct w as [|d w]; [congruence|].
    inversion Hwc; subst. exists d.
    unfold text, messageOf. destruct ws; simpl; eauto. }
  destruct Hhead as [d [s' [E' Hd]]]. split.
  - unfold trim. rewrite E' at 1. simpl trimStart. rewrite Hd.
    rewrite <- E', E. apply trimEnd_snoc. exact Hc.
  - rewrite E'. discriminate.
Qed.

Lemma message_script_other (other : SupportedLanguage) :
  (scriptMatches (patternOf other) text
   <= scriptMatches (patternOf language) text)%Z.
Proof.
  unfold scriptMatches. apply inj_le. apply filter_length_le.
  intros c Hc Ho. destruct (message_units c Hc) as [->|H].
  - rewrite script_space in Ho. discriminate.
  - apply plainUnit_spec in H. tauto.
Qed.

Lemma message_keywords_other (other : SupportedLanguage) :
  language <> other -> (keywordMatches (patternOf other) text <= 1)%Z.
Proof.
  intros Hneq. unfold keywordMatches.
  change 1%Z with (Z.of_nat 1). apply inj_le.
  eapply Nat.le_trans; [|apply (foreignKeywords_bound language other Hneq)].
  unfold foreignKeywords. apply filter_length_le. intros k Hk Hinc.
  fold (keywordsOf other) in Hk.
  rewrite (keyword_lower other k Hk) in *.
  destruct (keyword_no_space other k Hk) as [Hne Hsp].
  destruct (includes_messageOf words k Hne Hsp Hinc) as [w [Hw Hwk]].
  apply existsb_exists. exists w. split; [|exact Hwk].
  rewrite Forall_forall in words_keywords. apply words_keywords. exact Hw.
Qed.

Variables k1 k2 : jsstring.
Hypothesis k1_keyword : In k1 (keywordsOf language).
Hypothesis k2_keyword : In k2 (keywordsOf language).
Hypothesis distinct : k1 <> k2.
Hypothesis k1_present : includes text k1 = true.
Hypothesis k2_present : includes text k2 = true.

Lemma message_words : words <> [].
Proof.
  intros E. unfold text in k1_present. rewrite E in k1_present.
  destruct (keyword_no_space language k1 k1_keyword) as [Hne _].
  destruct k1; [congruence|discriminate].
Qed.

Lemma message_keywords :
  (2 <= keywordMatches (patternOf language) text)%Z.
Proof.
  unfold keywordMatches. change 2%Z with (Z.of_nat 2). apply inj_le.
  apply (two_in_filter _ _ _ k1 k2 k1_keyword k2_keyword distinct).
  - rewrite (keyword_lower language k1 k1_keyword). exact k1_present.
  - rewrite (keyword_lower language k2 k2_keyword). exact k2_present.
Qed.

Lemma message_script : (3 <= scriptMatches (patternOf language) text)%Z.
Proof.
  unfold scriptMatches. change 3%Z with (Z.of_nat 3). apply inj_le.
  assert (Hall : forall w, In w (keywordsOf language) ->
                   filter (script (patternOf language)) w = w
                   /\ (2 <= List.length w)%nat).
  { intros w Hw. destruct (keyword_plain language w Hw) as [Hp Hlen].
    split; [|exact Hlen]. apply filter_all. intros c Hc.
    rewrite Forall_forall in Hp. apply Hp, plainUnit_spec in Hc. tauto. }
  pose proof message_words as Hne.
  destruct words as [|w1 [|w2 ws]] eqn:Ew; [congruence| |].
  - inversion words_keywords as [|? ? Hw1 _]; subst.
    unfold text, messageOf in *. simpl join in *.
    destruct (Hall w1 Hw1) as [-> _].
    pose proof (singleWordCheck_ok language) as Hc.
    unfold singleWordCheck in Hc. rewrite forallb_forall in Hc.
    specialize (Hc w1 Hw1). rewrite forallb_forall in Hc.
    specialize (Hc k1 k1_keyword). rewrite forallb_forall in Hc.
    specialize (Hc k2 k2_keyword).
    rewrite k1_present, k2_present in Hc. simpl in Hc.
    rewrite !orb_false_r in Hc. apply orb_true_iff in Hc.
    destruct Hc as [Hc|Hc]; [|apply Nat.leb_le; exact Hc].
    apply eqb_eq in Hc. congruence.
  - inversion words_keywords as [|? ? Hw1 Hrest]; subst.
    inversion Hrest as [|? ? Hw2 _]; subst.
    unfold text, messageOf.
    change (join [32%N] (w1 :: w2 :: ws))
      with (w1 ++ 32%N :: join [32%N] (w2 :: ws)).
    rewrite filter_app, length_app.
    destruct (Hall w1 Hw1) as [-> L1].
    pose proof (messageOf_filter_first (script (patternOf language)) w2 ws) as H2.
    destruct (Hall w2 Hw2) as [E2 L2]. rewrite E2 in H2.
    unfold messageOf in H2.
    assert (H3 : (List.length (filter (script (patternOf language))
                                 (join [32%N] (w2 :: ws)))
                  <= List.length (filter (script (patternOf language))
                                    (32%N :: join [32%N] (w2 :: ws))))%nat).
    { simpl. destruct (script (patternOf language) 32%N); simpl; lia. }
    lia.
Qed.

End KeywordMessage.

(** ** Language detection *)

Lemma ltb_lt (a b : Q) : ltb a b = true <-> (a < b)%Q.
Proof.
  unfold ltb. rewrite negb_true_iff. split.
  - intros H. apply Qnot_le_lt. intros Hle.
    apply Qle_bool_iff in Hle. congruence.
  - intros H. destruct (Qle_bool b a) eqn:E; [|reflexivity].
    apply Qle_bool_iff in E. exfalso. exact (Qlt_not_le _ _ H E).
Qed.

Lemma ltb_ge (a b : Q) : ltb a b = false <-> (b <= a)%Q.
Proof.
  unfold ltb. rewrite negb_false_iff. apply Qle_bool_iff.
Qed.

Section SortByValue.
Variable A : Type.
Variable val : A -> Q.

Let cmp := fun x y : A => (val y - val x ?= 0)%Q.

Lemma sort_by_value_sorted (l : list A) :
  StronglySorted (fun a b => (val b <= val a)%Q) (sort cmp l).
Proof.
  apply sort_sorted.
  - intros x y z Hxy Hyz. exact (Qle_trans _ _ _ Hyz Hxy).
  - intros x y H. unfold cmp in H. apply Qle_alt in H. lra.
  - intros x y H. unfold cmp in H. apply Qgt_alt in H. lra.
Qed.

Lemma sort_by_value_head (l : list A) (best : A) :
  In best l ->
  (forall e, In e l -> e = best \/ (val e < val best)%Q) ->
  exists rest, sort cmp l = best :: rest.
Proof.
  intros Hbest Hmax.
  pose proof (sort_by_value_sorted l) as Hs.
  pose proof (sort_perm A cmp l) as Hp.
  destruct (sort cmp l) as [|h rest].
  - apply Permutation_sym, Permutation_nil in Hp. subst l. contradiction.
  - assert (Hh : In h l)
      by (apply (Permutation_in _ (Permutation_sym Hp)); now left).
    destruct (Hmax h Hh) as [->|Hlt]; [eexists; reflexivity|].
    apply (Permutation_in _ Hp) in Hbest.
    destruct Hbest as [->|Hin]; [eexists; reflexivity|].
    apply StronglySorted_inv in Hs. destruct Hs as [_ Hall].
    rewrite Forall_forall in Hall. specialize (Hall best Hin).
    exfalso. exact (Qlt_not_le _ _ Hlt Hall).
Qed.

End SortByValue.

Lemma hintedScores_scoresBy (code text cleanText : jsstring) :
  hintedScores code text cleanText
  = scoresBy (fun l => scoreOf (bonusOf code l) l text cleanText).
Proof. reflexivity. Qed.

Lemma languagePatterns_patternOf (language : SupportedLanguage) :
  get languagePatterns language = Some (patternOf language).
Proof. destruct language; reflexivity. Qed.

Lemma candidates_length (code text : jsstring) :
  List.length (candidates code text) = 3%nat.
Proof.
  unfold candidates, sortedScores. rewrite length_map.
  rewrite <- (Permutation_length (sort_perm _ _ _)).
  rewrite hintedScores_scoresBy. reflexivity.
Qed.

Lemma confidence_monotone (a b : Q) :
  (a <= b)%Q -> (Qmin (a / 10) 1 <= Qmin (b / 10) 1)%Q.
Proof.
  intros H. apply Q.min_le_compat_r. unfold Qdiv.
  apply Qmult_le_compat_r; [exact H|discriminate].
Qed.

(** The first candidate is a top-scoring one. *)
Lemma candidates_top (code text : jsstring) :
  exists primaryResult rest,
    candidates code text = primaryResult :: rest
    /\ Forall (fun c => (candConfidence c <= candConfidence primaryResult)%Q) rest.
Proof.
  pose proof (candidates_length code text) as Hlen.
  assert (Hs : StronglySorted
                 (fun a b => (candConfidence b <= candConfidence a)%Q)
                 (candidates code text)).
  { unfold candidates, sortedScores.
    apply map_sorted with (R := fun a b : SupportedLanguage * Q => (snd b <= snd a)%Q)
                          (P := fun _ => True).
    - intros a b _ _ H. simpl. apply confidence_monotone. exact H.
    - rewrite Forall_forall. intros; exact I.
    - apply (sort_by_value_sorted _ snd). }
  destruct (candidates code text) as [|p rest]; [discriminate|].
  exists p, rest. split; [reflexivity|].
  apply StronglySorted_inv in Hs. tauto.
Qed.

Lemma scoresBy_max (v : SupportedLanguage -> Q) (language : SupportedLanguage) :
  (forall other, language <> other -> (v other < v language)%Q) ->
  In (language, v language) (scoresBy v)
  /\ forall e, In e (scoresBy v) ->
               e = (language, v language) \/ (snd e < snd (language, v language))%Q.
Proof.
  intros H. split.
  - unfold scoresBy. destruct language; simpl; tauto.
  - intros e He. unfold scoresBy in He. simpl in He.
    destruct He as [<-|[<-|[<-|[]]]]; destruct language;
      try (left; reflexivity); right; simpl; apply H; discriminate.
Qed.

Lemma sortedScores_head (v : SupportedLanguage -> Q)
  (language : SupportedLanguage) :
  (forall other, language <> other -> (v other < v language)%Q) ->
  exists rest,
    sortedScores (scoresBy v)
    = {| candLanguage := language;
         candConfidence := Qmin (v language / 10) 1 |} :: rest.
Proof.
  intros H. destruct (scoresBy_max v language H) as [Hin Hmax].
  destruct (sort_by_value_head _ snd (scoresBy v) _ Hin Hmax) as [rest E].
  unfold sortedScores. rewrite E. simpl. eexists. reflexivity.
Qed.

Lemma reduce_best (v : SupportedLanguage -> Q) (language : SupportedLanguage) :
  (forall other, language <> other -> (v other < v language)%Q) ->
  fold_left (fun a b : SupportedLanguage * Q => if ltb (snd b) (snd a) then a else b)
            (tl (scoresBy v)) (hd (ENGLISH, 0%Q) (scoresBy v))
  = (language, v language).
Proof.
  intros H. simpl.
  destruct language.
  - assert (H1 : ltb (v HINDI) (v ENGLISH) = true)
      by (apply ltb_lt, H; discriminate).
    assert (H2 : ltb (v RAJASTHANI) (v ENGLISH) = true)
      by (apply ltb_lt, H; discriminate).
    rewrite H1. simpl. rewrite H2. reflexivity.
  - assert (H1 : ltb (v HINDI) (v ENGLISH) = false)
      by (apply ltb_ge, Qlt_le_weak, H; discriminate).
    assert (H2 : ltb (v RAJASTHANI) (v HINDI) = true)
      by (apply ltb_lt, H; discriminate).
    rewrite H1. simpl. rewrite H2. reflexivity.
  - assert (H1 : ltb (v RAJASTHANI) (v ENGLISH) = false)
      by (apply ltb_ge, Qlt_le_weak, H; discriminate).
    assert (H2 : ltb (v RAJASTHANI) (v HINDI) = false)
      by (apply ltb_ge, Qlt_le_weak, H; discriminate).
    destruct (ltb (v HINDI) (v ENGLISH)); simpl; [rewrite H1|rewrite H2];
      reflexivity.
Qed.

Lemma detectWithoutHint_scoresBy (text cleanText : jsstring) :
  detectWithoutHint text cleanText
  = let scores := scoresBy (fun l => plainScore l text cleanText) in
    let bestMatch :=
      fold_left (fun a b : SupportedLanguage * Q =>
                   if ltb (snd b) (snd a) then a else b)
                (tl scores) (hd (ENGLISH, 0%Q) scores) in
    {| detLanguage := fst bestMatch;
       detConfidence := Qmin (snd bestMatch / 10) 1;
       alternatives := None |}.
Proof. reflexivity. Qed.

Lemma bonusOf_range (code : jsstring) (language : SupportedLanguage) :
  (0 <= bonusOf code language <= 0.4)%Q.
Proof.
  destruct language; unfold bonusOf;
    try destruct (eqb code _); split; lra.
Qed.

Lemma confidence_above (q : Q) : (2 < q)%Q -> (0.2 < Qmin (q / 10) 1)%Q.
Proof.
  intros H. apply Q.min_glb_lt; [|lra].
  apply Qlt_shift_div_l; lra.
Qed.



(** C6.  For a message made only of keywords of one language, one space
    between them, in which two distinct keywords of that language occur,
    [detectLanguage] answers that language with a confidence above 0.2,
    whatever the external detector does. *)
Theorem keyword_message_detected
  (franc : jsstring -> Outcome jsstring) (language : SupportedLanguage)
  (words : list jsstring) (k1 k2 : jsstring) :
  Forall (fun w => In w (keywordsOf language)) words ->
  In k1 (keywordsOf language) ->
  In k2 (keywordsOf language) ->
  k1 <> k2 ->
  includes (messageOf words) k1 = true ->
  includes (messageOf words) k2 = true ->
  detLanguage (detectLanguage franc (messageOf words)) = language
  /\ (0.2 < detConfidence (detectLanguage franc (messageOf words)))%Q.
Proof.
  intros Hw Hk1 Hk2 Hd Hp1 Hp2.
  pose proof (message_words language words k1 k2 Hk1 Hd Hp1) as Hne.
  destruct (message_trim language words Hw Hne) as [Htrim Htext].
  pose proof (message_lower language words Hw) as Hlow.
  pose proof (message_script language words Hw k1 k2 Hk1 Hk2 Hd Hp1 Hp2) as Hs.
  pose proof (message_keywords language words k1 k2 Hk1 Hk2 Hd Hp1 Hp2) as Hk.
  pose proof (message_script_other language words Hw) as Hso.
  pose proof (message_keywords_other language words Hw) as Hko.
  set (text := messageOf words) in *.
  rewrite Zle_Qle in Hs, Hk. change (inject_Z 3) with 3%Q in Hs.
  change (inject_Z 2) with 2%Q in Hk.
  assert (Hmax : forall b : SupportedLanguage -> Q,
             (forall l, 0 <= b l <= 0.4)%Q ->
             (forall other, language <> other ->
                scoreOf (b other) other text text
                < scoreOf (b language) language text text)%Q
             /\ (2 < scoreOf (b language) language text text)%Q).
  { intros b Hb. split.
    - intros other Hneq. specialize (Hso other). specialize (Hko other Hneq).
      rewrite Zle_Qle in Hso, Hko. change (inject_Z 1) with 1%Q in Hko.
      pose proof (Hb other). pose proof (Hb language).
      unfold scoreOf. lra.
    - pose proof (Hb language). unfold scoreOf. lra. }
  unfold detectLanguage. rewrite Hlow, Htrim.
  destruct text as [|c0 s0] eqn:Et; [congruence|].
  cbn [List.length Nat.eqb]. rewrite <- Et in *. clear Et c0 s0.
  destruct (franc text) as [code|].
  - rewrite hintedScores_scoresBy.
    destruct (Hmax (bonusOf code) (bonusOf_range code)) as [Hlt Hbig].
    destruct (sortedScores_head
                (fun l => scoreOf (bonusOf code l) l text text) language Hlt)
      as [rest E].
    rewrite E. cbn [candConfidence candLanguage].
    pose proof (confidence_above _ Hbig) as Hconf.
    rewrite (proj2 (ltb_ge _ _) (Qlt_le_weak _ _ Hconf)).
    cbn [detLanguage detConfidence]. split; [reflexivity|exact Hconf].
  - rewrite detectWithoutHint_scoresBy. cbv zeta.
    destruct (Hmax (fun _ => 0%Q) ltac:(intros; split; lra)) as [Hlt Hbig].
    assert (Hlt' : forall other, language <> other ->
                     (plainScore other text text < plainScore language text text)%Q).
    { intros other Hneq. specialize (Hlt other Hneq).
      unfold scoreOf in Hlt. unfold plainScore. lra. }
    rewrite (reduce_best (fun l => plainScore l text text) language Hlt').
    cbn [fst snd detLanguage detConfidence]. split; [reflexivity|].
    apply confidence_above. unfold scoreOf in Hbig. unfold plainScore. lra.
Qed.

Lemma keyword_message_detected_witness :
  includes (messageOf [js "थारो"; js "थारी"]) (js "थारो") = true
  /\ includes (messageOf [js "थारो"; js "थारी"]) (js "थारी") = true
  /\ detLanguage (detectLanguage (answering "hin")
                    (messageOf [js "थारो"; js "थारी"])) = RAJASTHANI
  /\ (0.2 < detConfidence (detectLanguage (answering "hin")
                             (messageOf [js "थारो"; js "थारी"])))%Q.
Proof.
  assert (H1 : includes (messageOf [js "थारो"; js "थारी"]) (js "थारो") = true)
    by (vm_compute; reflexivity).
  assert (H2 : includes (messageOf [js "थारो"; js "थारी"]) (js "थारी") = true)
    by (vm_compute; reflexivity).
  split; [exact H1|]. split; [exact H2|].
  apply (keyword_message_detected (answering "hin") RAJASTHANI
           [js "थारो"; js "थारी"] (js "थारो") (js "थारी")).
  - constructor; [|constructor; [|constructor]]; vm_compute; tauto.
  - vm_compute; tauto.
  - vm_compute; tauto.
  - vm_compute; discriminate.
  - exact H1.
  - exact H2.
Defined.

(** ** The scenarios of the specification *)

Lemma detect_blank (franc : jsstring -> Outcome jsstring) (text : jsstring) :
  trim text = [] ->
  detectLanguage franc text
  = {| detLanguage := ENGLISH; detConfidence := 0.5; alternatives := None |}.
Proof.
  intros H. unfold detectLanguage. rewrite H. reflexivity.
Qed.

Example split_keeps_empty_pieces :
  splitWhiteSpace (js " a  b ") = [[]; js "a"; js "b"; []]
  /\ splitWhiteSpace [] = [[]].
Proof. split; vm_compute; reflexivity. Qed.

Example empty_piece_scores_every_chunk :
  map id (searchDocuments collegeDocuments (js " zzz") ENGLISH)
  = [js "admission-en"; js "fees-en"; js "library-en"].
Proof. vm_compute. reflexivity. Qed.

Example scenario_hello :
  processChatMessage (sampleEnv (Returned (js "eng"))) collegeDocuments [] hello
  = ([exchangeOf (sampleEnv (Returned (js "eng"))) hello
        (cannedGreeting ENGLISH) ENGLISH 0.9 false []],
     replyOf (sampleEnv (Returned (js "eng"))) hello
       (cannedGreeting ENGLISH) ENGLISH 0.9 None).
Proof. vm_compute. reflexivity. Qed.

Example scenario_library_hours :
  exists db' body,
    processChatMessage (sampleEnv Thrown) collegeDocuments [] libraryHours
    = (db', Json 200 body)
    /\ resSources body = Some [js "library-rules"]
    /\ (resConfidence body == 0.5)%Q
    /\ map msgContext db'
       = [[js "The college library is open from 8 AM to 10 PM on weekdays and 9 AM to 6 PM on weekends. Students can borrow up to 5 books at a time. Digital resources are available 24/7."]].
Proof.
  eexists. eexists. split; [vm_compute; reflexivity|].
  split; [|split]; vm_compute; reflexivity.
Qed.

Example scenario_too_long :
  processChatMessage (sampleEnv Thrown) collegeDocuments []
    {| bodyMessage := repeat 97%N 1001;
       bodyLanguage := None;
       bodySessionId := None;
       reqUser := None |}
  = ([], Next {| errMessage := js "Validation failed"; statusCode := 400 |}).
Proof. vm_compute. reflexivity. Qed.

(** ** More on the retrieval scorer *)

Lemma sort_already_sorted (A : Type) (cmp : A -> A -> comparison) (l : list A) :
  StronglySorted (fun x y => cmp x y <> Gt) l -> sort cmp l = l.
Proof.
  induction 1 as [|x l Hs IH Hx]; simpl; [reflexivity|].
  rewrite IH. destruct l as [|y l]; [reflexivity|]. simpl.
  inversion Hx as [|? ? Hxy _]; subst.
  destruct (cmp x y); try reflexivity. congruence.
Qed.

Lemma sorted_app_le (A : Type) (R : A -> A -> Prop) (l1 l2 : list A) :
  StronglySorted R (l1 ++ l2) ->
  forall a b, In a l1 -> In b l2 -> R a b.
Proof.
  induction l1 as [|x l1 IH]; intros Hs a b Ha Hb; [contradiction|].
  simpl in Hs. apply StronglySorted_inv in Hs. destruct Hs as [Hs Hx].
  destruct Ha as [<-|Ha].
  - rewrite Forall_forall in Hx. apply Hx. apply in_or_app. now right.
  - apply (IH Hs a b Ha Hb).
Qed.

Lemma map_filter_map (A B : Type) (f : A -> B) (g : B -> A) (p : B -> bool)
  (l : list A) :
  (forall a, g (f a) = a) ->
  map g (filter p (map f l)) = filter (fun a => p (f a)) l.
Proof.
  intros Hg. induction l as [|a l IH]; simpl; [reflexivity|].
  destruct (p (f a)); simpl; rewrite IH; [rewrite Hg|]; reflexivity.
Qed.

Lemma searchDocuments_length (documents : list IDocumentChunk)
  (query : jsstring) (language : SupportedLanguage) :
  (List.length (searchDocuments documents query language) <= 3)%nat.
Proof.
  unfold searchDocuments, slice. rewrite length_map. apply firstn_le_length.
Qed.

(** [searchDocuments] as the first three of the stable sort of the scored
    matching chunks. *)
Lemma search_items (documents : list IDocumentChunk) (query : jsstring)
  (language : SupportedLanguage) :
  exists items : list Scored,
    searchDocuments documents query language
    = map doc (firstn 3 (sort byItemScore items))
    /\ map doc items = matchingChunks documents query language
    /\ Forall (fun it => score it = Z.of_nat (tokenOverlap query (doc it))) items.
Proof.
  unfold searchDocuments, slice. simpl skipn.
  rewrite filter_nonempty_existsb. fold (hasLanguage documents language).
  assert (Hc : (if hasLanguage documents language
                then filter (fun d => langEqb (docLanguage d) language) documents
                else filter (fun d => langEqb (docLanguage d) ENGLISH) documents)
               = candidateChunks documents language).
  { unfold candidateChunks, searchLanguage.
    destruct (hasLanguage documents language); reflexivity. }
  rewrite Hc. clear Hc.
  set (mk := fun d : IDocumentChunk =>
               {| doc := d;
                  score := wordScore (splitWhiteSpace (toLowerCase query)) d |}).
  exists (filter (fun item => (0 <? score item)%Z)
                 (map mk (candidateChunks documents language))).
  split; [reflexivity|]. split.
  - rewrite (map_filter_map _ _ mk doc) by reflexivity.
    unfold matchingChunks. apply filter_ext. intros d. unfold mk. simpl.
    rewrite wordScore_tokenOverlap.
    destruct (tokenOverlap query d); reflexivity.
  - rewrite Forall_forall. intros it Hit. apply filter_In in Hit.
    destruct Hit as [Hit _]. apply in_map_iff in Hit.
    destruct Hit as [d [<- _]]. apply wordScore_tokenOverlap.
Qed.

Lemma byItemScore_sorted (items : list Scored) :
  StronglySorted (fun a b => (score b <= score a)%Z) (sort byItemScore items).
Proof.
  apply sort_sorted.
  - intros x y z; lia.
  - intros x y H. unfold byItemScore in H.
    destruct (Z.compare_spec (score y - score x) 0); try lia; congruence.
  - intros x y H. unfold byItemScore in H. apply Z.compare_gt_iff in H. lia.
Qed.

(** X1.  [searchDocuments] returns the best matching chunks: what it returns
    and what it leaves out make up the matching chunks of the searched
    language, no chunk left out scores more than a chunk returned, and
    three chunks are returned whenever three or more match. *)
Theorem search_returns_the_best (documents : list IDocumentChunk)
  (query : jsstring) (language : SupportedLanguage) :
  exists rest,
    Permutation (searchDocuments documents query language ++ rest)
                (matchingChunks documents query language)
    /\ (forall r x, In r (searchDocuments documents query language) ->
                    In x rest ->
                    (tokenOverlap query x <= tokenOverlap query r)%nat)
    /\ List.length (searchDocuments documents query language)
       = Nat.min 3 (List.length (matchingChunks documents query language)).
Proof.
  destruct (search_items documents query language) as [items [E [Hm Hsc]]].
  set (sorted := sort byItemScore items) in *.
  assert (Hp : Permutation items sorted) by apply sort_perm.
  assert (Hscs : Forall (fun it => score it
                                   = Z.of_nat (tokenOverlap query (doc it))) sorted).
  { rewrite Forall_forall in *. intros it Hit. apply Hsc.
    apply (Permutation_in _ (Permutation_sym Hp)). exact Hit. }
  exists (map doc (skipn 3 sorted)). rewrite E. split; [|split].
  - rewrite <- map_app, firstn_skipn, <- Hm.
    apply Permutation_map, Permutation_sym. exact Hp.
  - intros r x Hr Hx.
    apply in_map_iff in Hr. destruct Hr as [a [<- Ha]].
    apply in_map_iff in Hx. destruct Hx as [b [<- Hb]].
    pose proof (byItemScore_sorted items) as Hs. fold sorted in Hs.
    rewrite <- (firstn_skipn 3 sorted) in Hs.
    pose proof (sorted_app_le _ _ _ _ Hs a b Ha Hb) as Hab. simpl in Hab.
    rewrite Forall_forall in Hscs.
    rewrite (Hscs a), (Hscs b) in Hab; [lia| |].
    + apply (In_nth_error) in Hb. destruct Hb as [k Hk].
      rewrite <- (firstn_skipn 3 sorted). apply in_or_app. right.
      eapply nth_error_In. exact Hk.
    + rewrite <- (firstn_skipn 3 sorted). apply in_or_app. now left.
  - rewrite length_map, length_firstn, <- Hm, length_map.
    rewrite (Permutation_length Hp). reflexivity.
Qed.

Lemma search_keeps_sorted_store (documents : list IDocumentChunk)
  (query : jsstring) (language : SupportedLanguage) :
  StronglySorted (fun a b => (tokenOverlap query b <= tokenOverlap query a)%nat)
                 (matchingChunks documents query language) ->
  searchDocuments documents query language
  = firstn 3 (matchingChunks documents query language).
Proof.
  intros Hs.
  destruct (search_items documents query language) as [items [E [Hm Hsc]]].
  rewrite E, <- Hm. rewrite sort_already_sorted; [symmetry; apply firstn_map|].
  rewrite <- Hm in Hs. clear E Hm.
  induction items as [|x items IH]; [constructor|].
  simpl in Hs. apply StronglySorted_inv in Hs. destruct Hs as [Hs Hx].
  inversion Hsc as [|? ? Sx Sitems]; subst.
  constructor; [apply IH; assumption|].
  rewrite Forall_forall in *. intros y Hy.
  specialize (Hx (doc y) (in_map doc _ _ Hy)).
  unfold byItemScore. rewrite Sx, (Sitems y Hy).
  intros Hgt. apply Z.compare_gt_iff in Hgt. lia.
Qed.

(** X2.  The sort of [searchDocuments] is stable: when the matching chunks
    already stand in the store in descending order of score (ties
    included), the result is the first three of them in the order of the
    store. *)
Theorem search_is_stable (documents : list IDocumentChunk)
  (query : jsstring) (language : SupportedLanguage) :
  StronglySorted (fun a b => (tokenOverlap query b <= tokenOverlap query a)%nat)
                 (matchingChunks documents query language) ->
  searchDocuments documents query language
  = firstn 3 (matchingChunks documents query language).
Proof. apply search_keeps_sorted_store. Qed.

Lemma search_is_stable_witness :
  StronglySorted
    (fun a b => (tokenOverlap (js "fees library") b
                 <= tokenOverlap (js "fees library") a)%nat)
    (matchingChunks collegeDocuments (js "fees library") ENGLISH)
  /\ map id (searchDocuments collegeDocuments (js "fees library") ENGLISH)
     = [js "fees-en"; js "library-en"].
Proof.
  assert (H : StronglySorted
                (fun a b => (tokenOverlap (js "fees library") b
                             <= tokenOverlap (js "fees library") a)%nat)
                (matchingChunks collegeDocuments (js "fees library") ENGLISH)).
  { assert (E : exists l, matchingChunks collegeDocuments (js "fees library")
                            ENGLISH = l
                          /\ map (tokenOverlap (js "fees library")) l
                             = [1%nat; 1%nat])
      by (eexists; split; [reflexivity|vm_compute; reflexivity]).
    destruct E as [l [-> Hl]].
    destruct l as [|a [|b [|c l]]]; try discriminate.
    injection Hl as Ha Hb.
    repeat constructor. lia. }
  split; [exact H|].
  rewrite (search_is_stable collegeDocuments (js "fees library") ENGLISH H).
  vm_compute. reflexivity.
Defined.

Lemma splitGo_blank (s : jsstring) :
  Forall (fun c => isWhiteSpace c = true) s ->
  splitGo s [] true = [[]].
Proof.
  induction 1 as [|c s Hc _ IH]; simpl; [reflexivity|].
  rewrite Hc. exact IH.
Qed.

Lemma lowerUnit_whiteSpace (c : N) :
  isWhiteSpace c = true -> lowerUnit c = c.
Proof.
  unfold isWhiteSpace, lowerUnit. intros H.
  destruct ((65 <=? c)%N && (c <=? 90)%N) eqn:E1.
  - apply andb_true_iff in E1. rewrite !N.leb_le in E1.
    repeat (apply orb_true_iff in H; destruct H as [H|H]);
      try (apply andb_true_iff in H; rewrite !N.leb_le in H);
      try apply N.eqb_eq in H; lia.
  - destruct ((192 <=? c)%N && (c <=? 222)%N && negb (c =? 215)%N) eqn:E2;
      [|reflexivity].
    apply andb_true_iff in E2. destruct E2 as [E2 _].
    apply andb_true_iff in E2. rewrite !N.leb_le in E2.
    repeat (apply orb_true_iff in H; destruct H as [H|H]);
      try (apply andb_true_iff in H; rewrite !N.leb_le in H);
      try apply N.eqb_eq in H; lia.
Qed.

Lemma blank_query_tokens (query : jsstring) :
  Forall (fun c => isWhiteSpace c = true) query ->
  Forall (fun token => token = []) (splitWhiteSpace (toLowerCase query))
  /\ splitWhiteSpace (toLowerCase query) <> [].
Proof.
  intros H.
  assert (Hl : toLowerCase query = query).
  { unfold toLowerCase. rewrite <- (map_id query) at 2.
    apply map_ext_in. intros c Hc. rewrite Forall_forall in H.
    apply lowerUnit_whiteSpace, H, Hc. }
  rewrite Hl. unfold splitWhiteSpace.
  destruct H as [|c s Hc Hs]; simpl.
  - split; [repeat constructor|discriminate].
  - rewrite Hc, (splitGo_blank s Hs).
    split; [repeat constructor|discriminate].
Qed.

Lemma includes_empty (s : jsstring) : includes s [] = true.
Proof. destruct s; reflexivity. Qed.

(** X3.  An empty or blank query matches every chunk: the result is the
    first three chunks of the searched language, in the order of the
    store. *)
Theorem blank_query_returns_first_chunks (documents : list IDocumentChunk)
  (query : jsstring) (language : SupportedLanguage) :
  Forall (fun c => isWhiteSpace c = true) query ->
  searchDocuments documents query language
  = firstn 3 (candidateChunks documents language).
Proof.
  intros Hq. destruct (blank_query_tokens query Hq) as [Htok Hne].
  assert (Hov : forall d, tokenOverlap query d
                          = List.length (splitWhiteSpace (toLowerCase query))).
  { intros d. unfold tokenOverlap. f_equal. apply filter_all.
    intros token Hin. rewrite Forall_forall in Htok.
    rewrite (Htok token Hin). apply includes_empty. }
  assert (Hm : matchingChunks documents query language
               = candidateChunks documents language).
  { unfold matchingChunks. apply filter_all. intros d _. rewrite Hov.
    destruct (splitWhiteSpace (toLowerCase query)); [congruence|reflexivity]. }
  rewrite <- Hm. apply search_keeps_sorted_store.
  generalize (matchingChunks documents query language). intros l.
  induction l as [|x l IH]; constructor; [exact IH|].
  rewrite Forall_forall. intros y _. rewrite !Hov. lia.
Qed.

Lemma blank_query_returns_first_chunks_witness :
  Forall (fun c => isWhiteSpace c = true) (js "  ")
  /\ map id (searchDocuments collegeDocuments (js "  ") HINDI)
     = [js "admission-hi"; js "fees-hi"].
Proof.
  assert (H : Forall (fun c => isWhiteSpace c = true) (js "  "))
    by (vm_compute; repeat constructor).
  split; [exact H|].
  rewrite (blank_query_returns_first_chunks collegeDocuments (js "  ") HINDI H).
  vm_compute. reflexivity.
Defined.

(** ** The document store *)

Lemma langEqb_eq (a b : SupportedLanguage) : langEqb a b = true <-> a = b.
Proof. destruct a, b; simpl; split; congruence. Qed.

Lemma hasLanguage_app (l1 l2 : list IDocumentChunk) (language : SupportedLanguage) :
  hasLanguage (l1 ++ l2) language
  = hasLanguage l1 language || hasLanguage l2 language.
Proof. unfold hasLanguage. apply existsb_app. Qed.

(** X4.  Adding a chunk does not disturb the searches of other languages:
    when the new chunk is not of the searched language, and is not an
    ENGLISH chunk while the store lacks the searched language, every search
    gives what it gave before. *)
Theorem added_chunk_leaves_other_languages (env : Env)
  (documents : list IDocumentChunk) (document : NewDocument)
  (query : jsstring) (searched : SupportedLanguage) :
  language (newMetadata document) <> searched ->
  hasLanguage documents searched = true
  \/ language (newMetadata document) <> ENGLISH ->
  searchDocuments (fst (addDocument env documents document)) query searched
  = searchDocuments documents query searched.
Proof.
  intros Hneq Hfb. unfold addDocument. cbn [fst].
  fold (addedChunk env document).
  assert (Hl : langEqb (docLanguage (addedChunk env document)) searched = false).
  { destruct (langEqb _ searched) eqn:E; [|reflexivity].
    apply langEqb_eq in E. contradiction. }
  unfold searchDocuments. rewrite !filter_app. cbn [filter]. rewrite Hl.
  rewrite app_nil_r. rewrite filter_nonempty_existsb.
  fold (hasLanguage documents searched).
  destruct (hasLanguage documents searched) eqn:Hh; [reflexivity|].
  destruct Hfb as [Hfb|Hfb]; [discriminate|].
  assert (He : langEqb (docLanguage (addedChunk env document)) ENGLISH = false).
  { destruct (langEqb _ ENGLISH) eqn:E; [|reflexivity].
    apply langEqb_eq in E. contradiction. }
  rewrite He, app_nil_r. reflexivity.
Qed.

Lemma added_chunk_leaves_other_languages_witness :
  language (newMetadata sampleDocument) <> HINDI
  /\ searchDocuments (fst (addDocument (sampleEnv Thrown) collegeDocuments
                             sampleDocument)) (js "शुल्क") HINDI
     = searchDocuments collegeDocuments (js "शुल्क") HINDI.
Proof.
  assert (H : language (newMetadata sampleDocument) <> HINDI) by discriminate.
  split; [exact H|].
  apply (added_chunk_leaves_other_languages (sampleEnv Thrown) collegeDocuments
           sampleDocument (js "शुल्क") HINDI H).
  left. vm_compute. reflexivity.
Defined.

(** X5.  A chunk that was added can be found: when it shares a token with
    the query and fewer than three chunks of its language matched the query
    before, a search in its language returns it. *)
Theorem added_chunk_is_found (env : Env) (documents : list IDocumentChunk)
  (document : NewDocument) (query : jsstring) :
  (0 < tokenOverlap query (addedChunk env document))%nat ->
  (List.length
     (filter (fun d => (0 <? tokenOverlap query d)%nat)
        (filter (fun d => langEqb (docLanguage d)
                                  (language (newMetadata document)))
                documents)) < 3)%nat ->
  In (addedChunk env document)
     (searchDocuments (fst (addDocument env documents document)) query
        (language (newMetadata document))).
Proof.
  intros Hpos Hfew. unfold addDocument. cbn [fst].
  fold (addedChunk env document).
  set (new := addedChunk env document) in *.
  set (lang := language (newMetadata document)) in *.
  assert (Hnl : langEqb (docLanguage new) lang = true)
    by (apply langEqb_eq; reflexivity).
  destruct (search_items (documents ++ [new]) query lang) as [items [E [Hm _]]].
  assert (Hh : hasLanguage (documents ++ [new]) lang = true).
  { rewrite hasLanguage_app. unfold hasLanguage at 2. simpl.
    rewrite Hnl. apply orb_true_r. }
  assert (Hmc : matchingChunks (documents ++ [new]) query lang
                = filter (fun d => (0 <? tokenOverlap query d)%nat)
                    (filter (fun d => langEqb (docLanguage d) lang) documents)
                  ++ [new]).
  { unfold matchingChunks, candidateChunks, searchLanguage. rewrite Hh.
    rewrite !filter_app. cbn [filter]. rewrite Hnl. cbn [filter].
    apply Nat.ltb_lt in Hpos. rewrite Hpos. reflexivity. }
  rewrite E.
  assert (Hlen : (List.length (sort byItemScore items) <= 3)%nat).
  { rewrite <- (Permutation_length (sort_perm _ byItemScore items)).
    rewrite <- (length_map doc), Hm, Hmc, length_app. simpl. lia. }
  rewrite firstn_all2 by exact Hlen.
  apply (Permutation_in (l := map doc items)).
  - apply Permutation_map, sort_perm.
  - rewrite Hm, Hmc. apply in_or_app. right. now left.
Qed.

Lemma added_chunk_is_found_witness :
  (0 < tokenOverlap (js "hostel rooms") (addedChunk (sampleEnv Thrown)
                                           sampleDocument))%nat
  /\ In (addedChunk (sampleEnv Thrown) sampleDocument)
        (searchDocuments (fst (addDocument (sampleEnv Thrown) collegeDocuments
                                 sampleDocument)) (js "hostel rooms") ENGLISH).
Proof.
  assert (H : (0 < tokenOverlap (js "hostel rooms")
                     (addedChunk (sampleEnv Thrown) sampleDocument))%nat)
    by (vm_compute; repeat constructor).
  split; [exact H|].
  apply (added_chunk_is_found (sampleEnv Thrown) collegeDocuments sampleDocument
           (js "hostel rooms") H).
  vm_compute. repeat constructor.
Defined.

(** X6.  The statistics add up: the three counts of [byLanguage] sum to
    [totalDocuments]. *)
Theorem stats_by_language_add_up (documents : list IDocumentChunk) :
  exists en hi raj,
    byLanguage (getDocumentStats documents)
    = [(ENGLISH, en); (HINDI, hi); (RAJASTHANI, raj)]
    /\ totalDocuments (getDocumentStats documents) = (en + hi + raj)%nat.
Proof.
  unfold getDocumentStats. cbn [byLanguage totalDocuments].
  eexists. eexists. eexists. split; [reflexivity|].
  induction documents as [|d documents IH]; simpl; [reflexivity|].
  destruct (docLanguage d); simpl; lia.
Qed.

Lemma eqb_refl (s : jsstring) : eqb s s = true.
Proof. apply eqb_eq. reflexivity. Qed.

Lemma eqb_sym (s t : jsstring) : eqb s t = eqb t s.
Proof.
  destruct (eqb s t) eqn:E.
  - apply eqb_eq in E. subst. symmetry. apply eqb_refl.
  - destruct (eqb t s) eqn:E'; [|reflexivity].
    apply eqb_eq in E'. subst. rewrite eqb_refl in E. discriminate.
Qed.

Lemma increment_counterOf (table : Counters) (key c : jsstring) :
  counterOf (increment table key) c
  = if eqb key c then Some (S (countOr0 (counterOf table key)))
    else counterOf table c.
Proof.
  induction table as [|[k n] table IH]; simpl.
  - destruct (eqb key c); reflexivity.
  - destruct (eqb k key) eqn:Ek; simpl.
    + apply eqb_eq in Ek. subst k. destruct (eqb key c); reflexivity.
    + rewrite IH. destruct (eqb key c) eqn:Ec.
      * apply eqb_eq in Ec. subst c. rewrite Ek. reflexivity.
      * reflexivity.
Qed.

Lemma increment_sum (table : Counters) (key : jsstring) :
  sumOfCounters (increment table key) = S (sumOfCounters table).
Proof.
  induction table as [|[k n] table IH]; simpl; [reflexivity|].
  destruct (eqb k key); simpl; [lia|rewrite IH; lia].
Qed.

Lemma countCategories_from (documents : list IDocumentChunk) (table : Counters) :
  Forall (fun d => isInherited (category (metadata d)) = false) documents ->
  (forall c, counterOf table c <> Some 0%nat) ->
  exists table',
    fold_left
      (fun (acc : option Counters) (doc : IDocumentChunk) =>
         match acc with
         | Some t =>
             if isInherited (category (metadata doc)) then None
             else Some (increment t (category (metadata doc)))
         | None => None
         end)
      documents (Some table) = Some table'
    /\ (forall c, countOr0 (counterOf table' c)
                  = (countOr0 (counterOf table c)
                     + chunksOfCategory documents c)%nat)
    /\ (forall c, counterOf table' c <> Some 0%nat)
    /\ sumOfCounters table'
       = (sumOfCounters table + List.length documents)%nat.
Proof.
  intros H. revert table. induction H as [|d documents Hd _ IH]; intros table Hpos.
  - exists table. simpl. unfold chunksOfCategory. simpl.
    repeat split; auto; intros; lia.
  - simpl. rewrite Hd.
    destruct (IH (increment table (category (metadata d)))) as [t' [E [Hc [Hp Hs]]]].
    { intros c. rewrite increment_counterOf.
      destruct (eqb (category (metadata d)) c); [discriminate|apply Hpos]. }
    exists t'. split; [exact E|]. split; [|split; [exact Hp|]].
    + intros c. rewrite Hc, increment_counterOf.
      unfold chunksOfCategory. simpl.
      destruct (eqb (category (metadata d)) c) eqn:Ec; simpl.
      * apply eqb_eq in Ec. subst c. lia.
      * lia.
    + rewrite Hs, increment_sum. lia.
Qed.

(** X7.  The table [byCategory] counts every chunk once: while no category
    is a name that objects inherit, the table holds for each category of
    the store the number of its chunks, holds no other key, and its
    counters sum to [totalDocuments]. *)
Theorem stats_by_category_count (documents : list IDocumentChunk) :
  Forall (fun d => isInherited (category (metadata d)) = false) documents ->
  exists table,
    byCategory (getDocumentStats documents) = Some table
    /\ (forall c, counterOf table c
                  = match chunksOfCategory documents c with
                    | O => None
                    | S n => Some (S n)
                    end)
    /\ sumOfCounters table = totalDocuments (getDocumentStats documents).
Proof.
  intros H. unfold getDocumentStats. cbn [byCategory totalDocuments].
  unfold countCategories.
  destruct (countCategories_from documents [] H) as [t [E [Hc [Hp Hs]]]];
    [discriminate|].
  exists t. split; [exact E|]. split; [|exact Hs].
  intros c. specialize (Hc c). specialize (Hp c). simpl in Hc.
  destruct (counterOf t c) as [n|]; simpl in Hc; rewrite <- Hc.
  - destruct n; [congruence|reflexivity].
  - reflexivity.
Qed.

Lemma stats_by_category_count_witness :
  Forall (fun d => isInherited (category (metadata d)) = false) collegeDocuments
  /\ exists table,
       byCategory (getDocumentStats collegeDocuments) = Some table
       /\ counterOf table (js "fees") = Some 2%nat
       /\ sumOfCounters table = 6%nat.
Proof.
  assert (H : Forall (fun d => isInherited (category (metadata d)) = false)
                     collegeDocuments)
    by (apply forallb_Forall with
          (p := fun d => negb (isInherited (category (metadata d))));
        [intros d Hd; apply negb_true_iff; exact Hd|vm_compute; reflexivity]).
  split; [exact H|].
  destruct (stats_by_category_count collegeDocuments H) as [table [E [Hc Hs]]].
  exists table. split; [exact E|]. split.
  - rewrite Hc. vm_compute. reflexivity.
  - rewrite Hs. reflexivity.
Defined.

(** X8.  [addDocument] only appends: the chunks of the store stay as they
    are and where they are, the new chunk comes last under the returned
    id, [totalDocuments] and the count of its language grow by one, and the
    counts of the other languages stay. *)
Theorem add_document_appends (env : Env) (documents : list IDocumentChunk)
  (document : NewDocument) :
  let after := fst (addDocument env documents document) in
  let newId := snd (addDocument env documents document) in
  after = documents ++ [{| id := newId;
                           content := newContent document;
                           metadata := newMetadata document |}]
  /\ totalDocuments (getDocumentStats after)
     = S (totalDocuments (getDocumentStats documents))
  /\ forall l,
       get (byLanguage (getDocumentStats after)) l
       = option_map
           (fun n => if langEqb (language (newMetadata document)) l
                     then S n else n)
           (get (byLanguage (getDocumentStats documents)) l).
Proof.
  unfold addDocument. cbn [fst snd]. split; [reflexivity|]. split.
  - unfold getDocumentStats. cbn [totalDocuments].
    rewrite length_app. simpl. lia.
  - intros l. unfold getDocumentStats. cbn [byLanguage].
    rewrite !filter_app, !length_app. cbn [filter].
    unfold docLanguage at 2 4 6. cbn [metadata].
    destruct l, (language (newMetadata document)); cbn;
      rewrite ?Nat.add_0_r, ?Nat.add_1_r; reflexivity.
Qed.

(** ** The composer and the query pipeline *)

Lemma generateFallbackResponse_template (query : jsstring)
  (snippets : list jsstring) (language : SupportedLanguage) :
  generateFallbackResponse query snippets language
  = templateAnswer snippets language.
Proof.
  destruct snippets as [|first rest];
    unfold generateFallbackResponse, templateAnswer.
  - apply getErrorMessage_noContext.
  - unfold templatePrefix.
    destruct language; cbn [get langEqb]; apply orElse_app;
      vm_compute; discriminate.
Qed.

Lemma templateAnswer_nonempty (snippets : list jsstring)
  (language : SupportedLanguage) : templateAnswer snippets language <> [].
Proof.
  destruct snippets as [|first rest]; unfold templateAnswer.
  - destruct language; vm_compute; discriminate.
  - assert (H : templatePrefix language <> [])
      by (destruct language; vm_compute; discriminate).
    destruct (templatePrefix language); [congruence|discriminate].
Qed.

Lemma generateContextualResponse_nonempty
  (textGeneration : jsstring -> Outcome (option jsstring))
  (query : jsstring) (snippets : list jsstring) (language : SupportedLanguage) :
  generateContextualResponse textGeneration query snippets language <> [].
Proof.
  unfold generateContextualResponse. cbv zeta.
  rewrite generateFallbackResponse_template.
  pose proof (templateAnswer_nonempty snippets language) as H.
  destruct (textGeneration _) as [[[|c t]|]|]; simpl; try exact H.
  discriminate.
Qed.

(** X9.  The composer degrades to the template: when the generative call
    throws or gives no text, the answer is the prefix of the language
    followed by the first snippet, or the [insufficient information] text
    for an empty context. *)
Theorem composer_falls_back_to_template
  (textGeneration : jsstring -> Outcome (option jsstring))
  (query : jsstring) (snippets : list jsstring) (language : SupportedLanguage) :
  (forall prompt, givesNoText (textGeneration prompt)) ->
  generateContextualResponse textGeneration query snippets language
  = templateAnswer snippets language.
Proof.
  intros H. unfold generateContextualResponse. cbv zeta.
  rewrite generateFallbackResponse_template.
  match goal with
  | |- context [textGeneration ?p] => specialize (H p); set (prompt := p) in *
  end.
  destruct (textGeneration prompt) as [[[|c t]|]|]; simpl in *;
    try reflexivity. discriminate.
Qed.

Lemma composer_falls_back_to_template_witness :
  (forall prompt : jsstring, givesNoText (Returned (Some [])))
  /\ generateContextualResponse (fun _ => Returned (Some []))
       (js "library hours") [js "first"; js "second"] HINDI
     = templatePrefix HINDI ++ js "first".
Proof.
  assert (H : forall prompt : jsstring,
             givesNoText ((fun _ => Returned (Some [])) prompt))
    by (intros; reflexivity).
  split; [exact H|].
  rewrite (composer_falls_back_to_template (fun _ => Returned (Some []))
             (js "library hours") [js "first"; js "second"] HINDI H).
  unfold templateAnswer. reflexivity.
Defined.

Lemma rag_shape (env : Env) (documents : list IDocumentChunk)
  (query : jsstring) (userLanguage : option SupportedLanguage) :
  let language := ragResolved env query userLanguage in
  let found := searchDocuments documents query language in
  let result := processRAGQuery env documents query userLanguage in
  context result = map content found
  /\ sources result = map (fun d => source (metadata d)) found
  /\ ragLanguage result = language
  /\ answer result <> []
  /\ (confidence result
      == match found with
         | [] => 0.1
         | _ :: _ => 0.3 + 0.2 * inject_Z (Z.of_nat (List.length found))
         end)%Q
  /\ (0.1 <= confidence result <= 0.9)%Q.
Proof.
  intros language found result.
  pose proof (searchDocuments_length documents query language) as Hlen.
  fold found in Hlen.
  unfold result, processRAGQuery, processRAGQueryWith, ragAttempt.
  fold (ragResolved env query userLanguage). fold language.
  cbn [bindOutcome]. fold found.
  destruct found as [|a rest] eqn:Ef.
  - cbn [List.length Nat.eqb context sources ragLanguage answer confidence map].
    split; [reflexivity|]. split; [reflexivity|]. split; [reflexivity|].
    split; [|split; [reflexivity|split; discriminate]].
    rewrite getErrorMessage_noContext. destruct language; vm_compute; discriminate.
  - cbn [List.length Nat.eqb context sources ragLanguage answer confidence].
    split; [reflexivity|]. split; [reflexivity|]. split; [reflexivity|].
    split; [apply generateContextualResponse_nonempty|].
    destruct rest as [|b [|c [|d rest]]]; simpl in Hlen; try lia;
      split; try split; vm_compute; try reflexivity; discriminate.
Qed.

(** X10.  What [processRAGQuery] returns follows the search: the context and
    the sources are the contents and the source labels of the chunks found,
    in their order, the language is the one named or else detected, and the
    confidence is 0.1 without a chunk and 0.5, 0.7 or 0.9 with one, two or
    three chunks. *)
Theorem rag_result_follows_the_search (env : Env)
  (documents : list IDocumentChunk) (query : jsstring)
  (userLanguage : option SupportedLanguage) :
  let language := ragResolved env query userLanguage in
  let found := searchDocuments documents query language in
  let result := processRAGQuery env documents query userLanguage in
  context result = map content found
  /\ sources result = map (fun d => source (metadata d)) found
  /\ ragLanguage result = language
  /\ (confidence result
      == match List.length found with
         | 0%nat => 0.1
         | 1%nat => 0.5
         | 2%nat => 0.7
         | _ => 0.9
         end)%Q.
Proof.
  intros language found result.
  destruct (rag_shape env documents query userLanguage)
    as [Hc [Hs [Hl [_ [Hconf _]]]]].
  fold language found result in Hc, Hs, Hl, Hconf.
  split; [exact Hc|]. split; [exact Hs|]. split; [exact Hl|].
  rewrite Hconf.
  pose proof (searchDocuments_length documents query language) as Hlen.
  fold found in Hlen.
  destruct found as [|a [|b [|c [|d rest]]]]; simpl in Hlen; try lia;
    vm_compute; reflexivity.
Qed.

(** ** The chat turn as a whole *)

Lemma cannedGreeting_nonempty (language : SupportedLanguage) :
  cannedGreeting language <> [].
Proof. destruct language; vm_compute; discriminate. Qed.

Lemma generateSessionId_nonempty (env : Env) : generateSessionId env <> [].
Proof.
  unfold generateSessionId.
  assert (H : js "session_" <> []) by (vm_compute; discriminate).
  destruct (js "session_"); [congruence|discriminate].
Qed.

Lemma orElse_nonempty (a : option jsstring) (b : jsstring) :
  b <> [] -> orElse a b <> [].
Proof.
  intros Hb. destruct a as [[|c s]|]; simpl; try exact Hb. discriminate.
Qed.

Lemma turn_invalid (env : Env) (documents : list IDocumentChunk)
  (db : list IChatMessage) (req : ChatRequest) :
  validateChatMessage req = false ->
  processChatMessage env documents db req = (db, validationFailed).
Proof.
  intros Hv. unfold processChatMessage, processChatMessageWith.
  rewrite Hv. reflexivity.
Qed.

(** The three ways a turn ends. *)
Lemma turn_cases (env : Env) (documents : list IDocumentChunk)
  (db : list IChatMessage) (req : ChatRequest) :
  (validateChatMessage req = false
   /\ processChatMessage env documents db req = (db, validationFailed))
  \/ (validateChatMessage req = true
      /\ exists text conf fromRAG snippets labels,
           let language := resolvedLanguage env req in
           let exchange :=
             exchangeOf env req text language conf fromRAG snippets in
           text <> []
           /\ (0.1 <= conf <= 0.9)%Q
           /\ fromRAG = negb (isGreeting (trim (bodyMessage req)))
           /\ ((saveResolves env exchange = true
                /\ processChatMessage env documents db req
                   = (db ++ [exchange],
                      replyOf env req text language conf labels))
               \/ (saveResolves env exchange = false
                   /\ processChatMessage env documents db req
                      = (db, processingFailed)))).
Proof.
  destruct (validateChatMessage req) eqn:Hv.
  - right. split; [reflexivity|].
    unfold processChatMessage.
    destruct (isGreeting (trim (bodyMessage req))) eqn:Hg.
    + exists (cannedGreeting (resolvedLanguage env req)), 0.9, false, [], None.
      cbv zeta. split; [apply cannedGreeting_nonempty|].
      split; [split; discriminate|]. split; [reflexivity|].
      rewrite (turn_greeting env _ _ db req Hv Hg).
      destruct (saveResolves env _); [left|right]; split; reflexivity.
    + rewrite (turn_retrieval env _ _ db req Hv Hg). cbv zeta.
      fold (processRAGQuery env documents).
      destruct (rag_shape env documents (trim (bodyMessage req))
                  (Some (resolvedLanguage env req)))
        as [_ [_ [Hl [Hne [_ Hrange]]]]].
      cbv zeta in Hl, Hne, Hrange. cbn [ragResolved] in Hl.
      set (r := processRAGQuery env documents (trim (bodyMessage req))
                  (Some (resolvedLanguage env req))) in *.
      exists (answer r), (confidence r), true, (context r), (Some (sources r)).
      split; [exact Hne|]. split; [exact Hrange|]. split; [reflexivity|].
      rewrite Hl.
      destruct (saveResolves env _); [left|right]; split; reflexivity.
  - left. split; [reflexivity|]. apply turn_invalid. exact Hv.
Qed.

(** X11.  A turn persists what it answers, once: with the reply 200 the
    collection has grown by exactly one exchange, which carries the trimmed
    message, the user (or [anonymous]), and the response, language,
    confidence and session id of the reply; with an error the collection is
    as it was, the error being 400 for an invalid request and 500 for a
    failed save. *)
Theorem turn_persists_what_it_answers (env : Env)
  (documents : list IDocumentChunk) (db : list IChatMessage) (req : ChatRequest) :
  match snd (processChatMessage env documents db req) with
  | Json status body =>
      status = 200%Z
      /\ validateChatMessage req = true
      /\ exists exchange,
           fst (processChatMessage env documents db req) = db ++ [exchange]
           /\ saveResolves env exchange = true
           /\ userId exchange = orElse (reqUser req) (js "anonymous")
           /\ message exchange = trim (bodyMessage req)
           /\ response exchange = resResponse body
           /\ msgLanguage exchange = resLanguage body
           /\ msgConfidence exchange = resConfidence body
           /\ sessionId exchange = resSessionId body
           /\ isFromRAG exchange = negb (isGreeting (trim (bodyMessage req)))
  | Next error =>
      fst (processChatMessage env documents db req) = db
      /\ (statusCode error = 400%Z /\ validateChatMessage req = false
          \/ statusCode error = 500%Z /\ validateChatMessage req = true)
  end.
Proof.
  destruct (turn_cases env documents db req)
    as [[Hv E]|[Hv [text [conf [fromRAG [snippets [labels H]]]]]]].
  - rewrite E. cbn [snd fst validationFailed statusCode].
    split; [reflexivity|]. left. split; [reflexivity|exact Hv].
  - cbv zeta in H. destruct H as [_ [_ [Hf [[Hs E]|[Hs E]]]]]; rewrite E.
    + unfold replyOf. cbn [snd fst].
      split; [reflexivity|]. split; [exact Hv|].
      eexists. split; [reflexivity|]. split; [exact Hs|].
      unfold exchangeOf.
      cbn [userId message response msgLanguage msgConfidence sessionId isFromRAG
           resResponse resLanguage resConfidence resSessionId].
      repeat (split; [reflexivity|]). exact Hf.
    + cbn [snd fst processingFailed statusCode].
      split; [reflexivity|]. right. split; [reflexivity|exact Hv].
Qed.

Lemma turn_json_fields (env : Env)
  (documents : list IDocumentChunk) (db db' : list IChatMessage)
  (req : ChatRequest) (status : Z) (body : ChatResponse) :
  processChatMessage env documents db req = (db', Json status body) ->
  status = 200%Z
  /\ validateChatMessage req = true
  /\ success body = true
  /\ resResponse body <> []
  /\ (0.1 <= resConfidence body <= 0.9)%Q
  /\ resLanguage body = resolvedLanguage env req
  /\ resSessionId body = orElse (bodySessionId req) (generateSessionId env)
  /\ resSessionId body <> []
  /\ exists exchange,
       db' = db ++ [exchange]
       /\ userId exchange = orElse (reqUser req) (js "anonymous")
       /\ sessionId exchange = resSessionId body.
Proof.
  intros E.
  destruct (turn_cases env documents db req)
    as [[Hv E']|[Hv [text [conf [fromRAG [snippets [labels H]]]]]]].
  - rewrite E' in E. discriminate.
  - cbv zeta in H. destruct H as [Hne [Hr [_ [[_ E']|[_ E']]]]];
      rewrite E' in E; [|discriminate].
    unfold replyOf in E. injection E as <- <- <-.
    cbn [success resResponse resConfidence resLanguage resSessionId].
    split; [reflexivity|]. split; [exact Hv|]. split; [reflexivity|].
    split; [exact Hne|]. split; [exact Hr|]. split; [reflexivity|].
    split; [reflexivity|].
    split; [apply orElse_nonempty, generateSessionId_nonempty|].
    eexists. split; [reflexivity|]. split; reflexivity.
Qed.

(** X12.  Every reply 200 is well formed: the response text is not empty,
    the confidence lies between 0.1 and 0.9, the language is the one the
    request named or else the detected one, and the session id is the one
    supplied or else a generated one that is not empty. *)
Theorem successful_reply_is_well_formed (env : Env)
  (documents : list IDocumentChunk) (db db' : list IChatMessage)
  (req : ChatRequest) (status : Z) (body : ChatResponse) :
  processChatMessage env documents db req = (db', Json status body) ->
  success body = true
  /\ resResponse body <> []
  /\ (0.1 <= resConfidence body <= 0.9)%Q
  /\ resLanguage body = resolvedLanguage env req
  /\ resSessionId body = orElse (bodySessionId req) (generateSessionId env)
  /\ resSessionId body <> [].
Proof.
  intros E.
  destruct (turn_json_fields env documents db db' req status body E)
    as [_ [_ [H1 [H2 [H3 [H4 [H5 [H6 _]]]]]]]].
  repeat (split; [assumption|]). assumption.
Qed.

Lemma successful_reply_is_well_formed_witness :
  exists db' body,
    processChatMessage (sampleEnv (Returned (js "eng"))) collegeDocuments [] hello
    = (db', Json 200 body)
    /\ resResponse body <> []
    /\ (0.1 <= resConfidence body <= 0.9)%Q.
Proof.
  assert (E : exists db' body,
             processChatMessage (sampleEnv (Returned (js "eng")))
               collegeDocuments [] hello
             = (db', Json 200 body))
    by (eexists; eexists; vm_compute; reflexivity).
  destruct E as [db' [body E]]. exists db', body. split; [exact E|].
  destruct (successful_reply_is_well_formed _ _ _ _ _ _ _ E) as [_ [H1 [H2 _]]].
  split; [exact H1|exact H2].
Defined.

Lemma orElse_some (s b : jsstring) : s <> [] -> orElse (Some s) b = s.
Proof. destruct s; [congruence|reflexivity]. Qed.

(** X13.  A session can be continued: the session id that a turn generated
    from a time stamp of 13 digits and a suffix of at most 9 characters
    passes the validator of the route when a later request sends it back,
    and that request, when it is answered, is answered and stored under
    the same session id. *)
Theorem generated_session_id_round_trip (env env' : Env)
  (documents documents' : list IDocumentChunk) (db db1 : list IChatMessage)
  (req req' : ChatRequest) (status : Z) (body : ChatResponse) :
  processChatMessage env documents db req = (db1, Json status body) ->
  bodySessionId req = None ->
  List.length (dateNow env) = 13%nat ->
  (List.length (randomSuffix env) <= 9)%nat ->
  bodySessionId req' = Some (resSessionId body) ->
  isLength 1 1000 (trim (bodyMessage req')) = true ->
  validateChatMessage req' = true
  /\ forall db2 status' body',
       processChatMessage env' documents' db1 req' = (db2, Json status' body') ->
       resSessionId body' = resSessionId body
       /\ exists first second,
            db2 = db ++ [first; second]
            /\ sessionId first = resSessionId body
            /\ sessionId second = resSessionId body.
Proof.
  intros E Hnone Hdate Hrand Hsess Hmsg.
  destruct (turn_json_fields env documents db db1 req status body E)
    as [_ [_ [_ [_ [_ [_ [Hid [Hne [e1 [Hdb [_ Hs1]]]]]]]]]]].
  split.
  - unfold validateChatMessage. rewrite Hmsg, Hsess. simpl.
    rewrite Hid, Hnone. simpl. unfold generateSessionId, isLength.
    rewrite !length_app, Hdate.
    assert (H1 : List.length (js "session_") = 8%nat) by (vm_compute; reflexivity).
    assert (H2 : List.length (js "_") = 1%nat) by (vm_compute; reflexivity).
    rewrite H1, H2. apply andb_true_iff. split; apply Nat.leb_le; lia.
  - intros db2 status' body' E2.
    destruct (turn_json_fields env' documents' db1 db2 req' status' body' E2)
      as [_ [_ [_ [_ [_ [_ [Hid' [_ [e2 [Hdb2 [_ Hs2]]]]]]]]]]].
    rewrite Hsess, (orElse_some _ _ Hne) in Hid'.
    split; [exact Hid'|]. exists e1, e2. subst db1 db2.
    rewrite <- app_assoc. split; [reflexivity|]. split; congruence.
Qed.

Lemma generated_session_id_round_trip_witness :
  exists db1 body db2 body',
    processChatMessage (sampleEnv Thrown) collegeDocuments [] libraryHours
    = (db1, Json 200 body)
    /\ processChatMessage (sampleEnv Thrown) collegeDocuments db1
         {| bodyMessage := js "fees";
            bodyLanguage := Some ENGLISH;
            bodySessionId := Some (resSessionId body);
            reqUser := None |}
       = (db2, Json 200 body')
    /\ resSessionId body' = resSessionId body.
Proof.
  assert (E : exists db1 body,
             processChatMessage (sampleEnv Thrown) collegeDocuments [] libraryHours
             = (db1, Json 200 body))
    by (eexists; eexists; vm_compute; reflexivity).
  destruct E as [db1 [body E]].
  destruct (generated_session_id_round_trip (sampleEnv Thrown) (sampleEnv Thrown)
              collegeDocuments collegeDocuments [] db1 libraryHours
              {| bodyMessage := js "fees";
                 bodyLanguage := Some ENGLISH;
                 bodySessionId := Some (resSessionId body);
                 reqUser := None |} 200 body E)
    as [Hv Hsame]; try (vm_compute; reflexivity).
  destruct (turn_cases (sampleEnv Thrown) collegeDocuments db1
              {| bodyMessage := js "fees";
                 bodyLanguage := Some ENGLISH;
                 bodySessionId := Some (resSessionId body);
                 reqUser := None |})
    as [[Hv' _]|[_ [text [conf [fromRAG [snippets [labels H]]]]]]];
    [congruence|].
  cbv zeta in H. destruct H as [_ [_ [_ [[_ E2]|[Hs _]]]]];
    [|discriminate].
  unfold replyOf in E2.
  destruct (Hsame _ _ _ E2) as [Hid _].
  exists db1, body. eexists. eexists. split; [exact E|].
  split; [exact E2|exact Hid].
Defined.

(** X14.  A turn and a clearing compose: after a signed-in user's turn was
    answered, clearing that user's history for the session id of the reply,
    while the engine answers, removes the new exchange together with the
    older ones of that session, leaves the collection as a clearing before
    the turn would have, and reports one more deleted exchange. *)
Theorem turn_then_clear (env env' : Env) (documents : list IDocumentChunk)
  (db db1 : list IChatMessage) (req : ChatRequest) (U : jsstring)
  (status : Z) (body : ChatResponse) :
  processChatMessage env documents db req = (db1, Json status body) ->
  reqUser req = Some U ->
  U <> [] ->
  deleteManyResolves env' = true ->
  clearChatHistory env' db1 U (Some (resSessionId body))
  = (exchangesOutside U (Some (resSessionId body)) db,
     Json 200
       {| clrSuccess := true;
          clrMessage := js "Session history cleared successfully";
          deletedCount :=
            S (List.length (exchangesOf U (Some (resSessionId body)) db)) |}).
Proof.
  intros E Hu HU Hup.
  destruct (turn_json_fields env documents db db1 req status body E)
    as [_ [_ [_ [_ [_ [_ [_ [Hne [e [Hdb [He Hs]]]]]]]]]]].
  rewrite Hu, (orElse_some _ _ HU) in He.
  unfold clearChatHistory, deleteMany, exchangesOutside, exchangesOf.
  rewrite Hup.
  destruct (resSessionId body) as [|c s] eqn:Es; [congruence|].
  cbn [truthy]. cbv iota beta.
  change (matchesQuery {| qUserId := U; qSessionId := Some (c :: s) |})
    with (inScopeb U (Some (c :: s))).
  change (fun m => negb (matchesQuery
                           {| qUserId := U; qSessionId := Some (c :: s) |} m))
    with (fun m => negb (inScopeb U (Some (c :: s)) m)).
  subst db1. rewrite !filter_app. cbn [filter].
  assert (Hm : inScopeb U (Some (c :: s)) e = true).
  { unfold inScopeb. rewrite He, Hs, !eqb_refl. reflexivity. }
  rewrite Hm. cbn [negb]. rewrite app_nil_r, length_app. cbn [List.length].
  rewrite Nat.add_1_r. reflexivity.
Qed.

Lemma turn_then_clear_witness :
  exists db1 body,
    processChatMessage (sampleEnv Thrown) collegeDocuments []
      (sessionRequest "library hours" "user-1" "session_1700000000000_aaaaaaaaa")
    = (db1, Json 200 body)
    /\ clearChatHistory (sampleEnv Thrown) db1 (js "user-1")
         (Some (resSessionId body))
       = ([], Json 200
                {| clrSuccess := true;
                   clrMessage := js "Session history cleared successfully";
                   deletedCount := 1 |}).
Proof.
  assert (E : exists db1 body,
             processChatMessage (sampleEnv Thrown) collegeDocuments []
               (sessionRequest "library hours" "user-1"
                  "session_1700000000000_aaaaaaaaa")
             = (db1, Json 200 body))
    by (eexists; eexists; vm_compute; reflexivity).
  destruct E as [db1 [body E]]. exists db1, body. split; [exact E|].
  apply (turn_then_clear (sampleEnv Thrown) (sampleEnv Thrown) collegeDocuments
           [] db1 _ (js "user-1") 200 body E).
  - reflexivity.
  - vm_compute. discriminate.
  - reflexivity.
Defined.

Lemma httpStatus_next (B : Type) (development : bool) (e : AppError) :
  httpStatus development (Next e : Reply B) = statusCode e.
Proof. reflexivity. Qed.

(** X15.  The HTTP status of a chat turn is 200, 400 or 500: 200 with
    exactly one exchange appended, 400 for an invalid request and 500 for a
    failed save, both with the collection as it was. *)
Theorem chat_turn_status (development : bool) (env : Env)
  (documents : list IDocumentChunk) (db : list IChatMessage) (req : ChatRequest) :
  let result := processChatMessage env documents db req in
  let status := httpStatus development (snd result) in
  (status = 200%Z /\ validateChatMessage req = true
   /\ exists exchange, fst result = db ++ [exchange])
  \/ (status = 400%Z /\ validateChatMessage req = false /\ fst result = db)
  \/ (status = 500%Z /\ validateChatMessage req = true /\ fst result = db).
Proof.
  cbv zeta.
  destruct (turn_cases env documents db req)
    as [[Hv E]|[Hv [text [conf [fromRAG [snippets [labels H]]]]]]].
  - right. left. rewrite E. cbn [snd fst]. unfold validationFailed.
    rewrite httpStatus_next. cbn [statusCode]. auto.
  - cbv zeta in H. destruct H as [_ [_ [_ [[_ E]|[_ E]]]]]; rewrite E.
    + left. unfold replyOf. cbn [snd fst httpStatus].
      split; [reflexivity|]. split; [exact Hv|]. eexists. reflexivity.
    + right. right. cbn [snd fst]. unfold processingFailed.
      rewrite httpStatus_next. cbn [statusCode]. auto.
Qed.

Lemma turn_next_unchanged (env : Env) (documents : list IDocumentChunk)
  (db db' : list IChatMessage) (req : ChatRequest) (e : AppError) :
  processChatMessage env documents db req = (db', Next e) -> db' = db.
Proof.
  intros E.
  destruct (turn_cases env documents db req)
    as [[_ E']|[_ [text [conf [fromRAG [snippets [labels H]]]]]]].
  - rewrite E' in E. injection E as <- _. reflexivity.
  - cbv zeta in H. destruct H as [_ [_ [_ [[_ E']|[_ E']]]]];
      rewrite E' in E.
    + unfold replyOf in E. discriminate.
    + injection E as <- _. reflexivity.
Qed.

(** ** Language detection: the choice between the languages *)

Lemma inject_nat_nonneg (n : nat) : (0 <= inject_Z (Z.of_nat n))%Q.
Proof. change 0%Q with (inject_Z 0). rewrite <- Zle_Qle. lia. Qed.

Lemma scoreOf_nonneg (b : Q) (language : SupportedLanguage)
  (text cleanText : jsstring) :
  (0 <= b)%Q -> (0 <= scoreOf b language text cleanText)%Q.
Proof.
  intros Hb. unfold scoreOf, scriptMatches, keywordMatches.
  pose proof (inject_nat_nonneg
                (List.length (filter (script (patternOf language)) text))).
  pose proof (inject_nat_nonneg
                (List.length
                   (filter (fun keyword => includes cleanText (toLowerCase keyword))
                           (keywords (patternOf language))))).
  nra.
Qed.

Lemma hintScore_nonneg (code text : jsstring) (language : SupportedLanguage) :
  (0 <= hintScore code text language)%Q.
Proof. apply scoreOf_nonneg, bonusOf_range. Qed.

Lemma catchScore_nonneg (text : jsstring) (language : SupportedLanguage) :
  (0 <= catchScore text language)%Q.
Proof.
  pose proof (scoreOf_nonneg 0 language text (trim (toLowerCase text))
                ltac:(lra)) as H.
  unfold scoreOf in H. unfold catchScore, plainScore. lra.
Qed.

Lemma tenth (q : Q) : (q / 10 == q * 0.1)%Q.
Proof. reflexivity. Qed.

Lemma confidence_range (q : Q) :
  (0 <= q)%Q -> (0 <= Qmin (q / 10) 1 <= 1)%Q.
Proof.
  intros H. split; [|apply Q.le_min_r].
  apply Q.min_glb; [rewrite tenth; lra|lra].
Qed.


Ltac order_facts :=
  repeat match goal with
         | H : (_ ?= _)%Q = Eq |- _ => apply Qeq_alt in H
         | H : (_ ?= _)%Q = Lt |- _ => apply Qlt_alt in H
         | H : (_ ?= _)%Q = Gt |- _ => apply Qgt_alt in H
         end.

(** [sortedScores] puts first the language with the highest score, and
    among equal scores the one whose key comes first. *)
Lemma sortedScores_first (v : SupportedLanguage -> Q) :
  exists language rest,
    sortedScores (scoresBy v)
    = {| candLanguage := language;
         candConfidence := Qmin (v language / 10) 1 |} :: rest
    /\ (language = ENGLISH <-> (v HINDI <= v ENGLISH /\ v RAJASTHANI <= v ENGLISH)%Q)
    /\ (language = HINDI <-> (v ENGLISH < v HINDI /\ v RAJASTHANI <= v HINDI)%Q)
    /\ (language = RAJASTHANI
        <-> (v ENGLISH < v RAJASTHANI /\ v HINDI < v RAJASTHANI)%Q).
Proof.
  unfold sortedScores, scoresBy. cbn [sort insert snd].
  destruct (v RAJASTHANI - v HINDI ?= 0)%Q eqn:E1; cbn [insert snd];
    destruct (v HINDI - v ENGLISH ?= 0)%Q eqn:E2; cbn [insert snd];
    try destruct (v RAJASTHANI - v ENGLISH ?= 0)%Q eqn:E3; cbn [insert snd map fst].
  all: order_facts.
  all: eexists; eexists; (split; [reflexivity|]).
  all: (split; [|split]); split.
  all: try discriminate.
  all: try (intros _; split; lra).
  all: try (intros [? ?]; lra).
Qed.

(** The [reduce] of the [catch] block keeps the later key among equal
    scores. *)
Lemma reduce_last (v : SupportedLanguage -> Q) :
  exists language,
    fold_left (fun a b : SupportedLanguage * Q => if ltb (snd b) (snd a) then a else b)
              (tl (scoresBy v)) (hd (ENGLISH, 0%Q) (scoresBy v))
    = (language, v language)
    /\ (language = ENGLISH <-> (v HINDI < v ENGLISH /\ v RAJASTHANI < v ENGLISH)%Q)
    /\ (language = HINDI <-> (v ENGLISH <= v HINDI /\ v RAJASTHANI < v HINDI)%Q)
    /\ (language = RAJASTHANI
        <-> (v ENGLISH <= v RAJASTHANI /\ v HINDI <= v RAJASTHANI)%Q).
Proof.
  unfold scoresBy. cbn [tl hd fold_left snd].
  destruct (ltb (v HINDI) (v ENGLISH)) eqn:E1; cbn [snd];
    [destruct (ltb (v RAJASTHANI) (v ENGLISH)) eqn:E2
    |destruct (ltb (v RAJASTHANI) (v HINDI)) eqn:E2].
  all: repeat match goal with
              | H : ltb _ _ = true |- _ => apply ltb_lt in H
              | H : ltb _ _ = false |- _ => apply ltb_ge in H
              end.
  all: eexists; (split; [reflexivity|]).
  all: (split; [|split]); split.
  all: try discriminate.
  all: try (intros _; split; lra).
  all: try (intros [? ?]; lra).
Qed.


(** X16.  The confidence that [detectLanguage] reports lies between 0 and
    1, and it is at least 0.2 whenever the external detector answered. *)
Theorem detection_confidence_range
  (franc : jsstring -> Outcome jsstring) (text : jsstring) :
  (0 <= detConfidence (detectLanguage franc text) <= 1)%Q
  /\ match franc text with
     | Returned _ => (0.2 <= detConfidence (detectLanguage franc text))%Q
     | Thrown => True
     end.
Proof.
  unfold detectLanguage.
  destruct (List.length (trim text) =? 0)%nat.
  - cbn [detConfidence]. split; [split; lra|]. destruct (franc text); [lra|exact I].
  - destruct (franc text) as [code|].
    + rewrite hintedScores_scoresBy.
      destruct (sortedScores_first
                  (fun l => scoreOf (bonusOf code l) l text (trim (toLowerCase text))))
        as [language [rest [E _]]].
      rewrite E. cbn [candConfidence candLanguage].
      pose proof (confidence_range _ (hintScore_nonneg code text language)) as Hr.
      unfold hintScore in Hr.
      destruct (ltb _ 0.2) eqn:El; cbn [detConfidence].
      * split; [split; lra|lra].
      * apply ltb_ge in El. split; [exact Hr|exact El].
    + rewrite detectWithoutHint_scoresBy. cbv zeta.
      destruct (reduce_last (fun l => plainScore l text (trim (toLowerCase text))))
        as [language [E _]].
      rewrite E. cbn [detConfidence snd]. split; [|exact I].
      apply (confidence_range _ (catchScore_nonneg text language)).
Qed.





Lemma firstn_incl (A : Type) (n : nat) (l : list A) (x : A) :
  In x (firstn n l) -> In x l.
Proof.
  revert n. induction l as [|y l IH]; intros [|n] H; cbn [firstn] in H;
    try contradiction.
  destruct H as [H|H]; [now left|right; exact (IH n H)].
Qed.

Lemma distinct_keys_filter (Item Key : Type) (key : Item -> Key)
  (keep : Item -> bool) (items : list Item) :
  NoDup (map key items) -> NoDup (map key (filter keep items)).
Proof.
  induction items as [|item items IH]; intros Hd; [exact Hd|].
  cbn [map filter] in *. apply NoDup_cons_iff in Hd. destruct Hd as [Hitem Hd].
  destruct (keep item); [|exact (IH Hd)].
  cbn [map]. apply NoDup_cons; [|exact (IH Hd)].
  intros Hin. apply Hitem. apply in_map_iff in Hin.
  destruct Hin as [other [Ekey Hother]]. apply filter_In in Hother.
  apply in_map_iff. exists other. tauto.
Qed.

Lemma distinct_keys_firstn (Item Key : Type) (key : Item -> Key) (n : nat)
  (items : list Item) :
  NoDup (map key items) -> NoDup (map key (firstn n items)).
Proof.
  revert n. induction items as [|item items IH]; intros [|n] Hd;
    cbn [firstn map]; try apply NoDup_nil.
  cbn [map] in Hd. apply NoDup_cons_iff in Hd. destruct Hd as [Hitem Hd].
  apply NoDup_cons; [|exact (IH n Hd)].
  intros Hin. apply Hitem. apply in_map_iff in Hin.
  destruct Hin as [other [Ekey Hother]]. apply in_map_iff. exists other.
  split; [exact Ekey|exact (firstn_incl _ _ _ _ Hother)].
Qed.

Lemma candidates_languages (code text : jsstring) :
  NoDup (map candLanguage (candidates code text)).
Proof.
  unfold candidates, sortedScores. rewrite map_map. cbn [candLanguage].
  rewrite hintedScores_scoresBy.
  apply (Permutation_NoDup
           (l := [ENGLISH; HINDI; RAJASTHANI])).
  - apply (Permutation_map fst
             (l := scoresBy (fun l => scoreOf (bonusOf code l) l text
                                        (trim (toLowerCase text))))).
    apply sort_perm.
  - constructor; [cbn; intros [H|[H|[]]]; discriminate|].
    constructor; [cbn; intros [H|[]]; discriminate|].
    constructor; [cbn; tauto|constructor].
Qed.

(** X19.  When [detectLanguage] reports alternatives, the external
    detector answered, there are one or two of them, they are of different
    languages, and each has a confidence above 0.1 and at most the
    confidence reported for the result. *)
Theorem alternatives_are_runners_up
  (franc : jsstring -> Outcome jsstring) (text : jsstring)
  (alts : list Candidate) :
  alternatives (detectLanguage franc text) = Some alts ->
  (exists code, franc text = Returned code)
  /\ (1 <= List.length alts <= 2)%nat
  /\ NoDup (map candLanguage alts)
  /\ Forall (fun c => (0.1 < candConfidence c
                       <= detConfidence (detectLanguage franc text))%Q) alts.
Proof.
  unfold detectLanguage.
  destruct (List.length (trim text) =? 0)%nat; [discriminate|].
  destruct (franc text) as [code|];
    [|rewrite detectWithoutHint_scoresBy; cbv zeta; discriminate].
  cbv zeta. fold (candidates code text).
  pose proof (candidates_languages code text) as Hnd.
  destruct (candidates_top code text) as [p [rest [E Hle]]].
  rewrite E in *. unfold runnersUp, slice.
  cbn [skipn Nat.sub].
  set (alts' := filter (fun result => ltb 0.1 (candConfidence result))
                       (firstn 2 rest)).
  assert (Hconf : forall conf, (candConfidence p <= conf)%Q ->
            orUndefined alts' = Some alts ->
            (exists code', Returned code = Returned code')
            /\ (1 <= List.length alts <= 2)%nat
            /\ NoDup (map candLanguage alts)
            /\ Forall (fun c => (0.1 < candConfidence c <= conf)%Q) alts).
  { intros conf Hp Halts. split; [eexists; reflexivity|].
    assert (alts' = alts /\ alts <> []) as [<- Hne].
    { destruct alts'; [discriminate|]. injection Halts as <-.
      split; [reflexivity|discriminate]. }
    split; [|split].
    - split; [destruct alts'; [congruence|cbn; lia]|].
      unfold alts'. etransitivity; [apply filter_length_le with (q := fun _ => true)|].
      + intros; reflexivity.
      + rewrite filter_all by (intros; reflexivity). apply firstn_le_length.
    - unfold alts'. apply distinct_keys_filter, distinct_keys_firstn.
      cbn [map] in Hnd. inversion Hnd. assumption.
    - rewrite Forall_forall. intros c Hc. unfold alts' in Hc.
      apply filter_In in Hc. destruct Hc as [Hc Hgt].
      apply ltb_lt in Hgt. split; [exact Hgt|].
      apply firstn_incl in Hc. rewrite Forall_forall in Hle.
      exact (Qle_trans _ _ _ (Hle c Hc) Hp). }
  destruct (ltb (candConfidence p) 0.2) eqn:El; cbn [alternatives detConfidence].
  - apply ltb_lt in El. apply Hconf. lra.
  - apply Hconf. lra.
Qed.

Lemma alternatives_are_runners_up_witness :
  exists alts,
    alternatives (detectLanguage (answering "und") (js "abcd पानीप")) = Some alts
    /\ (1 <= List.length alts <= 2)%nat
    /\ detLanguage (detectLanguage (answering "und") (js "abcd पानीप")) = ENGLISH
    /\ map candLanguage alts = [RAJASTHANI; ENGLISH].
Proof.
  assert (E : exists alts,
             alternatives (detectLanguage (answering "und") (js "abcd पानीप"))
             = Some alts /\ map candLanguage alts = [RAJASTHANI; ENGLISH])
    by (eexists; split; vm_compute; reflexivity).
  destruct E as [alts [E El]]. exists alts. split; [exact E|].
  destruct (alternatives_are_runners_up (answering "und") (js "abcd पानीप") alts E)
    as [_ [Hlen _]].
  split; [exact Hlen|]. split; [vm_compute; reflexivity|exact El].
Defined.

(** ** Success messages *)

Lemma ownProperty_cases (entry : SuccessEntry) (t : jsstring) :
  (exists v, ownProperty entry t = Some v /\ In v (map snd entry))
  \/ (ownProperty entry t = None
      /\ forall k, In k (map fst entry) -> eqb k t = false).
Proof.
  induction entry as [|[k v] entry IH]; cbn [ownProperty map fst snd].
  - right. split; [reflexivity|]. intros k [].
  - destruct (eqb k t) eqn:E.
    + left. exists v. split; [reflexivity|now left].
    + destruct IH as [[w [Hw Hin]]|[Hn Hk]].
      * left. exists w. split; [exact Hw|now right].
      * right. split; [exact Hn|]. intros k' [<-|Hin]; [exact E|exact (Hk k' Hin)].
Qed.

Lemma ownProperty_absent (entry : SuccessEntry) (t : jsstring) :
  (forall k, In k (map fst entry) -> eqb k t = false) ->
  ownProperty entry t = None.
Proof.
  induction entry as [|[k v] entry IH]; intros H; cbn [ownProperty];
    [reflexivity|].
  rewrite (H k) by (now left). apply IH. intros k' Hk. apply H. now right.
Qed.

Lemma success_texts :
  forall language entry,
    get successMessages language = Some entry ->
    map fst entry = knownSuccessTypes
    /\ forallb (fun v => negb (eqb v []) &&
                         negb (eqb v (js "Thank you for using our service!")))
               (map snd entry) = true.
Proof.
  intros language entry H.
  destruct language; vm_compute in H; injection H as <-;
    (split; vm_compute; reflexivity).
Qed.

Lemma get_successMessages (language : SupportedLanguage) :
  exists entry, get successMessages language = Some entry.
Proof. destruct language; eexists; reflexivity. Qed.

(** X20.  [getSuccessMessage] never answers its last default, the text
    [Thank you for using our service!]: a message type that no entry has
    (and that is not an inherited name) gets, in every language, the
    ENGLISH text of the type [helpful]. *)
Theorem success_message_default_is_unreachable
  (language : SupportedLanguage) (messageType text : jsstring) :
  getSuccessMessage language messageType = Some text ->
  text <> []
  /\ text <> js "Thank you for using our service!"
  /\ ((forall k, In k knownSuccessTypes -> eqb k messageType = false) ->
      Some text = getSuccessMessage ENGLISH (js "helpful")).
Proof.
  unfold getSuccessMessage.
  destruct (isInherited messageType); [discriminate|].
  assert (Hh : isInherited (js "helpful") = false) by (vm_compute; reflexivity).
  rewrite Hh.
  destruct (get_successMessages language) as [entry He].
  destruct (get_successMessages ENGLISH) as [english Hen].
  rewrite He, Hen.
  destruct (success_texts _ _ He) as [Hk Hv].
  destruct (success_texts _ _ Hen) as [Hk' Hv'].
  assert (Hgood : forall (e : SuccessEntry) v, forallb (fun v => negb (eqb v []) &&
                         negb (eqb v (js "Thank you for using our service!")))
               (map snd e) = true -> In v (map snd e) ->
               v <> [] /\ v <> js "Thank you for using our service!").
  { intros e v Hall Hin. rewrite forallb_forall in Hall.
    specialize (Hall v Hin). apply andb_true_iff in Hall.
    destruct Hall as [H1 H2]. apply negb_true_iff in H1, H2.
    split; intros ->; [rewrite eqb_refl in H1|rewrite eqb_refl in H2];
      discriminate. }
  assert (Hhelp : exists h, ownProperty english (js "helpful") = Some h
                            /\ In h (map snd english)).
  { destruct (ownProperty_cases english (js "helpful")) as [H|[_ H]]; [exact H|].
    exfalso. rewrite Hk' in H.
    specialize (H (js "helpful") ltac:(now left)).
    rewrite eqb_refl in H. discriminate. }
  destruct Hhelp as [h [Hh1 Hh2]].
  destruct (Hgood english h Hv' Hh2) as [Hne Hnt].
  rewrite Hh1. rewrite (orElse_some h _ Hne).
  rewrite (orElse_some h _ Hne).
  destruct (ownProperty_cases entry messageType) as [[v [Ev Hin]]|[En Hall]].
  - rewrite Ev. destruct (Hgood entry v Hv Hin) as [Hvne Hvnt].
    rewrite (orElse_some v _ Hvne). intros [= <-].
    split; [exact Hvne|]. split; [exact Hvnt|].
    intros Hunknown. exfalso. rewrite <- Hk in Hunknown.
    rewrite (ownProperty_absent entry messageType Hunknown) in Ev.
    discriminate.
  - rewrite En. cbn [orElse]. intros [= <-].
    split; [exact Hne|]. split; [exact Hnt|]. intros _.
    destruct (ownProperty_cases english (js "helpful")) as [[w [Hw _]]|[Hw _]];
      rewrite Hw in Hh1; [|discriminate].
    injection Hh1 as ->. destruct (ownProperty entry (js "helpful"));
      reflexivity.
Qed.

Lemma success_message_default_is_unreachable_witness :
  getSuccessMessage HINDI (js "thanks") = getSuccessMessage ENGLISH (js "helpful")
  /\ getSuccessMessage HINDI (js "helpful")
     <> getSuccessMessage ENGLISH (js "helpful").
Proof.
  assert (E : exists text, getSuccessMessage HINDI (js "thanks") = Some text)
    by (eexists; vm_compute; reflexivity).
  destruct E as [text E].
  destruct (success_message_default_is_unreachable HINDI (js "thanks") text E)
    as [_ [_ H]].
  split.
  - rewrite E. apply H. intros k Hk. vm_compute in Hk.
    destruct Hk as [<-|[<-|[<-|[]]]]; vm_compute; reflexivity.
  - vm_compute. discriminate.
Defined.

(** ** The error handler *)

(** X21.  [errorHandler] writes in the body the status it sets; for an
    error that is not an [AppError] the status is 400, 401 or 500 and the
    message is not empty; and outside development the body carries
    neither the message of the error nor its stack. *)
Theorem error_handler_response (development : bool) (error : JsError) :
  let status := fst (errorHandler development error) in
  let body := snd (errorHandler development error) in
  resStatusCode body = status
  /\ resSuccess body = false
  /\ match appStatusCode error with
     | Some code => status = code /\ resMessage body = errorMessage error
     | None =>
         (status = 400 \/ status = 401 \/ status = 500)%Z
         /\ resMessage body <> []
         /\ (status = 500%Z ->
             errorMessage error <> [] -> resMessage body = errorMessage error)
     end
  /\ (if development then resError body = Some (errorMessage error)
      else resError body = None /\ resStack body = None).
Proof.
  cbv zeta. unfold errorHandler.
  assert (N1 : js "Validation Error" <> []) by (vm_compute; discriminate).
  assert (N2 : js "Invalid ID format" <> []) by (vm_compute; discriminate).
  assert (N3 : js "Duplicate field value entered" <> [])
    by (vm_compute; discriminate).
  assert (N4 : js "Invalid token" <> []) by (vm_compute; discriminate).
  assert (N5 : js "Token expired" <> []) by (vm_compute; discriminate).
  assert (N6 : js "Internal Server Error" <> []) by (vm_compute; discriminate).
  destruct (appStatusCode error) as [code|].
  - cbn [fst snd resStatusCode resSuccess resMessage resError resStack].
    split; [reflexivity|]. split; [reflexivity|]. split; [split; reflexivity|].
    destruct development; [reflexivity|split; reflexivity].
  - destruct (eqb (errorName error) (js "ValidationError"));
      [|destruct (eqb (errorName error) (js "CastError"));
        [|destruct (eqb (errorName error) (js "MongoServerError")
                    && isCode (errorCode error) 11000);
          [|destruct (eqb (errorName error) (js "JsonWebTokenError"));
            [|destruct (eqb (errorName error) (js "TokenExpiredError"));
              [|destruct (errorMessage error) as [|c m] eqn:Em]]]]].
    all: cbn [fst snd resStatusCode resSuccess resMessage resError resStack].
    all: (split; [reflexivity|]); (split; [reflexivity|]); split.
    all: try (destruct development; [reflexivity|split; reflexivity]).
    all: split; [auto|split; [try assumption; try discriminate|]].
    all: try (intros H; discriminate H).
    all: intros _ H; try reflexivity; exfalso; apply H; reflexivity.
Qed.

(** ** The middlewares of authentication *)

Lemma splitOnGo_no_separator (sep : N) (a rest cur : jsstring) :
  forallb (fun c => negb (c =? sep)%N) a = true ->
  splitOnGo sep (a ++ rest) cur = splitOnGo sep rest (rev a ++ cur).
Proof.
  revert cur. induction a as [|c a IH]; intros cur H; [reflexivity|].
  cbn [forallb] in H. apply andb_true_iff in H. destruct H as [Hc Ha].
  apply negb_true_iff in Hc. cbn [app splitOnGo]. rewrite Hc.
  rewrite (IH _ Ha). cbn [rev]. rewrite <- app_assoc. reflexivity.
Qed.

Lemma startsWith_app (p rest : jsstring) : startsWith (p ++ rest) p = true.
Proof.
  induction p as [|c p IH]; [destruct rest; reflexivity|].
  cbn [app startsWith]. rewrite N.eqb_refl. exact IH.
Qed.

(** X22.  Both middlewares take as token the second piece of the header
    between spaces, and ask of the first piece only that it start with
    [Bearer]: whatever follows [Bearer] before the first space, and
    whatever follows a second space, is ignored. *)
Theorem bearer_token_is_second_piece (scheme token tail : jsstring) :
  noSpace scheme = true ->
  noSpace token = true ->
  tail = [] \/ (exists rest, tail = 32%N :: rest) ->
  bearerToken (Some (js "Bearer" ++ scheme ++ [32%N] ++ token ++ tail))
  = Some token.
Proof.
  intros Hs Ht Htail. unfold bearerToken.
  assert (Hb : exists c p, js "Bearer" = c :: p /\ noSpace (c :: p) = true)
    by (eexists; eexists; split; vm_compute; reflexivity).
  destruct Hb as [c [p [Eb Hp]]].
  rewrite startsWith_app. rewrite Eb. cbn [app truthy andb].
  unfold splitOn.
  change (c :: p ++ scheme ++ 32%N :: token ++ tail)
    with ((c :: p) ++ scheme ++ 32%N :: token ++ tail).
  rewrite app_assoc.
  assert (Hps : noSpace ((c :: p) ++ scheme) = true)
    by (unfold noSpace in *; rewrite forallb_app, Hp, Hs; reflexivity).
  rewrite (splitOnGo_no_separator 32 _ _ [] Hps).
  cbn [splitOnGo]. rewrite N.eqb_refl. cbn [nth_error].
  destruct Htail as [->|[rest ->]].
  - rewrite app_nil_r.
    rewrite <- (app_nil_r token) at 1.
    rewrite (splitOnGo_no_separator 32 token [] [] Ht). cbn [splitOnGo].
    rewrite app_nil_r, rev_involutive. reflexivity.
  - rewrite (splitOnGo_no_separator 32 token _ [] Ht). cbn [splitOnGo].
    rewrite N.eqb_refl, app_nil_r, rev_involutive. reflexivity.
Qed.

Lemma bearer_token_is_second_piece_witness :
  bearerToken (Some (js "Bearer t-admin")) = Some (js "t-admin")
  /\ bearerToken (Some (js "Bearers t-admin and more")) = Some (js "t-admin")
  /\ bearerToken (Some (js "Bearer  t-admin")) = Some [].
Proof.
  split; [|split].
  - assert (E : js "Bearer t-admin"
                = js "Bearer" ++ [] ++ [32%N] ++ js "t-admin" ++ [])
      by (vm_compute; reflexivity).
    rewrite E. apply bearer_token_is_second_piece;
      [reflexivity|vm_compute; reflexivity|left; reflexivity].
  - assert (E : js "Bearers t-admin and more"
                = js "Bearer" ++ js "s" ++ [32%N] ++ js "t-admin"
                  ++ 32%N :: js "and more")
      by (vm_compute; reflexivity).
    rewrite E. apply bearer_token_is_second_piece;
      [vm_compute; reflexivity|vm_compute; reflexivity
      |right; eexists; reflexivity].
  - assert (E : js "Bearer  t-admin"
                = js "Bearer" ++ [] ++ [32%N] ++ [] ++ 32%N :: js "t-admin")
      by (vm_compute; reflexivity).
    rewrite E. apply bearer_token_is_second_piece;
      [reflexivity|reflexivity|right; eexists; reflexivity].
Defined.

(** What [optionalAuth] does, read off [authenticate]. *)
Lemma optionalAuth_authenticate (auth : AuthEnv) (authorization : option jsstring) :
  optionalAuth auth authorization
  = Continue match authenticate auth authorization with
             | Continue (Some user) => Some user
             | _ => None
             end.
Proof.
  unfold optionalAuth, authenticate.
  destruct (bearerToken authorization) as [[|t0 t]|]; try reflexivity.
  destruct (jwtSecret auth) as [[|s0 s]|]; try reflexivity.
  destruct (verify auth (t0 :: t) (s0 :: s)) as [id|[|] [|]]; try reflexivity.
  destruct (findById auth id) as [[user|]|]; try reflexivity.
  destruct (isActive user); reflexivity.
Qed.

Lemma authenticate_continue (auth : AuthEnv) (authorization : option jsstring)
  (u : option User) :
  authenticate auth authorization = Continue u ->
  exists user, u = Some user /\ isActive user = true.
Proof.
  unfold authenticate.
  destruct (bearerToken authorization) as [[|t0 t]|]; try discriminate.
  destruct (jwtSecret auth) as [[|s0 s]|]; try discriminate.
  destruct (verify auth (t0 :: t) (s0 :: s)) as [id|[|] [|]]; try discriminate.
  destruct (findById auth id) as [[user|]|]; try discriminate.
  destruct (isActive user) eqn:Ea; [|discriminate].
  cbn [negb]. intros [= <-]. exists user. split; [reflexivity|exact Ea].
Qed.

(** X23.  [optionalAuth] never stops a request, and it attaches a user
    exactly when [authenticate] lets the same header through, the same
    user, who is active; [authenticate] never continues without a user. *)
Theorem optional_auth_agrees_with_authenticate (auth : AuthEnv)
  (authorization : option jsstring) :
  exists u,
    optionalAuth auth authorization = Continue u
    /\ (forall user,
          u = Some user <-> authenticate auth authorization = Continue (Some user))
    /\ (forall user, u = Some user -> isActive user = true)
    /\ authenticate auth authorization <> Continue None.
Proof.
  rewrite optionalAuth_authenticate. eexists. split; [reflexivity|].
  destruct (authenticate auth authorization) as [[user|]|e|] eqn:E.
  - destruct (authenticate_continue _ _ _ E) as [user' [[= <-] Ha]].
    split; [|split].
    + intros user'. split; congruence.
    + intros user' [= <-]. exact Ha.
    + discriminate.
  - destruct (authenticate_continue _ _ _ E) as [user' [H _]]. discriminate.
  - split; [|split]; [intros user; split; discriminate|discriminate|discriminate].
  - split; [|split]; [intros user; split; discriminate|discriminate|discriminate].
Qed.

(** X24.  The two middlewares before the analytics let a request through
    exactly when [authenticate] accepts it for a user whose role is ADMIN,
    and that user is active; a user of another role that [authenticate]
    accepts is refused with status 403. *)
Theorem analytics_only_for_admins (auth : AuthEnv)
  (authorization : option jsstring) (u : option User) :
  (analyticsGuard auth authorization = Continue u
   <-> exists user,
         u = Some user /\ role user = ADMIN /\ isActive user = true
         /\ authenticate auth authorization = Continue (Some user))
  /\ (forall user,
        authenticate auth authorization = Continue (Some user) ->
        role user <> ADMIN ->
        exists e, analyticsGuard auth authorization = Refuse e
                  /\ statusCode e = 403%Z).
Proof.
  unfold analyticsGuard.
  destruct (authenticate auth authorization) as [[user|]|e|] eqn:E.
  - destruct (authenticate_continue _ _ _ E) as [user' [[= <-] Ha]].
    unfold authorize. cbn [existsb]. rewrite orb_false_r. split.
    + split.
      * destruct (roleEqb (role user) ADMIN) eqn:Er; cbn [negb];
          [|discriminate].
        intros [= <-]. exists user.
        split; [reflexivity|]. split; [|split; [exact Ha|reflexivity]].
        destruct (role user); try discriminate. reflexivity.
      * intros [user' [-> [Hr [_ [= <-]]]]]. rewrite Hr. reflexivity.
    + intros user' [= <-] Hr.
      destruct (role user); try congruence; cbn [roleEqb negb];
        eexists; split; reflexivity.
  - destruct (authenticate_continue _ _ _ E) as [user' [H _]]. discriminate.
  - split; [split; [discriminate|intros [user [_ [_ [_ H]]]]; discriminate]
           |intros user H; discriminate].
  - split; [split; [discriminate|intros [user [_ [_ [_ H]]]]; discriminate]
           |intros user H; discriminate].
Qed.

Lemma analytics_only_for_admins_witness :
  analyticsGuard sampleAuth (Some (js "Bearer t-admin"))
  = Continue (Some sampleAdmin)
  /\ exists e, analyticsGuard sampleAuth (Some (js "Bearer t-student")) = Refuse e
               /\ statusCode e = 403%Z.
Proof.
  split.
  - apply (analytics_only_for_admins sampleAuth (Some (js "Bearer t-admin"))
             (Some sampleAdmin)).
    exists sampleAdmin. split; [reflexivity|]. split; [reflexivity|].
    split; [reflexivity|]. vm_compute. reflexivity.
  - apply (proj2 (analytics_only_for_admins sampleAuth
                    (Some (js "Bearer t-student")) None) sampleStudent).
    + vm_compute. reflexivity.
    + discriminate.
Defined.

(** ** The routes *)

(** X25.  [POST /api/chat/message] always reaches its handler, and an
    exchange that it stores is stored under the key of the user that
    [authenticate] would accept for the header (under [anonymous] if that
    key is empty), and under [anonymous] for every other header; a request
    that is not answered stores nothing. *)
Theorem post_message_stores_the_user (auth : AuthEnv) (env : Env)
  (documents : list IDocumentChunk) (db : list IChatMessage)
  (authorization : option jsstring) (body : ChatRequest) :
  exists reply,
    snd (postMessage auth env documents db authorization body) = Handled reply
    /\ match reply with
       | Json _ answer =>
           exists exchange,
             fst (postMessage auth env documents db authorization body)
             = db ++ [exchange]
             /\ userId exchange = storedUser auth authorization
             /\ sessionId exchange = resSessionId answer
       | Next _ =>
           fst (postMessage auth env documents db authorization body) = db
       end.
Proof.
  unfold postMessage, storedUser. rewrite optionalAuth_authenticate.
  set (user := match authenticate auth authorization with
               | Continue (Some user) => Some user
               | _ => None
               end).
  set (req := {| bodyMessage := bodyMessage body;
                 bodyLanguage := bodyLanguage body;
                 bodySessionId := bodySessionId body;
                 reqUser := option_map userKey user |}).
  destruct (processChatMessage env documents db req) as [db' reply] eqn:E.
  exists reply. cbn [fst snd]. split; [reflexivity|].
  destruct reply as [status answer|e].
  - destruct (turn_json_fields env documents db db' req status answer E)
      as [_ [_ [_ [_ [_ [_ [_ [_ [exchange [Hdb [Hu Hs]]]]]]]]]]].
    exists exchange. split; [exact Hdb|]. split; [|exact Hs].
    rewrite Hu. unfold req, user. cbn [reqUser].
    destruct (authenticate auth authorization) as [[u|]|e|]; reflexivity.
  - exact (turn_next_unchanged env documents db db' req e E).
Qed.

Lemma filter_absorbs (A : Type) (p q : A -> bool) (l : list A) :
  (forall x, In x l -> p x = true -> q x = true) ->
  filter p (filter q l) = filter p l.
Proof.
  induction l as [|x l IH]; intros H; [reflexivity|]. cbn [filter].
  assert (IH' : filter p (filter q l) = filter p l)
    by (apply IH; intros y Hy; apply H; now right).
  destruct (q x) eqn:Eq; cbn [filter].
  - rewrite IH'. reflexivity.
  - destruct (p x) eqn:Ep; [|exact IH'].
    rewrite (H x (or_introl eq_refl) Ep) in Eq. discriminate.
Qed.

(** X26.  [DELETE /api/chat/history] deletes nothing unless
    [authenticate] accepts the header, and then it deletes no exchange of
    another user and adds none. *)
Theorem delete_history_touches_one_user (auth : AuthEnv) (env : Env)
  (db : list IChatMessage) (authorization session : option jsstring) :
  let db' := fst (deleteHistory auth env db authorization session) in
  match authenticate auth authorization with
  | Continue (Some user) =>
      exchangesOfOthers (userKey user) db' = exchangesOfOthers (userKey user) db
      /\ incl db' db
  | _ => db' = db
  end.
Proof.
  cbv zeta. unfold deleteHistory.
  destruct (authenticate auth authorization) as [[user|]|e|]; try reflexivity.
  unfold clearChatHistory.
  destruct (deleteManyResolves env);
    [|cbn [fst]; split; [reflexivity|apply incl_refl]].
  unfold deleteMany. cbv iota beta. cbn [fst].
  split.
  - unfold exchangesOfOthers. apply filter_absorbs.
    intros m _ Hm. apply negb_true_iff in Hm. apply negb_true_iff.
    unfold matchesQuery.
    destruct (truthy session); cbn [qUserId]; rewrite Hm; reflexivity.
  - intros m Hm. apply filter_In in Hm. tauto.
Qed.

(** ** The pages of the history *)

Lemma firstn_add (A : Type) (a b : nat) (l : list A) :
  firstn (a + b) l = firstn a l ++ firstn b (skipn a l).
Proof.
  revert l. induction a as [|a IH]; intros l; [reflexivity|].
  destruct l as [|x l]; cbn [Nat.add firstn skipn app].
  - destruct b; reflexivity.
  - rewrite IH. reflexivity.
Qed.

Lemma chunks_concat (A : Type) (k n : nat) (l : list A) :
  List.concat (map (fun i => firstn k (skipn (i * k) l)) (seq 0 n))
  = firstn (n * k) l.
Proof.
  induction n as [|n IH]; [reflexivity|].
  rewrite seq_S, map_app, concat_app, IH. cbn [Nat.add map List.concat].
  rewrite app_nil_r.
  replace (S n * k)%nat with (n * k + k)%nat by lia.
  symmetry. apply firstn_add.
Qed.

Lemma ceilDiv_spec (total limit : nat) :
  (1 <= limit)%nat ->
  (total <= ceilDiv total limit * limit)%nat
  /\ forall page, (page < ceilDiv total limit)%nat <-> (page * limit < total)%nat.
Proof.
  intros Hl. unfold ceilDiv.
  pose proof (Nat.div_mod (total + limit - 1) limit ltac:(lia)) as Hd.
  pose proof (Nat.mod_upper_bound (total + limit - 1) limit ltac:(lia)) as Hm.
  set (d := ((total + limit - 1) / limit)%nat) in *.
  set (r := ((total + limit - 1) mod limit)%nat) in *.
  split; [nia|]. intros page. split; intros H; nia.
Qed.

Lemma selected_query (userId : jsstring) (session : option jsstring) :
  (if truthy session
   then {| qUserId := userId; qSessionId := session |}
   else {| qUserId := userId; qSessionId := None |})
  = {| qUserId := userId; qSessionId := selectedSession session |}.
Proof. unfold selectedSession. destruct (truthy session); reflexivity. Qed.

Lemma exchangesOf_matches (userId : jsstring) (session : option jsstring)
  (db : list IChatMessage) :
  filter (matchesQuery {| qUserId := userId; qSessionId := session |}) db
  = exchangesOf userId session db.
Proof. reflexivity. Qed.

Lemma limitAsked_positive (q : HistoryQuery) : (1 <= limitAsked q)%nat.
Proof. unfold limitAsked. destruct (queryLimit q); lia. Qed.

Lemma pageAsked_positive (q : HistoryQuery) : (1 <= pageAsked q)%nat.
Proof. unfold pageAsked. destruct (queryPage q); lia. Qed.

(** What [getChatHistory] answers while the engine answers. *)
Lemma getChatHistory_resolved
  (newestFirst : list IChatMessage -> list IChatMessage)
  (db : list IChatMessage) (userId : jsstring) (q : HistoryQuery) :
  let listing :=
    newestFirst (exchangesOf userId (selectedSession (querySessionId q)) db) in
  let total :=
    List.length (exchangesOf userId (selectedSession (querySessionId q)) db) in
  getChatHistory newestFirst true db userId q
  = Json 200
      {| histSuccess := true;
         histMessage := js "Chat history retrieved successfully";
         histData :=
           rev (firstn (limitAsked q)
                  (skipn ((pageAsked q - 1) * limitAsked q) listing));
         pagination :=
           {| currentPage := pageAsked q;
              totalPages := ceilDiv total (limitAsked q);
              totalItems := total;
              itemsPerPage := limitAsked q;
              hasNext := (pageAsked q <? ceilDiv total (limitAsked q))%nat;
              hasPrev := (1 <? pageAsked q)%nat |} |}.
Proof.
  cbv zeta. unfold getChatHistory. rewrite selected_query.
  rewrite exchangesOf_matches. reflexivity.
Qed.

(** X27.  A page of the history, when the engine lists every exchange
    once: the page holds the exchanges of the user (and of the session, if
    one is asked for) only, as many as the limit or as are left after the
    pages before it; [totalItems] counts all of them, [totalPages] is the
    least number of pages that holds them, [hasNext] tells whether the
    next page has an exchange and [hasPrev] whether the page is not the
    first. *)
Theorem history_page_shape
  (newestFirst : list IChatMessage -> list IChatMessage)
  (queriesResolve : bool) (db : list IChatMessage) (userId : jsstring)
  (q : HistoryQuery) (status : Z) (body : HistoryResponse) :
  (forall l, Permutation (newestFirst l) l) ->
  getChatHistory newestFirst queriesResolve db userId q = Json status body ->
  let session := selectedSession (querySessionId q) in
  let total := List.length (exchangesOf userId session db) in
  let page := pageAsked q in
  let limit := limitAsked q in
  status = 200%Z
  /\ Forall (inScope userId session) (histData body)
  /\ List.length (histData body) = Nat.min limit (total - (page - 1) * limit)
  /\ totalItems (pagination body) = total
  /\ (total <= totalPages (pagination body) * limit)%nat
  /\ (forall n, (n < totalPages (pagination body))%nat <-> (n * limit < total)%nat)
  /\ (hasNext (pagination body) = true <-> (page * limit < total)%nat)
  /\ (hasPrev (pagination body) = true <-> (1 < page)%nat).
Proof.
  intros Hperm E. cbv zeta.
  destruct queriesResolve; [|discriminate].
  rewrite getChatHistory_resolved in E. cbv zeta in E.
  injection E as <- <-.
  cbn [histData pagination totalItems totalPages hasNext hasPrev].
  set (session := selectedSession (querySessionId q)).
  set (matching := exchangesOf userId session db).
  pose proof (limitAsked_positive q) as Hl.
  destruct (ceilDiv_spec (List.length matching) (limitAsked q) Hl) as [Hc1 Hc2].
  split; [reflexivity|]. split; [|split; [|split; [|split; [|split; [|split]]]]].
  - rewrite Forall_forall. intros m Hm. apply in_rev in Hm.
    apply firstn_incl in Hm.
    assert (Hin : In m (newestFirst matching)).
    { rewrite <- (firstn_skipn ((pageAsked q - 1) * limitAsked q)
                                (newestFirst matching)).
      apply in_or_app. now right. }
    apply (Permutation_in _ (Hperm matching)) in Hin.
    unfold matching, exchangesOf in Hin. apply filter_In in Hin.
    apply matchesQuery_inScope. exact (proj2 Hin).
  - rewrite length_rev, length_firstn, length_skipn.
    rewrite (Permutation_length (Hperm matching)). reflexivity.
  - reflexivity.
  - exact Hc1.
  - exact Hc2.
  - rewrite Nat.ltb_lt. apply Hc2.
  - apply Nat.ltb_lt.
Qed.

Lemma history_page_shape_witness :
  exists body,
    getChatHistory (@rev IChatMessage) true
      [sampleExchange "u1" "s1"; sampleExchange "u2" "s1";
       sampleExchange "u1" "s2"; sampleExchange "u1" "s3"]
      (js "u1") (historyQuery 1 2 None)
    = Json 200 body
    /\ List.length (histData body) = 2%nat
    /\ hasNext (pagination body) = true
    /\ hasPrev (pagination body) = false.
Proof.
  assert (E : exists body,
             getChatHistory (@rev IChatMessage) true
               [sampleExchange "u1" "s1"; sampleExchange "u2" "s1";
                sampleExchange "u1" "s2"; sampleExchange "u1" "s3"]
               (js "u1") (historyQuery 1 2 None)
             = Json 200 body)
    by (eexists; rewrite getChatHistory_resolved; reflexivity).
  destruct E as [body E]. exists body. split; [exact E|].
  destruct (history_page_shape (@rev IChatMessage) true _ _ _ _ _
              (fun l => Permutation_sym (Permutation_rev l)) E)
    as [_ [_ [Hlen [_ [_ [_ [Hnext Hprev]]]]]]].
  split; [|split].
  - rewrite Hlen. vm_compute. reflexivity.
  - apply Hnext. vm_compute. lia.
  - destruct (hasPrev (pagination body)); [|reflexivity].
    exfalso. assert (H : (1 < pageAsked (historyQuery 1 2 None))%nat)
      by (apply Hprev; reflexivity).
    vm_compute in H. lia.
Defined.

Lemma pageOf_listing
  (newestFirst : list IChatMessage -> list IChatMessage)
  (db : list IChatMessage) (userId : jsstring) (session : option jsstring)
  (limit page : nat) :
  (1 <= limit)%nat ->
  (1 <= page)%nat ->
  pageOf newestFirst db userId session limit page
  = rev (firstn limit
           (skipn ((page - 1) * limit)
              (newestFirst (exchangesOf userId (selectedSession session) db)))).
Proof.
  intros Hl Hp. unfold pageOf. rewrite getChatHistory_resolved. cbv zeta.
  cbn [histData]. unfold pageAsked, limitAsked, historyQuery.
  cbn [queryPage queryLimit querySessionId].
  rewrite !Nat2Pos.id by lia. reflexivity.
Qed.

(** X28.  The pages of the history cover the listing: with a limit of at
    least 1, the pages from 1 to the number of pages, each read backwards,
    put one after the other give the exchanges of the user (and of the
    session asked for) in the order of the engine, each once; and every
    page after the last one is empty. *)
Theorem history_pages_partition
  (newestFirst : list IChatMessage -> list IChatMessage)
  (db : list IChatMessage) (userId : jsstring) (session : option jsstring)
  (limit : nat) :
  (forall l, Permutation (newestFirst l) l) ->
  (1 <= limit)%nat ->
  let matching := exchangesOf userId (selectedSession session) db in
  let pages := ceilDiv (List.length matching) limit in
  List.concat (map (fun page => rev (pageOf newestFirst db userId session limit page))
              (seq 1 pages))
  = newestFirst matching
  /\ forall page, (pages < page)%nat ->
                  pageOf newestFirst db userId session limit page = [].
Proof.
  intros Hperm Hl. cbv zeta.
  set (matching := exchangesOf userId (selectedSession session) db).
  destruct (ceilDiv_spec (List.length matching) limit Hl) as [Hc1 Hc2].
  split.
  - rewrite <- seq_shift, map_map.
    rewrite (map_ext_in _
               (fun i => firstn limit (skipn (i * limit) (newestFirst matching)))).
    + rewrite chunks_concat. apply firstn_all2.
      rewrite (Permutation_length (Hperm matching)). exact Hc1.
    + intros i _. rewrite pageOf_listing by lia. rewrite rev_involutive.
      fold matching. replace (S i - 1)%nat with i by lia. reflexivity.
  - intros page Hp. rewrite pageOf_listing by lia. fold matching.
    rewrite skipn_all2; [destruct limit; reflexivity|].
    rewrite (Permutation_length (Hperm matching)).
    assert (H : ~ (page - 1 < ceilDiv (List.length matching) limit)%nat) by lia.
    rewrite Hc2 in H. lia.
Qed.

Lemma history_pages_partition_witness :
  rev (pageOf (@rev IChatMessage)
         [sampleExchange "u1" "s1"; sampleExchange "u2" "s1";
          sampleExchange "u1" "s2"; sampleExchange "u1" "s3"]
         (js "u1") None 2 1)
  ++ rev (pageOf (@rev IChatMessage)
            [sampleExchange "u1" "s1"; sampleExchange "u2" "s1";
             sampleExchange "u1" "s2"; sampleExchange "u1" "s3"]
            (js "u1") None 2 2)
  = [sampleExchange "u1" "s3"; sampleExchange "u1" "s2"; sampleExchange "u1" "s1"].
Proof.
  destruct (history_pages_partition (@rev IChatMessage)
              [sampleExchange "u1" "s1"; sampleExchange "u2" "s1";
               sampleExchange "u1" "s2"; sampleExchange "u1" "s3"]
              (js "u1") None 2
              (fun l => Permutation_sym (Permutation_rev l)) ltac:(lia))
    as [H _].
  assert (Hp : ceilDiv
                 (List.length
                    (exchangesOf (js "u1") (selectedSession None)
                       [sampleExchange "u1" "s1"; sampleExchange "u2" "s1";
                        sampleExchange "u1" "s2"; sampleExchange "u1" "s3"]))
                 2 = 2%nat) by (vm_compute; reflexivity).
  rewrite Hp in H. cbn [seq map List.concat] in H. rewrite app_nil_r in H.
  rewrite H. vm_compute. reflexivity.
Defined.
